(** * The shopping-list gateway: service registry, circuit breakers, proxy
      and aggregator

    A shallow embedding of [shared/serviceRegistry.js] (class
    [ServiceRegistry]) and of the gateway's [server.js] (class [ApiGateway]),
    with the properties of the specification stated over it.

    Conventions of the embedding.
    - A JavaScript object used as a dictionary ([this.services],
      [this.circuitBreakers], [req.headers]) is a [gmap] with string keys,
      the keys the object holds. Where the registry reads or writes its
      dictionary under a name that [Object.prototype] defines, the operation
      says what the inherited value makes of it.
    - A function of the language that the embedding does not spell out
      ([new URL(u).host], [String.prototype.toLowerCase]) is a parameter of
      the handler that calls it.
    - A timestamp is the number of milliseconds since the epoch, a [Z].
      The registry stores [new Date().toISOString()] and reads it back with
      [new Date(...)]; that round trip is exact at millisecond precision, so
      the stored value is the millisecond count itself.
    - [Date.now()] and [new Date()] are clock readings handed to the
      operation that performs them, one argument per reading.
    - A handler that awaits a downstream call receives the outcome of that
      call as an argument and returns, next to its response, the list of the
      calls it dispatched.
    - A handler is run from its first statement to its response. The
      stretches of a handler between two awaits, which is where the handlers
      of two requests in flight can alternate, are the [segment]s at the end
      of the gateway's definitions. *)

From Stdlib Require Import ZArith QArith Qround List String Ascii Bool Lia.
From stdpp Require Import base tactics option list gmap strings pretty.

Local Open Scope Z_scope.
Local Open Scope string_scope.

(** ** Strings as JavaScript uses them *)

Module Js.

(** [s.startsWith(p)] *)
Definition startsWith (s p : string) : bool := String.prefix p s.

(** The suffix of [s] from index [n] on. *)
Fixpoint drop (n : nat) (s : string) : string :=
  match n, s with
  | O, _ => s
  | S _, EmptyString => EmptyString
  | S n', String _ s' => drop n' s'
  end.

(** [s.replace(pat, rep)] with a string pattern: only the first occurrence
    is replaced. None of the replacement strings of the gateway holds a
    dollar sign, so the replacement is literal. *)
Fixpoint replace (s pat rep : string) : string :=
  if String.prefix pat s then rep +:+ drop (String.length pat) s
  else match s with
       | EmptyString => EmptyString
       | String c s' => String c (replace s' pat rep)
       end.

(** [s.split(sep)[0]] for a one-character separator: the part of [s] before
    the first [sep], or all of [s]. *)
Fixpoint split_head (s : string) (sep : ascii) : string :=
  match s with
  | EmptyString => EmptyString
  | String c s' => if Ascii.eqb c sep then EmptyString
                   else String c (split_head s' sep)
  end.

(** [s.includes(t)] *)
Fixpoint includes (s t : string) : bool :=
  String.prefix t s ||
  match s with
  | EmptyString => false
  | String _ s' => includes s' t
  end.

(** The lowering of a case-blind match against an ASCII pattern, and
    [toLowerCase] on strings of ASCII bytes: the letters [A] to [Z] are
    lowered, other bytes are left as they are. On other strings
    [String.prototype.toLowerCase] is a function of the language that the
    handlers take as a parameter. *)
Definition lower_ascii (c : ascii) : ascii :=
  let n := nat_of_ascii c in
  if (65 <=? n)%nat && (n <=? 90)%nat then ascii_of_nat (n + 32) else c.

Fixpoint toLowerCase (s : string) : string :=
  match s with
  | EmptyString => EmptyString
  | String c s' => String (lower_ascii c) (toLowerCase s')
  end.

(** The names [Object.prototype] defines. A plain object inherits them: a
    read [o[k]] under one of them finds a value although [o] holds no such
    key, and a write under ["__proto__"] sets the prototype instead of a
    key. *)
Definition Object_prototype : list string :=
  ["__proto__"; "constructor"; "hasOwnProperty"; "isPrototypeOf";
   "propertyIsEnumerable"; "toLocaleString"; "toString"; "valueOf";
   "__defineGetter__"; "__defineSetter__"; "__lookupGetter__";
   "__lookupSetter__"].

Definition inherited (k : string) : bool :=
  existsb (String.eqb k) Object_prototype.

End Js.

(** ** The service registry *)

Module ServiceRegistry.

(** What a service hands to [register]: its address and free metadata. The
    three bookkeeping fields are written after the spread of this object,
    so a field of the same name in it would be overwritten. *)
Record ServiceInfo := {
  url : string;
  metadata : list (string * string)
}.

(** A stored record: the registered info spread into the object, then the
    three bookkeeping fields. *)
Record ServiceRecord := {
  info : ServiceInfo;
  registeredAt : Z;
  lastHealthCheck : Z;
  healthy : bool
}.

(** [this.services], by the keys it holds. It is a plain object, whose
    prototype is [Object.prototype]: a read [this.services[name]] under a
    name of [Js.Object_prototype] that the dictionary does not hold finds
    the inherited value, a function or, under ["__proto__"], the prototype
    itself; these values are truthy and have no [healthy] of their own.
    The inherited values are no part of the state. A call that writes to
    one, [updateHealth] under an inherited name that is not held or
    [register] under ["__proto__"], is followed as far as the dictionary and
    the result of the call go; what the registry does under the inherited
    names after such a call is outside the embedding, which follows it
    through the calls of [ordinary] names. *)
Abbreviation services := (gmap string ServiceRecord).

(** [register(serviceName, serviceInfo)]: the two [new Date()] readings are
    [t_reg] and [t_check]. Returns [true]. The assignment makes a key of
    every name but ["__proto__"]: under that name it writes the key when
    the dictionary holds one, as a dictionary read from the file can, and
    sets the prototype of the dictionary otherwise, adding no key. *)
Definition register (serviceName : string) (serviceInfo : ServiceInfo)
    (t_reg t_check : Z) (s : services) : services * bool :=
  match s !! serviceName with
  | None =>
      if String.eqb serviceName "__proto__" then (s, true)
      else (<[serviceName := {| info := serviceInfo;
                                registeredAt := t_reg;
                                lastHealthCheck := t_check;
                                healthy := true |}]> s, true)
  | Some _ =>
      (<[serviceName := {| info := serviceInfo;
                           registeredAt := t_reg;
                           lastHealthCheck := t_check;
                           healthy := true |}]> s, true)
  end.

(** [unregister(serviceName)]: the test [this.services[serviceName]] also
    passes on an inherited name that is not held; [delete] then removes
    nothing. *)
Definition unregister (serviceName : string) (s : services) : services * bool :=
  match s !! serviceName with
  | Some _ => (delete serviceName s, true)
  | None => if Js.inherited serviceName then (s, true) else (s, false)
  end.

(** [discover(serviceName)]: [None] is the [null] of the source. Under an
    inherited name that is not held, [service] is the inherited value and
    [service.healthy] is undefined. *)
Definition discover (serviceName : string) (s : services) : option ServiceRecord :=
  match s !! serviceName with
  | None => None
  | Some service => if negb (healthy service) then None else Some service
  end.

(** [updateHealth(serviceName, isHealthy)]: under an inherited name that is
    not held the test passes and the two assignments go to the inherited
    value, not to the dictionary. *)
Definition updateHealth (serviceName : string) (isHealthy : bool) (now : Z)
    (s : services) : services * bool :=
  match s !! serviceName with
  | Some r =>
      (<[serviceName := {| info := info r;
                           registeredAt := registeredAt r;
                           lastHealthCheck := now;
                           healthy := isHealthy |}]> s, true)
  | None => if Js.inherited serviceName then (s, true) else (s, false)
  end.

(** [getAllServices()]: a shallow copy of the dictionary. *)
Definition getAllServices (s : services) : services := s.

(** [diffMinutes = (now - lastCheck) / (1000 * 60)] *)
Definition diffMinutes (now : Z) (r : ServiceRecord) : Q :=
  (inject_Z (now - lastHealthCheck r) / inject_Z (1000 * 60))%Q.

(** [diffMinutes > 2] *)
Definition inactive (now : Z) (r : ServiceRecord) : bool :=
  negb (Qle_bool (diffMinutes now r) 2).

(** One turn of the loop of [cleanup]: the pair is [this.services] and the
    [cleaned] flag. *)
Definition cleanup_step (now : Z) (acc : services * bool)
    (entry : string * ServiceRecord) : services * bool :=
  if inactive now entry.2 then (delete entry.1 acc.1, true) else acc.

(** [cleanup()]: the loop runs over [Object.entries(this.services)], taken
    before the first deletion. The write to the registry file that follows
    a change is not part of the embedding. *)
Definition cleanup (now : Z) (s : services) : services * bool :=
  foldl (cleanup_step now) (s, false) (map_to_list s).

(** Operations on the registry, for sequences of calls. *)
Inductive op :=
| Register (name : string) (i : ServiceInfo) (t_reg t_check : Z)
| Unregister (name : string)
| Discover (name : string)
| UpdateHealth (name : string) (isHealthy : bool) (now : Z)
| GetAllServices
| Cleanup (now : Z).

Definition run_op (o : op) (s : services) : services :=
  match o with
  | Register n i t1 t2 => (register n i t1 t2 s).1
  | Unregister n => (unregister n s).1
  | Discover _ => s
  | UpdateHealth n h t => (updateHealth n h t s).1
  | GetAllServices => s
  | Cleanup t => (cleanup t s).1
  end.

Definition run (ops : list op) (s : services) : services :=
  foldl (fun acc o => run_op o acc) s ops.

(** An operation that can make [name] discoverable again. *)
Definition revives (name : string) (o : op) : bool :=
  match o with
  | Register n _ _ _ => bool_decide (n = name)
  | UpdateHealth n true _ => bool_decide (n = name)
  | _ => false
  end.

(** A call under a name that [Object.prototype] does not define, or without
    a name: such a call writes to no inherited value. *)
Definition ordinary (o : op) : bool :=
  match o with
  | Register n _ _ _ | Unregister n | Discover n | UpdateHealth n _ _ =>
      negb (Js.inherited n)
  | GetAllServices | Cleanup _ => true
  end.

End ServiceRegistry.

(** ** The gateway *)

Module ApiGateway.
Import ServiceRegistry.

(** *** Circuit breakers *)

(** The three values of [state]; the source spells the third
    ['HALF-OPEN']. *)
Inductive cb_state := CLOSED | OPEN | HALF_OPEN.

#[global] Instance cb_state_eq_dec : EqDecision cb_state.
Proof. solve_decision. Defined.

(** One entry of [this.circuitBreakers]. *)
Record breaker := {
  failures : nat;
  state : cb_state;
  lastFailure : Z
}.

Definition set_state (st : cb_state) (b : breaker) : breaker :=
  {| failures := failures b; state := st; lastFailure := lastFailure b |}.

Definition set_failures (n : nat) (b : breaker) : breaker :=
  {| failures := n; state := state b; lastFailure := lastFailure b |}.

Definition set_lastFailure (t : Z) (b : breaker) : breaker :=
  {| failures := failures b; state := state b; lastFailure := t |}.

(** The dictionary the constructor builds. *)
Definition initial_breakers : gmap string breaker :=
  <["user-service" := {| failures := 0; state := CLOSED; lastFailure := 0 |}]>
  (<["item-service" := {| failures := 0; state := CLOSED; lastFailure := 0 |}]>
  (<["list-service" := {| failures := 0; state := CLOSED; lastFailure := 0 |}]> ∅)).

(** The mutable state a handler sees: the gateway's breakers and the
    registry singleton of the process. *)
Record gateway := {
  circuitBreakers : gmap string breaker;
  registry : gmap string ServiceRecord
}.

Definition new_gateway (reg : gmap string ServiceRecord) : gateway :=
  {| circuitBreakers := initial_breakers; registry := reg |}.

Definition with_breakers (cbs : gmap string breaker) (g : gateway) : gateway :=
  {| circuitBreakers := cbs; registry := registry g |}.

Definition with_registry (reg : gmap string ServiceRecord) (g : gateway) : gateway :=
  {| circuitBreakers := circuitBreakers g; registry := reg |}.

(** *** Requests, calls and responses *)

(** An inbound request: [headers] has lower-case keys, as Node delivers
    them; [query_q] is [req.query.q]. *)
Record request := {
  method : string;
  originalUrl : string;
  headers : gmap string string;
  body : string;
  query_q : option string
}.

(** [req.header(name)] for a lower-case [name]. *)
Definition header (req : request) (name : string) : option string :=
  headers req !! name.

(** The [data] of an outbound call. *)
Inductive call_data :=
| NoData
| Body (b : string)
| Token (token : string).

(** An outbound axios call. [target] is not part of the request: it records
    the name under which the address was discovered. *)
Record call := {
  target : string;
  c_method : string;
  c_url : string;
  c_headers : gmap string string;
  c_data : call_data;
  c_timeout : Z
}.

(** What the network does with a call: a reply with a status and a body, or
    no reply (connection refused, timeout, malformed address). *)
Inductive outcome (A : Type) :=
| Reply (status : Z) (data : A)
| NoReply (message : string).
Arguments Reply {A} status data.
Arguments NoReply {A} message.

(** The error axios rejects with. *)
Record axios_error (A : Type) := {
  message : string;
  response : option (Z * A)
}.
Arguments message {A} _.
Arguments response {A} _.

(** axios resolves on a status in [200, 300) and rejects otherwise. *)
Definition axios {A : Type} (o : outcome A) : axios_error A + Z * A :=
  match o with
  | Reply st d =>
      if (200 <=? st)%Z && (st <? 300)%Z then inr (st, d)
      else inl {| message := "Request failed with status code " +:+ pretty st;
                  response := Some (st, d) |}
  | NoReply m => inl {| message := m; response := None |}
  end.

(** The replies of the backends the aggregator reads, by the envelope
    convention: a success flag and the payload. The records hold the fields
    the handlers read, with the types the handlers use them at; a reply of
    another shape, on which a handler would raise a [TypeError], is outside
    the embedding. *)
Record User := {
  id : string;
  username : string;
  firstName : string;
  lastName : string;
  preferences : string
}.

Record Summary := {
  totalItems : Z;
  purchasedItems : Z;
  estimatedTotal : Q
}.

Record ShoppingList := {
  list_id : string;
  name : string;
  list_status : string;
  summary : Summary;
  updatedAt : string
}.

Record validate_reply := { validate_success : bool; validate_user : User }.
Record lists_reply := { lists_success : bool; lists_data : list ShoppingList }.
Record items_reply := { items_success : bool; pagination_total : Z }.
Record search_reply := { search_success : bool; search_data : string }.

(** [data.statistics] of the dashboard. *)
Record Statistics := {
  totalLists : nat;
  activeLists : nat;
  completedLists : nat;
  stat_totalItems : Z;
  totalEstimated : Q
}.

(** One entry of [data.recentLists]. *)
Record RecentList := {
  recent_id : string;
  recent_name : string;
  recent_status : string;
  itemCount : Z;
  purchasedCount : Z;
  recent_estimatedTotal : Q;
  recent_updatedAt : string
}.

Record Dashboard := {
  user : User;
  statistics : Statistics;
  recentLists : list RecentList
}.

(** The [results] object of the search: every key is optional. *)
Record Results := {
  items : option string;
  itemsError : option string;
  lists : option (list ShoppingList);
  listsError : option string
}.

(** One entry of [healthResults]. *)
Inductive health_result :=
| Healthy (data : string)
| Unhealthy (error : string).

(** The bodies the gateway sends: [Relayed] is the body of a downstream
    response passed on; [Failure] is [{success: false, message, error,
    circuitBreaker}] with the last two optional; [DashboardOk] is
    [{success: true, data}]; [SearchOk] is [{success: true, data: results,
    search: {query, timestamp}}]; [HealthReport] is the report of the health
    endpoint. *)
Inductive res_body :=
| Relayed (data : string)
| Failure (msg : string) (error : option string) (circuitBreaker : option string)
| DashboardOk (data : Dashboard)
| SearchOk (data : Results) (query : string) (timestamp : Z)
| HealthReport (timestamp : Z) (results : gmap string health_result)
               (breakers : gmap string breaker).

(** What a handler does with [res]: [res.status(n).json(b)]; [res.json(b)]
    alone sends status 200. *)
Record res := {
  status : Z;
  json : res_body
}.

(** The [success] flag of a body the gateway wrote itself. *)
Definition success_flag (b : res_body) : option bool :=
  match b with
  | Failure _ _ _ => Some false
  | DashboardOk _ => Some true
  | SearchOk _ _ _ => Some true
  | Relayed _ => None
  | HealthReport _ _ _ => None
  end.

(** *** The breaker, as the handlers update it *)

(** Every update of the source sits under [if (this.circuitBreakers[name])],
    which is [alter]: the entry is rewritten when it exists, and nothing
    happens otherwise. *)

(** The proxy handler, after the downstream call resolved. *)
Definition on_success (b : breaker) : breaker :=
  if decide (state b = HALF_OPEN) then set_failures 0 (set_state CLOSED b)
  else b.

(** The [catch] block of the proxy handler. *)
Definition on_error (now : Z) (b : breaker) : breaker :=
  let b1 := set_lastFailure now (set_failures (S (failures b)) b) in
  if (3 <=? failures b1)%nat then set_state OPEN b1
  else if decide (state b1 = HALF_OPEN) then set_state OPEN b1
  else b1.

(** The health endpoint, after a probe that resolved. *)
Definition on_probe_success (b : breaker) : breaker :=
  set_state CLOSED (set_failures 0 b).

(** The health endpoint, after a probe that was rejected. *)
Definition on_probe_error (now : Z) (b : breaker) : breaker :=
  let b1 := set_lastFailure now (set_failures (S (failures b)) b) in
  if (3 <=? failures b1)%nat then set_state OPEN b1 else b1.

(** The check at the head of the proxy handler. The flag tells whether the
    call may go on; [now] is read only when the breaker is open. *)
Definition breaker_gate (serviceName : string) (now : Z)
    (cbs : gmap string breaker) : gmap string breaker * bool :=
  match cbs !! serviceName with
  | Some b =>
      if decide (state b = OPEN) then
        let timeSinceLastFailure := now - lastFailure b in
        if (30000 <? timeSinceLastFailure)%Z
        then (alter (set_state HALF_OPEN) serviceName cbs, true)
        else (cbs, false)
      else (cbs, true)
  | None => (cbs, true)
  end.

Definition breaker_success (serviceName : string)
    (cbs : gmap string breaker) : gmap string breaker :=
  alter on_success serviceName cbs.

Definition breaker_failure (serviceName : string) (now : Z)
    (cbs : gmap string breaker) : gmap string breaker :=
  alter (on_error now) serviceName cbs.

Definition probe_success (serviceName : string)
    (cbs : gmap string breaker) : gmap string breaker :=
  alter on_probe_success serviceName cbs.

Definition probe_failure (serviceName : string) (now : Z)
    (cbs : gmap string breaker) : gmap string breaker :=
  alter (on_probe_error now) serviceName cbs.

(** *** Routing *)

(** The four [app.use(prefix, this.proxyToService(name))] of [setupRoutes],
    in their order. *)
Definition proxy_routes : list (string * string) :=
  [ ("/api/auth", "user-service");
    ("/api/users", "user-service");
    ("/api/items", "item-service");
    ("/api/lists", "list-service") ].

(** The path of a request: its URL up to the query string. *)
Definition path_of (u : string) : string := Js.split_head u "?".

(** Express mounts a handler on a prefix: the path, compared without regard
    to case, starts with the prefix and goes on with a slash or ends. *)
Definition mounted_at (prefix path : string) : bool :=
  let p := Js.toLowerCase path in
  String.prefix prefix p &&
  match Js.drop (String.length prefix) p with
  | EmptyString => true
  | String c _ => Ascii.eqb c "/"
  end.

(** The prefix a request is proxied under and the service it goes to. *)
Definition route (req : request) : option (string * string) :=
  List.find (fun e => mounted_at e.1 (path_of (originalUrl req))) proxy_routes.

(** What is left of a URL when the prefix it was matched under is taken
    off its head. *)
Definition strip_prefix (prefix u : string) : string :=
  Js.drop (String.length prefix) u.

(** *** Handlers *)

Section Handlers.

(** [new URL(u).host]; [None] when the constructor throws. *)
Variable URL_host : string -> option string.

Definition unavailable (m : string) (e cb : option string) : res :=
  {| status := 503; json := Failure m e cb |}.

(** [targetUrl] of the proxy handler. *)
Definition targetUrl (serviceName : string) (service : ServiceRecord)
    (req : request) : string :=
  url (info service) +:+
  Js.replace (originalUrl req) ("/api/" +:+ Js.split_head serviceName "-") "".

(** The argument of the [axios(...)] of the proxy handler. *)
Definition forwarded (serviceName : string) (service : ServiceRecord)
    (req : request) (host : string) : call :=
  {| target := serviceName;
     c_method := method req;
     c_url := targetUrl serviceName service req;
     c_headers := <["host" := host]> (headers req);
     c_data := Body (body req);
     c_timeout := 10000 |}.

(** The handler [proxyToService(serviceName)] returns, run on one request.
    [t_gate] is the clock read at the breaker check, [net] what the network
    does with the forwarded call, [t_catch] the clock read in the [catch]
    block. *)
Definition proxyToService (serviceName : string) (req : request) (t_gate : Z)
    (net : outcome string) (t_catch : Z) (g : gateway)
    : gateway * res * list call :=
  let '(cbs, pass) := breaker_gate serviceName t_gate (circuitBreakers g) in
  if negb pass then
    (g, unavailable ("Serviço " +:+ serviceName +:+ " temporariamente indisponível")
                    None (Some "OPEN"), [])
  else
    match discover serviceName (registry g) with
    | None =>
        (with_breakers cbs g,
         unavailable ("Serviço " +:+ serviceName +:+ " não encontrado") None None,
         [])
    | Some service =>
        let '(settled, calls) :=
          match URL_host (url (info service)) with
          | None => (inl {| message := "Invalid URL"; response := None |}, [])
          | Some host =>
              (axios net, [forwarded serviceName service req host])
          end in
        match settled with
        | inr (st, data) =>
            (with_breakers (breaker_success serviceName cbs) g,
             {| status := st; json := Relayed data |}, calls)
        | inl error =>
            let cbs' := breaker_failure serviceName t_catch cbs in
            match response error with
            | Some (st, data) =>
                (with_breakers cbs' g, {| status := st; json := Relayed data |},
                 calls)
            | None =>
                (with_breakers cbs' g,
                 unavailable ("Serviço " +:+ serviceName +:+ " indisponível")
                             (Some (message error)) None,
                 calls)
            end
        end
    end.

(** One turn of the loop of [healthCheck]: [probe] is what the network does
    with the GET of the service's health address, [clock] the clock read in
    the [catch] of that turn. The pair is the breakers and [healthResults]. *)
Definition healthCheck_step (probe : string -> outcome string) (clock : string -> Z)
    (acc : gmap string breaker * gmap string health_result)
    (entry : string * ServiceRecord)
    : gmap string breaker * gmap string health_result :=
  let serviceName := entry.1 in
  match axios (probe serviceName) with
  | inr (_, data) =>
      (probe_success serviceName acc.1, <[serviceName := Healthy data]> acc.2)
  | inl error =>
      (probe_failure serviceName (clock serviceName) acc.1,
       <[serviceName := Unhealthy (message error)]> acc.2)
  end.

(** [healthCheck(req, res)]. A turn of the loop writes under the name of its
    own entry only, so the order in which the entries are visited does not
    show in the result. *)
Definition healthCheck (probe : string -> outcome string) (clock : string -> Z)
    (t_res : Z) (g : gateway) : gateway * res :=
  let services := getAllServices (registry g) in
  let '(cbs, healthResults) :=
    foldl (healthCheck_step probe clock) (circuitBreakers g, ∅)
          (map_to_list services) in
  (with_breakers cbs g,
   {| status := 200; json := HealthReport t_res healthResults cbs |}).

(** One cycle of the timer of [startHealthChecks]. *)
Definition healthCycle_step (probe : string -> outcome string) (clock : string -> Z)
    (reg : gmap string ServiceRecord) (entry : string * ServiceRecord)
    : gmap string ServiceRecord :=
  let serviceName := entry.1 in
  match axios (probe serviceName) with
  | inr _ => (updateHealth serviceName true (clock serviceName) reg).1
  | inl _ => (updateHealth serviceName false (clock serviceName) reg).1
  end.

Definition healthCycle (probe : string -> outcome string) (clock : string -> Z)
    (g : gateway) : gateway :=
  with_registry
    (foldl (healthCycle_step probe clock) (registry g)
           (map_to_list (getAllServices (registry g)))) g.

End Handlers.

(** *** The aggregator *)

(** A handler body inside [try]: it logs the calls it dispatches and either
    throws an error, of which the handlers read the message only, or yields
    a value. *)
Definition io (A : Type) : Type := list call -> (string + A) * list call.

Definition ret {A : Type} (a : A) : io A := fun log => (inr a, log).

Definition throw {A : Type} (m : string) : io A := fun log => (inl m, log).

Definition bind {A B : Type} (m : io A) (k : A -> io B) : io B :=
  fun log =>
    match m log with
    | (inl e, log') => (inl e, log')
    | (inr a, log') => k a log'
    end.

(** [try { m } catch (error) { h error.message }] *)
Definition try_catch {A : Type} (m : io A) (h : string -> io A) : io A :=
  fun log =>
    match m log with
    | (inl e, log') => h e log'
    | (inr a, log') => (inr a, log')
    end.

(** [await axios(c)], the network answering with [o]. *)
Definition await {A : Type} (c : call) (o : outcome A) : io (Z * A) :=
  fun log =>
    (match axios o with
     | inl error => inl (message error)
     | inr r => inr r
     end, (log ++ [c])%list).

(** [service.url] on what [discover] returned: reading a property of
    [null] throws a [TypeError]. *)
Definition url_of (service : option ServiceRecord) : io string :=
  match service with
  | Some r => ret (url (info r))
  | None => throw "Cannot read properties of null (reading 'url')"
  end.

Notation "'let*' x ':=' m 'in' k" := (bind m (fun x => k))
  (at level 10, x name, m at level 100, k at level 200).

(** The [Authorization] header when it starts with the bearer prefix. *)
Definition bearer (req : request) : option string :=
  match header req "authorization" with
  | Some authHeader =>
      if Js.startsWith authHeader "Bearer " then Some authHeader else None
  | None => None
  end.

(** [parseFloat(x.toFixed(2))], on exact rationals in place of doubles:
    the nearest multiple of one hundredth, a tie going away from zero. *)
Definition toFixed2 (x : Q) : Q :=
  if Qle_bool 0 x then Qmake (Qfloor (x * 100 + (1 # 2))%Q) 100
  else Qopp (Qmake (Qfloor (- x * 100 + (1 # 2))%Q) 100).

Definition recent (l : ShoppingList) : RecentList :=
  {| recent_id := list_id l;
     recent_name := name l;
     recent_status := list_status l;
     itemCount := totalItems (summary l);
     purchasedCount := purchasedItems (summary l);
     recent_estimatedTotal := estimatedTotal (summary l);
     recent_updatedAt := updatedAt l |}.

(** The [data] of the dashboard, from what was fetched. *)
Definition dashboard_data (u : User) (lists : list ShoppingList) (totalItems : Z)
    : Dashboard :=
  let activeLists :=
    length (filter (fun l => String.eqb (list_status l) "active" = true) lists) in
  let completedLists :=
    length (filter (fun l => String.eqb (list_status l) "completed" = true) lists) in
  let totalEstimated :=
    fold_left (fun sum l => (sum + estimatedTotal (summary l))%Q) lists 0%Q in
  {| user := u;
     statistics := {| totalLists := length lists;
                      activeLists := activeLists;
                      completedLists := completedLists;
                      stat_totalItems := totalItems;
                      totalEstimated := toFixed2 totalEstimated |};
     recentLists := List.map recent (take 5 lists) |}.

Definition get (targetName u : string) (hs : gmap string string) : call :=
  {| target := targetName; c_method := "GET"; c_url := u;
     c_headers := hs; c_data := NoData; c_timeout := 5000 |}.

(** [getDashboard(req, res)]: the three outcomes are what the network does
    with the validation call, the lists call and the items call. *)
Definition getDashboard (req : request) (net_validate : outcome validate_reply)
    (net_lists : outcome lists_reply) (net_items : outcome items_reply)
    (g : gateway) : res * list call :=
  let attempt : io res :=
    match bearer req with
    | None => ret {| status := 401; json := Failure "Token obrigatório" None None |}
    | Some authHeader =>
        let token := Js.replace authHeader "Bearer " "" in
        let userService := discover "user-service" (registry g) in
        let* userUrl := url_of userService in
        let* userResponse := await {| target := "user-service"; c_method := "POST";
                                 c_url := userUrl +:+ "/auth/validate";
                                 c_headers := ∅; c_data := Token token;
                                 c_timeout := 5000 |} net_validate in
        if negb (validate_success userResponse.2) then
          ret {| status := 401; json := Failure "Token inválido" None None |}
        else
          let user := validate_user userResponse.2 in
          let listService := discover "list-service" (registry g) in
          let* listUrl := url_of listService in
          let* listsResponse := await (get "list-service" (listUrl +:+ "/lists")
                                   {[ "Authorization" := "Bearer " +:+ token ]})
                                 net_lists in
          let lists := if lists_success listsResponse.2
                       then lists_data listsResponse.2 else [] in
          let itemService := discover "item-service" (registry g) in
          let* itemUrl := url_of itemService in
          let* itemsResponse := await (get "item-service"
                                      (itemUrl +:+ "/items?active=true&limit=1") ∅)
                                 net_items in
          let totalItems := if items_success itemsResponse.2
                            then pagination_total itemsResponse.2 else 0 in
          ret {| status := 200;
                 json := DashboardOk (dashboard_data user lists totalItems) |}
    end in
  match attempt [] with
  | (inr r, log) => (r, log)
  | (inl m, log) =>
      ({| status := 500;
          json := Failure "Erro ao carregar dashboard" (Some m) None |}, log)
  end.

(** [encodeURIComponent], on the bytes of the UTF-8 text. *)
Definition hex_digit (n : nat) : ascii :=
  match n with
  | 0 => "0" | 1 => "1" | 2 => "2" | 3 => "3" | 4 => "4" | 5 => "5"
  | 6 => "6" | 7 => "7" | 8 => "8" | 9 => "9" | 10 => "A" | 11 => "B"
  | 12 => "C" | 13 => "D" | 14 => "E" | _ => "F"
  end%nat%char.

Definition unreserved (c : ascii) : bool :=
  let n := nat_of_ascii c in
  ((65 <=? n) && (n <=? 90) || (97 <=? n) && (n <=? 122) ||
   (48 <=? n) && (n <=? 57))%nat ||
  Js.includes "-_.!~*'()" (String c EmptyString).

Fixpoint encodeURIComponent (s : string) : string :=
  match s with
  | EmptyString => EmptyString
  | String c s' =>
      if unreserved c then String c (encodeURIComponent s')
      else let n := nat_of_ascii c in
           String "%" (String (hex_digit (n / 16)) (String (hex_digit (n mod 16))
             (encodeURIComponent s')))
  end.

Definition no_results : Results :=
  {| items := None; itemsError := None; lists := None; listsError := None |}.

Definition set_items (v : string) (r : Results) : Results :=
  {| items := Some v; itemsError := itemsError r;
     lists := lists r; listsError := listsError r |}.

Definition set_itemsError (m : string) (r : Results) : Results :=
  {| items := items r; itemsError := Some m;
     lists := lists r; listsError := listsError r |}.

Definition set_lists (v : list ShoppingList) (r : Results) : Results :=
  {| items := items r; itemsError := itemsError r;
     lists := Some v; listsError := listsError r |}.

Definition set_listsError (m : string) (r : Results) : Results :=
  {| items := items r; itemsError := itemsError r;
     lists := lists r; listsError := Some m |}.

(** [globalSearch(req, res)]: [toLowerCase] is
    [String.prototype.toLowerCase]; the two outcomes are what the network
    does with the item search and with the lists call; [t_res] is the clock
    read for the response. *)
Definition globalSearch (toLowerCase : string -> string)
    (req : request) (net_search : outcome search_reply)
    (net_lists : outcome lists_reply) (t_res : Z) (g : gateway)
    : res * list call :=
  let missing :=
    ({| status := 400;
        json := Failure "Parâmetro de busca (q) é obrigatório" None None |}, []) in
  match query_q req with
  | None => missing
  | Some EmptyString => missing
  | Some q =>
      let attempt : io res :=
        let* results1 :=
          try_catch
            (let itemService := discover "item-service" (registry g) in
             let* itemUrl := url_of itemService in
             let* response := await (get "item-service"
                                    (itemUrl +:+ "/search?q=" +:+
                                     encodeURIComponent q +:+ "&limit=10") ∅)
                               net_search in
             ret (if search_success response.2
                  then set_items (search_data response.2) no_results
                  else no_results))
            (fun m => ret (set_itemsError m no_results)) in
        let* results2 :=
          match bearer req with
          | Some authHeader =>
              try_catch
                (let token := Js.replace authHeader "Bearer " "" in
                 let listService := discover "list-service" (registry g) in
                 let* listUrl := url_of listService in
                 let* response := await (get "list-service" (listUrl +:+ "/lists")
                                     {[ "Authorization" := "Bearer " +:+ token ]})
                                   net_lists in
                 ret (if lists_success response.2
                      then set_lists
                             (take 5 (filter
                                (fun l => Js.includes (toLowerCase (name l))
                                                      (toLowerCase q) = true)
                                (lists_data response.2)))
                             results1
                      else results1))
                (fun m => ret (set_listsError m results1))
          | None => ret results1
          end in
        ret {| status := 200; json := SearchOk results2 q t_res |} in
      match attempt [] with
      | (inr r, log) => (r, log)
      | (inl m, log) =>
          ({| status := 500;
              json := Failure "Erro na busca global" (Some m) None |}, log)
      end
  end.

(** *** Sequences of gateway operations *)

(** What can happen to a running gateway: a request under a proxied prefix,
    a request to the health endpoint, a cycle of the health timer, a turn of
    the registry's clean-up timer, a dashboard request, a search request.
    Each carries the clock readings and the network outcomes of its run. *)
Inductive op :=
| Proxy (serviceName : string) (req : request) (t_gate : Z)
        (net : outcome string) (t_catch : Z)
| HealthCheck (probe : string -> outcome string) (clock : string -> Z) (t_res : Z)
| HealthCycle (probe : string -> outcome string) (clock : string -> Z)
| CleanupTick (now : Z)
| GetDashboard (req : request) (net_validate : outcome validate_reply)
               (net_lists : outcome lists_reply) (net_items : outcome items_reply)
| GlobalSearch (req : request) (net_search : outcome search_reply)
               (net_lists : outcome lists_reply) (t_res : Z).

Definition run_op (URL_host : string -> option string) (o : op) (g : gateway)
    : gateway :=
  match o with
  | Proxy n req t1 net t2 => (proxyToService URL_host n req t1 net t2 g).1.1
  | HealthCheck probe clock t => (healthCheck probe clock t g).1
  | HealthCycle probe clock => healthCycle probe clock g
  | CleanupTick now => with_registry (cleanup now (registry g)).1 g
  | GetDashboard _ _ _ _ => g
  | GlobalSearch _ _ _ _ => g
  end.

Definition run (URL_host : string -> option string) (ops : list op) (g : gateway)
    : gateway :=
  foldl (fun acc o => run_op URL_host o acc) g ops.

(** The breaker as the check at the head of the proxy handler leaves it
    when the call goes on. *)
Definition after_gate (b : breaker) : breaker :=
  if decide (state b = OPEN) then set_state HALF_OPEN b else b.

(** The open breaker still inside its 30 s. *)
Definition cooling (now : Z) (b : breaker) : Prop :=
  state b = OPEN /\ now - lastFailure b <= 30000.

(** The breaker after a proxied call whose downstream attempt, if it is
    made, fails. *)
Definition failed_call (t_gate t_catch : Z) (b : breaker) : breaker :=
  if decide (state b = OPEN /\ t_gate - lastFailure b <= 30000) then b
  else on_error t_catch (after_gate b).

(** What one turn of the health endpoint's loop does to the breaker of the
    probed service. *)
Definition probed (probe : string -> outcome string) (clock : string -> Z)
    (serviceName : string) (b : breaker) : breaker :=
  match axios (probe serviceName) with
  | inr _ => on_probe_success b
  | inl _ => on_probe_error (clock serviceName) b
  end.

(** The breaker of [serviceName] in a gateway state. *)
Definition breaker_of (serviceName : string) (g : gateway) : option breaker :=
  circuitBreakers g !! serviceName.

(** A downstream call that failed: axios rejected. *)
Definition rejected {A : Type} (o : outcome A) : Prop :=
  exists error, axios o = inl error.

(** A downstream call that succeeded: axios resolved. *)
Definition resolved {A : Type} (o : outcome A) : Prop :=
  exists r, axios o = inr r.

(** *** Handlers between their awaits *)

(** The stretches of the handlers that touch a breaker, each run without
    interruption: the head of the proxy handler, up to its response or its
    dispatch; the proxy handler after its call resolved; its [catch] block;
    a turn of the health endpoint's loop after its probe resolved; the
    [catch] of such a turn. *)
Inductive segment :=
| Arrived (serviceName : string) (now : Z)
| CallResolved (serviceName : string)
| CallRejected (serviceName : string) (now : Z)
| ProbeResolved (serviceName : string)
| ProbeRejected (serviceName : string) (now : Z).

Definition segment_step (cbs : gmap string breaker) (s : segment)
    : gmap string breaker :=
  match s with
  | Arrived n now => (breaker_gate n now cbs).1
  | CallResolved n => breaker_success n cbs
  | CallRejected n now => breaker_failure n now cbs
  | ProbeResolved n => probe_success n cbs
  | ProbeRejected n now => probe_failure n now cbs
  end.

(** The segments of one run of the proxy handler. *)
Definition proxy_segments (URL_host : string -> option string)
    (serviceName : string) (t_gate : Z) (net : outcome string) (t_catch : Z)
    (g : gateway) : list segment :=
  Arrived serviceName t_gate ::
  if (breaker_gate serviceName t_gate (circuitBreakers g)).2 then
    match discover serviceName (registry g) with
    | None => []
    | Some service =>
        match URL_host (url (info service)) with
        | None => [CallRejected serviceName t_catch]
        | Some _ =>
            match axios net with
            | inr _ => [CallResolved serviceName]
            | inl _ => [CallRejected serviceName t_catch]
            end
        end
    end
  else [].

(** *** Statements of the specification, in its words

    The sentences below are written as the specification has them; whether
    the handlers meet them is settled with the properties. *)

(** The counter of a breaker is reset to zero between two states. *)
Definition counter_reset (b b' : breaker) : Prop :=
  failures b <> 0%nat /\ failures b' = 0%nat.

(** The state of a breaker moves to CLOSED between two states. *)
Definition enters_closed (b b' : breaker) : Prop :=
  state b <> CLOSED /\ state b' = CLOSED.

(** "Counter is reset to zero exactly when state transitions to CLOSED",
    over every sequence of operations of a gateway started on a registry. *)
Definition reset_exactly_on_closing (URL_host : string -> option string) : Prop :=
  forall reg ops o serviceName b b',
    let g := run URL_host ops (new_gateway reg) in
    breaker_of serviceName g = Some b ->
    breaker_of serviceName (run_op URL_host o g) = Some b' ->
    (counter_reset b b' <-> enters_closed b b').

(** "On a downstream HTTP error response, relay the status code and body
    verbatim", and "record a breaker failure" on a network failure or
    timeout only: the relayed error leaves the counter and the time of the
    last failure as they were. *)
Definition http_error_relayed_uncounted (URL_host : string -> option string)
    : Prop :=
  forall serviceName req t_gate t_catch g b service host st data,
    breaker_of serviceName g = Some b -> ~ cooling t_gate b ->
    discover serviceName (registry g) = Some service ->
    URL_host (url (info service)) = Some host ->
    ~ (200 <= st < 300) ->
    let r := proxyToService URL_host serviceName req t_gate (Reply st data)
                            t_catch g in
    r.1.2 = {| status := st; json := Relayed data |} /\
    exists b', breaker_of serviceName r.1.1 = Some b' /\
               failures b' = failures b /\ lastFailure b' = lastFailure b.

(** The error a fetch of the aggregator ends with, if it does: the
    [TypeError] of reading the address of an undiscovered service, or the
    message axios rejected with. *)
Definition fetch_error {A : Type} (serviceName : string) (o : outcome A)
    (g : gateway) : option string :=
  match discover serviceName (registry g) with
  | None => Some "Cannot read properties of null (reading 'url')"
  | Some _ =>
      match axios o with
      | inl error => Some (message error)
      | inr _ => None
      end
  end.

(** The results of a search after its first part: the item search. *)
Definition item_results (net_search : outcome search_reply) (g : gateway) : Results :=
  match fetch_error "item-service" net_search g with
  | Some detail => set_itemsError detail no_results
  | None =>
      match axios net_search with
      | inr (_, v) => if search_success v
                      then set_items (search_data v) no_results else no_results
      | inl _ => no_results
      end
  end.

(** The results of a search after its second part: the lists of the
    caller, when the request carries a credential. *)
Definition list_results (toLowerCase : string -> string) (req : request)
    (q : string) (net_lists : outcome lists_reply)
    (g : gateway) (results1 : Results) : Results :=
  match bearer req with
  | None => results1
  | Some _ =>
      match fetch_error "list-service" net_lists g with
      | Some detail => set_listsError detail results1
      | None =>
          match axios net_lists with
          | inr (_, ls) =>
              if lists_success ls
              then set_lists
                     (take 5 (filter
                        (fun l => Js.includes (toLowerCase (name l))
                                              (toLowerCase q) = true)
                        (lists_data ls))) results1
              else results1
          | inl _ => results1
          end
      end
  end.

(** A fetch of the aggregator failed. *)
Definition fetch_failed {A : Type} (serviceName : string) (o : outcome A)
    (g : gateway) : Prop :=
  discover serviceName (registry g) = None \/ rejected o.

(** A section of an aggregate is the backend's own: its reply resolved and
    carries the success flag. *)
Definition delivered {A : Type} (success : A -> bool) (o : outcome A) : Prop :=
  exists st v, axios o = inr (st, v) /\ success v = true.

(** The request carries a bearer credential that the user service
    validated. *)
Definition credential_ok (req : request) (net_validate : outcome validate_reply)
    (g : gateway) : Prop :=
  exists authHeader service st v,
    bearer req = Some authHeader /\
    discover "user-service" (registry g) = Some service /\
    axios net_validate = inr (st, v) /\ validate_success v = true.

(** The 500 of the dashboard. *)
Definition dashboard_error (detail : string) : res :=
  {| status := 500;
     json := Failure "Erro ao carregar dashboard" (Some detail) None |}.

(** "If either call fails, the whole endpoint fails with a generic server
    error embedding the failure detail; no partial dashboard is ever
    returned": a dashboard that is returned has both sections delivered by
    their backends, none defaulted. *)
Definition dashboard_all_or_nothing : Prop :=
  forall req net_validate net_lists net_items g,
    credential_ok req net_validate g ->
    let r := getDashboard req net_validate net_lists net_items g in
    (fetch_failed "list-service" net_lists g \/
     fetch_failed "item-service" net_items g ->
     exists detail, r.1 = dashboard_error detail) /\
    (forall d, json r.1 = DashboardOk d ->
       delivered lists_success net_lists /\ delivered items_success net_items).

(** "Discovery miss: target absent or unhealthy, 503, no call attempted",
    on the proxy path and on the two aggregator paths alike. *)
Definition discovery_miss_is_503 (URL_host : string -> option string) : Prop :=
  (forall serviceName req t_gate net t_catch g,
     discover serviceName (registry g) = None ->
     let r := proxyToService URL_host serviceName req t_gate net t_catch g in
     status r.1.2 = 503 /\ r.2 = []) /\
  (forall req net_validate net_lists net_items g authHeader,
     bearer req = Some authHeader ->
     discover "user-service" (registry g) = None ->
     let r := getDashboard req net_validate net_lists net_items g in
     status r.1 = 503 /\ r.2 = []) /\
  (forall toLowerCase req net_search net_lists t_res g q,
     query_q req = Some q -> q <> "" ->
     discover "item-service" (registry g) = None ->
     let r := globalSearch toLowerCase req net_search net_lists t_res g in
     status r.1 = 503 /\ r.2 = []).

End ApiGateway.

(** ** A test bench: concrete services, requests and network outcomes *)

Module Bench.
Import ServiceRegistry ApiGateway.

(** A reading of [new URL(u).host] good enough for the addresses below: what
    follows [http://], up to the first slash. *)
Definition host_of (u : string) : option string :=
  if String.prefix "http://" u
  then Some (Js.split_head (Js.drop 7 u) "/")
  else None.

Definition service_at (u : string) (t : Z) (h : bool) : ServiceRecord :=
  {| info := {| url := u; metadata := [] |};
     registeredAt := t; lastHealthCheck := t; healthy := h |}.

Definition three_services : gmap string ServiceRecord :=
  <["user-service" := service_at "http://localhost:3001" 0 true]>
  (<["item-service" := service_at "http://localhost:3002" 0 true]>
  (<["list-service" := service_at "http://localhost:3003" 0 true]> ∅)).

Definition req_of (m u : string) (hs : gmap string string) (q : option string)
    : request :=
  {| method := m; originalUrl := u; headers := hs; body := "{}"; query_q := q |}.

Definition get_item_5 : request :=
  req_of "GET" "/api/items/5" {[ "host" := "localhost:3000" ]} None.

Definition post_login : request :=
  req_of "POST" "/api/auth/login" {[ "host" := "localhost:3000" ]} None.

Definition with_token : gmap string string :=
  {[ "authorization" := "Bearer abc" ]}.

Definition alice : User :=
  {| id := "u1"; username := "alice"; firstName := "Alice";
     lastName := "A"; preferences := "{}" |}.

Definition groceries : ShoppingList :=
  {| list_id := "l1"; name := "Groceries"; list_status := "active";
     summary := {| totalItems := 3; purchasedItems := 1;
                   estimatedTotal := (25 # 2)%Q |};
     updatedAt := "2024-01-01T00:00:00.000Z" |}.

Definition hardware : ShoppingList :=
  {| list_id := "l2"; name := "Hardware"; list_status := "completed";
     summary := {| totalItems := 2; purchasedItems := 2;
                   estimatedTotal := (40 # 1)%Q |};
     updatedAt := "2024-01-02T00:00:00.000Z" |}.

Definition down {A : Type} : outcome A := NoReply "connect ECONNREFUSED".

Definition dashboard_req : request :=
  req_of "GET" "/api/dashboard" with_token None.

Definition search_req (hs : gmap string string) : request :=
  req_of "GET" "/api/search?q=gro" hs (Some "gro").

Definition valid_alice : outcome validate_reply :=
  Reply 200 {| validate_success := true; validate_user := alice |}.

Definition lists_of (ok : bool) (ls : list ShoppingList) : outcome lists_reply :=
  Reply 200 {| lists_success := ok; lists_data := ls |}.

Definition seven_items : outcome items_reply :=
  Reply 200 {| items_success := true; pagination_total := 7 |}.

Definition found (data : string) : outcome search_reply :=
  Reply 200 {| search_success := true; search_data := data |}.

Definition all_up (serviceName : string) : outcome string :=
  Reply 200 "{}".

(** The gateway with the breaker of the item service open since time 31. *)
Definition tripped : gateway :=
  with_breakers
    (<["item-service" := {| failures := 3; state := OPEN; lastFailure := 31 |}]>
       initial_breakers)
    (new_gateway three_services).

End Bench.

(** ** The registry and its file *)

Module RegistryFile.
Import ServiceRegistry.

(** What [service-registry.json] is on disk: no file; a file that
    [readJsonSync] throws on; a file that holds a dictionary of records. A
    file whose JSON is of another shape is outside the embedding. *)
Inductive file :=
| Missing
| Unreadable
| Holds (s : gmap string ServiceRecord).

(** What [writeJsonSync] does: it writes the dictionary, or it throws and
    leaves on disk whatever the failed write left. *)
Inductive write_outcome :=
| WriteOk
| WriteFailed (residue : file).

(** The registry object: [this.services] and the file behind
    [this.registryFile]. *)
Record instance := {
  services_of : gmap string ServiceRecord;
  registryFile : file
}.

(** [saveRegistry()]: the error of a failed write is logged and dropped. *)
Definition saveRegistry (w : write_outcome) (i : instance) : instance :=
  match w with
  | WriteOk => {| services_of := services_of i;
                  registryFile := Holds (services_of i) |}
  | WriteFailed residue =>
      {| services_of := services_of i; registryFile := residue |}
  end.

(** The constructor with [initializeRegistry()], on the file it finds; [w]
    is the outcome of the write it makes when there is no file. *)
Definition initializeRegistry (f : file) (w : write_outcome) : instance :=
  match f with
  | Holds s => {| services_of := s; registryFile := f |}
  | Missing => saveRegistry w {| services_of := ∅; registryFile := Missing |}
  | Unreadable => {| services_of := ∅; registryFile := Unreadable |}
  end.

(** The operations of the registry with the write each makes. *)
Definition register (serviceName : string) (serviceInfo : ServiceInfo)
    (t_reg t_check : Z) (w : write_outcome) (i : instance) : instance * bool :=
  let r := ServiceRegistry.register serviceName serviceInfo t_reg t_check
                                    (services_of i) in
  (saveRegistry w {| services_of := r.1; registryFile := registryFile i |}, r.2).

Definition unregister (serviceName : string) (w : write_outcome) (i : instance)
    : instance * bool :=
  let r := ServiceRegistry.unregister serviceName (services_of i) in
  if r.2
  then (saveRegistry w {| services_of := r.1; registryFile := registryFile i |},
        true)
  else (i, false).

Definition updateHealth (serviceName : string) (isHealthy : bool) (now : Z)
    (w : write_outcome) (i : instance) : instance * bool :=
  let r := ServiceRegistry.updateHealth serviceName isHealthy now (services_of i) in
  if r.2
  then (saveRegistry w {| services_of := r.1; registryFile := registryFile i |},
        true)
  else (i, false).

Definition cleanup (now : Z) (w : write_outcome) (i : instance) : instance * bool :=
  let r := ServiceRegistry.cleanup now (services_of i) in
  if r.2
  then (saveRegistry w {| services_of := r.1; registryFile := registryFile i |},
        true)
  else (i, false).

(** A call on the registry object, with the outcome of the write it would
    make. *)
Inductive op :=
| Register (name : string) (i : ServiceInfo) (t_reg t_check : Z) (w : write_outcome)
| Unregister (name : string) (w : write_outcome)
| UpdateHealth (name : string) (isHealthy : bool) (now : Z) (w : write_outcome)
| Cleanup (now : Z) (w : write_outcome).

Definition run_op (o : op) (i : instance) : instance :=
  match o with
  | Register n info t1 t2 w => (register n info t1 t2 w i).1
  | Unregister n w => (unregister n w i).1
  | UpdateHealth n h t w => (updateHealth n h t w i).1
  | Cleanup t w => (cleanup t w i).1
  end.

Definition run (ops : list op) (i : instance) : instance :=
  foldl (fun acc o => run_op o acc) i ops.

(** The same call with the file left out. *)
Definition forget (o : op) : ServiceRegistry.op :=
  match o with
  | Register n info t1 t2 _ => ServiceRegistry.Register n info t1 t2
  | Unregister n _ => ServiceRegistry.Unregister n
  | UpdateHealth n h t _ => ServiceRegistry.UpdateHealth n h t
  | Cleanup t _ => ServiceRegistry.Cleanup t
  end.

(** The write of the call succeeds, if it makes one. *)
Definition writes_ok (o : op) : Prop :=
  match o with
  | Register _ _ _ _ w | Unregister _ w | UpdateHealth _ _ _ w | Cleanup _ w =>
      w = WriteOk
  end.

(** A call under a name that [Object.prototype] does not define, or without
    a name. *)
Definition ordinary (o : op) : bool := ServiceRegistry.ordinary (forget o).

(** The file would give a restarted registry the dictionary in memory. *)
Definition in_step (i : instance) : Prop :=
  match registryFile i with
  | Holds s => s = services_of i
  | Missing | Unreadable => services_of i = ∅
  end.

End RegistryFile.

(** ** The record store *)

Module JsonDatabase.

(** A value of a JSON file, as [JSON.parse] makes it. An object is the
    list of its entries, with distinct keys, in the order [Object.entries]
    gives them; an object with array-index keys, which are listed first
    whatever the order of insertion, is outside the embedding where that
    order shows. The numbers are those JSON carries. *)
Inductive json (num : Type) : Type :=
| Null
| Bool (b : bool)
| Num (n : num)
| Str (s : string)
| Arr (elements : list (json num))
| Obj (entries : list (string * json num)).
Arguments Null {num}.
Arguments Bool {num} b.
Arguments Num {num} n.
Arguments Str {num} s.
Arguments Arr {num} elements.
Arguments Obj {num} entries.

(** What the store takes from the language, on values that are a JSON value
    or, for [None], [undefined]: the strict equality of two numbers and the
    truthiness of a number, the comparisons [a < b] and [a <= b] with their
    coercions, the test of a regular expression built from a pattern and
    its flags ([None] when the constructor throws), and
    [Array.prototype.sort] with a comparator. *)
Record platform (num : Type) := {
  num_eq : num -> num -> bool;
  num_truthy : num -> bool;
  lt : option (json num) -> option (json num) -> bool;
  le : option (json num) -> option (json num) -> bool;
  RegExp_test : option (json num) -> option (json num) -> option (json num) ->
                option bool;
  Array_sort : (list (string * json num) -> list (string * json num) -> Z) ->
               list (list (string * json num)) -> list (list (string * json num))
}.
Arguments num_eq {num} _.
Arguments num_truthy {num} _.
Arguments lt {num} _.
Arguments le {num} _.
Arguments RegExp_test {num} _.
Arguments Array_sort {num} _.

(** What a method throws. [Other] is a [TypeError] or [SyntaxError] of the
    language, or the outcome on an operand of a shape the embedding does
    not follow (a condition of [$or] that is no object, an [$in] that is
    no array). *)
Inductive thrown :=
| ItemNotFound
| ReadError
| WriteError
| Other.

Section Engine.

Context {num : Type} (js : platform num).

(** A value of the program: a JSON value, or [undefined]. *)
Definition value : Type := option (json num).

(** A record of a collection, the [updates] of [update], a condition: an
    object, by its entries. *)
Definition item : Type := list (string * json num).

(** A query: an object of the caller, whose entries may hold [undefined],
    as [{ id }] does when [id] is. *)
Definition query : Type := list (string * value).

(** What a method gives: the error it throws, or its value. *)
Definition result (A : Type) : Type := (thrown + A)%type.

(** [o[k]] on the entries of an object; a key that names a property of
    [Object.prototype] is outside the embedding. *)
Fixpoint get (k : string) (o : item) : value :=
  match o with
  | [] => None
  | (k', v) :: o' => if String.eqb k' k then Some v else get k o'
  end.

Definition has (k : string) (o : item) : bool :=
  match get k o with
  | Some _ => true
  | None => false
  end.

(** [{...a, ...b}] *)
Definition spread (a b : item) : item :=
  (List.map (fun e => (e.1, match get e.1 b with Some v => v | None => e.2 end)) a ++
   List.filter (fun e => negb (has e.1 a)) b)%list.

(** [a === b]. Two objects or arrays are the same only when they are one
    object; a value read from the file and a value of the caller never
    are. *)
Definition strict_eq (a b : value) : bool :=
  match a, b with
  | None, None => true
  | Some Null, Some Null => true
  | Some (Bool x), Some (Bool y) => Bool.eqb x y
  | Some (Num x), Some (Num y) => num_eq js x y
  | Some (Str x), Some (Str y) => String.eqb x y
  | _, _ => false
  end.

Definition truthy (v : value) : bool :=
  match v with
  | None | Some Null => false
  | Some (Bool b) => b
  | Some (Num n) => num_truthy js n
  | Some (Str s) => negb (String.eqb s "")
  | Some (Arr _) | Some (Obj _) => true
  end.

(** [typeof v === 'object' && v !== null] *)
Definition is_object (v : value) : bool :=
  match v with
  | Some (Arr _) | Some (Obj _) => true
  | _ => false
  end.

(** [v.k] for an operator name [k] on an object or an array. *)
Definition prop (v : value) (k : string) : value :=
  match v with
  | Some (Obj entries) => get k entries
  | _ => None
  end.

(** [v !== undefined] *)
Definition defined (v : value) : bool :=
  match v with
  | None => false
  | Some _ => true
  end.

(** [a.includes(x)] on an array: on the numbers JSON carries its
    comparison is the strict equality. *)
Definition includes (a x : value) : result bool :=
  match a with
  | Some (Arr elements) => inr (existsb (fun e => strict_eq (Some e) x) elements)
  | _ => inl Other
  end.

(** [matchValue(itemValue, queryValue)] *)
Definition matchValue (itemValue queryValue : value) : result bool :=
  if is_object queryValue then
    if truthy (prop queryValue "$regex") then
      match RegExp_test js (prop queryValue "$regex")
                        (if truthy (prop queryValue "$options")
                         then prop queryValue "$options" else Some (Str ""))
                        itemValue with
      | Some b => inr b
      | None => inl Other
      end
    else if defined (prop queryValue "$gt") then
      inr (lt js (prop queryValue "$gt") itemValue)
    else if defined (prop queryValue "$gte") then
      inr (le js (prop queryValue "$gte") itemValue)
    else if defined (prop queryValue "$lt") then
      inr (lt js itemValue (prop queryValue "$lt"))
    else if defined (prop queryValue "$lte") then
      inr (le js itemValue (prop queryValue "$lte"))
    else if defined (prop queryValue "$ne") then
      inr (negb (strict_eq itemValue (prop queryValue "$ne")))
    else if truthy (prop queryValue "$in") then
      includes (prop queryValue "$in") itemValue
    else if truthy (prop queryValue "$nin") then
      match includes (prop queryValue "$nin") itemValue with
      | inr b => inr (negb b)
      | inl e => inl e
      end
    else inr (strict_eq itemValue queryValue)
  else inr (strict_eq itemValue queryValue).

(** [l.every(f)] and [l.some(f)]: they stop at the first element that
    decides, and an error of [f] before that is thrown. *)
Fixpoint every {A : Type} (f : A -> result bool) (l : list A) : result bool :=
  match l with
  | [] => inr true
  | x :: l' =>
      match f x with
      | inl e => inl e
      | inr false => inr false
      | inr true => every f l'
      end
  end.

Fixpoint some {A : Type} (f : A -> result bool) (l : list A) : result bool :=
  match l with
  | [] => inr false
  | x :: l' =>
      match f x with
      | inl e => inl e
      | inr true => inr true
      | inr false => some f l'
      end
  end.

(** [Object.entries(condition).every(([k, v]) => this.matchValue(item[k], v))] *)
Definition holds (it : item) (condition : value) : result bool :=
  match condition with
  | Some (Obj entries) =>
      every (fun e : string * json num => matchValue (get e.1 it) (Some e.2)) entries
  | _ => inl Other
  end.

(** The callback of [data.filter] in [find]: the loop over the entries of
    the query. *)
Fixpoint matches (it : item) (q : query) : result bool :=
  match q with
  | [] => inr true
  | (key, v) :: rest =>
      if Js.startsWith key "$" then
        if String.eqb key "$or" then
          match v with
          | Some (Arr conditions) => some (fun c => holds it (Some c)) conditions
          | _ => inl Other
          end
        else if String.eqb key "$and" then
          match v with
          | Some (Arr conditions) => every (fun c => holds it (Some c)) conditions
          | _ => inl Other
          end
        else if String.eqb key "$not" then
          match holds it v with
          | inr b => inr (negb b)
          | inl e => inl e
          end
        else inr true
      else
        match matchValue (get key it) v with
        | inl e => inl e
        | inr false => inr false
        | inr true => matches it rest
        end
  end.

(** [data.filter(f)], [f] throwing or not. *)
Fixpoint filter_by (f : item -> result bool) (data : list item)
    : result (list item) :=
  match data with
  | [] => inr []
  | x :: data' =>
      match f x with
      | inl e => inl e
      | inr b =>
          match filter_by f data' with
          | inl e => inl e
          | inr kept => inr (if b then x :: kept else kept)
          end
      end
  end.

(** The [options] of [find]: [sort] is the list of the fields with whether
    the direction is [1]; [skip] and [limit] are counts, zero standing
    for a missing one as well, both being falsy. *)
Record options := {
  sort : option (list (string * bool));
  skip : nat;
  limit : nat
}.

Definition no_options : options := {| sort := None; skip := 0; limit := 0 |}.

(** The comparator of [find]. *)
Fixpoint compare_by (fields : list (string * bool)) (a b : item) : Z :=
  match fields with
  | [] => 0
  | (field, ascending) :: rest =>
      if lt js (get field a) (get field b) then (if ascending then -1 else 1)
      else if lt js (get field b) (get field a) then (if ascending then 1 else -1)
      else compare_by rest a b
  end.

(** The file of a collection: [None] when [readJson] throws on it. *)
Definition file : Type := option (list item).

(** [find(query, options)] *)
Definition find (q : query) (o : options) (f : file) : result (list item) :=
  match f with
  | None => inl ReadError
  | Some data =>
      match (if (0 <? length q)%nat then filter_by (fun it => matches it q) data
             else inr data) with
      | inl e => inl e
      | inr data1 =>
          let data2 := match sort o with
                       | Some fields => Array_sort js (compare_by fields) data1
                       | None => data1
                       end in
          let data3 := if (0 <? skip o)%nat then drop (skip o) data2 else data2 in
          let data4 := if (0 <? limit o)%nat then take (limit o) data3 else data3 in
          inr data4
      end
  end.

(** [findOne(query)]: [None] is the [null] of the source. *)
Definition findOne (q : query) (f : file) : result (option item) :=
  match find q {| sort := None; skip := 0; limit := 1 |} f with
  | inl e => inl e
  | inr results => inr (head results)
  end.

(** [findById(id)] *)
Definition findById (id : value) (f : file) : result (option item) :=
  findOne [("id", id)] f.

(** [count(query)] *)
Definition count (q : query) (f : file) : result nat :=
  match find q no_options f with
  | inl e => inl e
  | inr results => inr (length results)
  end.

(** What [writeJson] does: it writes, or it throws and leaves on disk what
    the failed write left. *)
Inductive write_outcome :=
| WriteOk
| WriteFailed (residue : file).

Definition write {A : Type} (w : write_outcome) (data : list item) (a : A)
    : file * result A :=
  match w with
  | WriteOk => (Some data, inr a)
  | WriteFailed residue => (residue, inl WriteError)
  end.

(** [create(item)] *)
Definition create (it : item) (w : write_outcome) (f : file) : file * result item :=
  match f with
  | None => (f, inl ReadError)
  | Some data => write w (data ++ [it])%list it
  end.

(** [data.findIndex(item => item.id === id)], [None] for [-1]. *)
Fixpoint findIndex (id : value) (data : list item) : option nat :=
  match data with
  | [] => None
  | x :: data' =>
      if strict_eq (get "id" x) id then Some 0%nat
      else option_map S (findIndex id data')
  end.

(** [update(id, updates)] *)
Definition update (id : value) (updates : item) (w : write_outcome) (f : file)
    : file * result item :=
  match f with
  | None => (f, inl ReadError)
  | Some data =>
      match findIndex id data with
      | None => (f, inl ItemNotFound)
      | Some index =>
          match data !! index with
          | Some old =>
              let merged := spread old updates in
              write w (<[index := merged]> data) merged
          | None => (f, inl Other)
          end
      end
  end.

(** [delete(id)] *)
Definition delete (id : value) (w : write_outcome) (f : file)
    : file * result bool :=
  match f with
  | None => (f, inl ReadError)
  | Some data =>
      let filteredData :=
        List.filter (fun x => negb (strict_eq (get "id" x) id)) data in
      if (length filteredData =? length data)%nat then (f, inl ItemNotFound)
      else write w filteredData true
  end.

End Engine.

(** The integers as a platform, for the examples: the comparisons are
    those of two numbers, and nothing else is compared, matched against a
    pattern or sorted there. *)
Definition integers : platform Z := {|
  num_eq := Z.eqb;
  num_truthy := fun n => negb (n =? 0)%Z;
  lt := fun a b => match a, b with
                   | Some (Num x), Some (Num y) => (x <? y)%Z
                   | _, _ => false
                   end;
  le := fun a b => match a, b with
                   | Some (Num x), Some (Num y) => (x <=? y)%Z
                   | _, _ => false
                   end;
  RegExp_test := fun _ _ _ => None;
  Array_sort := fun _ l => l
|}.

(** Whether a verdict is a definite [true]. *)
Definition is_true (r : thrown + bool) : bool :=
  match r with
  | inr true => true
  | _ => false
  end.

End JsonDatabase.

(** ** A shelf of records for the examples of the record store *)

Module Pantry.

Import JsonDatabase.

Definition rice : list (string * json Z) :=
  [("id", Str "a1"); ("name", Str "Rice"); ("price", Num 7)].

Definition beans : list (string * json Z) :=
  [("id", Str "b2"); ("name", Str "Beans"); ("price", Num 9)].

(** A second record under the identifier of the first. *)
Definition brown_rice : list (string * json Z) :=
  [("id", Str "a1"); ("name", Str "Brown rice"); ("price", Num 12)].

Definition shelf : list (list (string * json Z)) := [rice; beans; brown_rice].

(** [{ price: { $gt: 8 } }] *)
Definition dearer_than_8 : list (string * option (json Z)) :=
  [("price", Some (Obj [("$gt", Num 8)]))].

(** [{ name: 'Rice', $text: 'x', price: 1000 }] *)
Definition rice_text_1000 : list (string * option (json Z)) :=
  [("name", Some (Str "Rice")); ("$text", Some (Str "x")); ("price", Some (Num 1000))].

End Pantry.

(** ** Notions for the properties of the gateway *)

Module Notions.
Import ServiceRegistry ApiGateway.

(** A breaker is CLOSED exactly while its counter is below three. *)
Definition closed_below_three (b : breaker) : Prop :=
  state b = CLOSED <-> (failures b < 3)%nat.

(** Every breaker of a dictionary is so. *)
Definition breakers_consistent (cbs : gmap string breaker) : Prop :=
  forall serviceName b, cbs !! serviceName = Some b -> closed_below_three b.

(** Whether axios resolved. *)
Definition axios_ok {A : Type} (o : outcome A) : bool :=
  match axios o with
  | inr _ => true
  | inl _ => false
  end.


(** The record of a service after a cycle of the health timer. *)
Definition checked (isHealthy : bool) (now : Z) (r : ServiceRecord)
    : ServiceRecord :=
  {| info := info r; registeredAt := registeredAt r;
     lastHealthCheck := now; healthy := isHealthy |}.

(** What a segment does to the breakers, entry by entry. *)
Definition segment_on (s : segment) (name : string) (b : breaker) : breaker :=
  match s with
  | Arrived n now =>
      if decide (n = name) then
        (if decide (state b = OPEN /\ 30000 < now - lastFailure b)
         then set_state HALF_OPEN b else b)
      else b
  | CallResolved n => if decide (n = name) then on_success b else b
  | CallRejected n now => if decide (n = name) then on_error now b else b
  | ProbeResolved n => if decide (n = name) then on_probe_success b else b
  | ProbeRejected n now => if decide (n = name) then on_probe_error now b else b
  end.

(** The loop of the health endpoint is a run of probe segments. *)
Definition probe_segment (probe : string -> outcome string) (clock : string -> Z)
    (entry : string * ServiceRecord) : segment :=
  if axios_ok (probe entry.1) then ProbeResolved entry.1
  else ProbeRejected entry.1 (clock entry.1).

(** The bytes [encodeURIComponent] can put out: the unreserved ones and the
    percent sign. *)
Definition url_safe (c : ascii) : Prop :=
  unreserved c = true \/ c = "%"%char.

(** [t] stands somewhere in [s]. *)
Definition occurs (t s : string) : Prop :=
  exists before after, s = before +:+ t +:+ after.

(** The match of the list search: the lowered name holds the lowered
    query. *)
Definition name_matches (toLowerCase : string -> string) (q : string)
    (l : ShoppingList) : Prop :=
  occurs (toLowerCase q) (toLowerCase (name l)).

End Notions.

(** * Properties *)

Import ServiceRegistry ApiGateway.

(** ** The string functions on the inputs of the gateway *)

Example replace_first_only :
  Js.replace "/api/items/api/item" "/api/item" "" = "s/api/item".
Proof. reflexivity. Qed.

Example replace_absent : Js.replace "/api/auth/login" "/api/user" "" = "/api/auth/login".
Proof. reflexivity. Qed.

Example replace_bearer : Js.replace "Bearer abc" "Bearer " "" = "abc".
Proof. reflexivity. Qed.

Example split_head_service : Js.split_head "item-service" "-" = "item".
Proof. reflexivity. Qed.

Example includes_lower :
  Js.includes (Js.toLowerCase "Weekly GROceries") (Js.toLowerCase "Gro") = true.
Proof. reflexivity. Qed.

Example encodeURIComponent_reserved : encodeURIComponent "a b&c/d" = "a%20b%26c%2Fd".
Proof. reflexivity. Qed.

Example route_is_case_blind :
  route (Bench.req_of "GET" "/API/Lists?x=1" ∅ None) = Some ("/api/lists", "list-service") /\
  route (Bench.req_of "GET" "/api/listsx" ∅ None) = None /\
  route (Bench.req_of "GET" "/api/dashboard" ∅ None) = None.
Proof. repeat split. Qed.

(** ** The registry *)

Section RegistryFacts.

Implicit Types (s : gmap string ServiceRecord) (r : ServiceRecord).

Lemma discover_Some s name r :
  discover name s = Some r <-> s !! name = Some r /\ healthy r = true.
Proof.
  unfold discover. destruct (s !! name) as [r'|] eqn:E.
  - destruct (healthy r') eqn:H; simpl; split.
    + intros [= <-]. auto.
    + intros [[= <-] _]. reflexivity.
    + discriminate.
    + intros [[= <-] H']. congruence.
  - split; [discriminate | intros [? _]; discriminate].
Qed.

Lemma discover_None s name :
  discover name s = None <->
  s !! name = None \/ exists r, s !! name = Some r /\ healthy r = false.
Proof.
  unfold discover. destruct (s !! name) as [r'|] eqn:E.
  - destruct (healthy r') eqn:H; simpl; split.
    + discriminate.
    + intros [? | (r & [= <-] & ?)]; congruence.
    + intros _. right. eauto.
    + reflexivity.
  - split; auto.
Qed.

(** The comparison of [cleanup], in milliseconds. *)
Lemma inactive_ms now r :
  inactive now r = true <-> 2 * 60 * 1000 < now - lastHealthCheck r.
Proof.
  unfold inactive, diffMinutes. rewrite negb_true_iff.
  rewrite <- not_true_iff_false, Qle_bool_iff.
  unfold Qle, Qdiv, Qmult, Qinv, inject_Z. simpl. lia.
Qed.

Lemma cleanup_fold_gone now l : forall (acc : gmap string ServiceRecord * bool) k,
  acc.1 !! k = None -> (foldl (cleanup_step now) acc l).1 !! k = None.
Proof.
  induction l as [|e l IH]; intros acc k H; simpl; [exact H|].
  apply IH. unfold cleanup_step. destruct (inactive now e.2); simpl; [|exact H].
  destruct (decide (e.1 = k)) as [->|Hne].
  - apply lookup_delete_eq.
  - rewrite lookup_delete_ne; auto.
Qed.

Lemma cleanup_fold_removed now l : forall (acc : gmap string ServiceRecord * bool) e,
  e ∈ l -> inactive now e.2 = true ->
  (foldl (cleanup_step now) acc l).1 !! e.1 = None.
Proof.
  induction l as [|e' l IH]; intros acc e Hin Hi; [inversion Hin|].
  simpl. apply elem_of_cons in Hin as [<-|Hin].
  - apply cleanup_fold_gone. unfold cleanup_step. rewrite Hi. simpl.
    apply lookup_delete_eq.
  - apply IH; assumption.
Qed.

Lemma cleanup_fold_kept now l : forall (acc : gmap string ServiceRecord * bool) k,
  (forall e, e ∈ l -> e.1 = k -> inactive now e.2 = false) ->
  (foldl (cleanup_step now) acc l).1 !! k = acc.1 !! k.
Proof.
  induction l as [|e l IH]; intros acc k H; simpl; [reflexivity|].
  rewrite IH by (intros e' ? ?; apply H; [right|]; assumption).
  unfold cleanup_step. destruct (inactive now e.2) eqn:Hi; simpl; [|reflexivity].
  apply lookup_delete_ne. intros Heq.
  rewrite (H e) in Hi; [discriminate | left | exact Heq].
Qed.

Lemma cleanup_fold_flag now l : forall (acc : gmap string ServiceRecord * bool),
  (foldl (cleanup_step now) acc l).2 = true <->
  acc.2 = true \/ exists e, e ∈ l /\ inactive now e.2 = true.
Proof.
  induction l as [|e l IH]; intros acc; simpl.
  - split; [auto | intros [?|(e & Hin & _)]; [assumption | inversion Hin]].
  - rewrite IH. unfold cleanup_step.
    destruct (inactive now e.2) eqn:Hi; simpl; split.
    + intros _. right. exists e. split; [left | assumption].
    + auto.
    + intros [?|(e' & Hin & ?)]; [auto | right; exists e'; split; [right|]; assumption].
    + intros [?|(e' & Hin & He')]; [auto|].
      apply elem_of_cons in Hin as [->|Hin]; [congruence|].
      right; exists e'; auto.
Qed.

Lemma cleanup_lookup now s name :
  (cleanup now s).1 !! name =
  match s !! name with
  | Some r => if inactive now r then None else Some r
  | None => None
  end.
Proof.
  unfold cleanup. destruct (s !! name) as [r|] eqn:E.
  - destruct (inactive now r) eqn:Hi.
    + apply (cleanup_fold_removed now _ _ (name, r)); [|exact Hi].
      apply elem_of_map_to_list. exact E.
    + rewrite cleanup_fold_kept; [exact E|].
      intros [k r'] Hin Hk. simpl in *. subst k.
      apply elem_of_map_to_list in Hin. congruence.
  - apply cleanup_fold_gone. exact E.
Qed.

(** Only a registration or a health update to [true] brings a name back. *)
Lemma undiscoverable_step o s name :
  revives name o = false -> discover name s = None ->
  discover name (ServiceRegistry.run_op o s) = None.
Proof.
  intros Hr Hd. destruct o as [n i t1 t2|n|n|n h t| |t]; simpl in *; try exact Hd.
  - apply bool_decide_eq_false in Hr. unfold register.
    destruct (s !! n) eqn:E; [|destruct (String.eqb n "__proto__")];
      simpl; try exact Hd;
      unfold discover in *; rewrite lookup_insert_ne by exact Hr; exact Hd.
  - unfold unregister.
    destruct (s !! n) eqn:E; [|destruct (Js.inherited n)]; simpl; try exact Hd.
    unfold discover in *. destruct (decide (n = name)) as [->|Hne].
    + rewrite lookup_delete_eq. reflexivity.
    + rewrite lookup_delete_ne by exact Hne. exact Hd.
  - unfold updateHealth.
    destruct (s !! n) as [r|] eqn:E; [|destruct (Js.inherited n)];
      simpl; try exact Hd.
    unfold discover in *. destruct (decide (n = name)) as [->|Hne].
    + rewrite lookup_insert_eq. simpl. destruct h; [|reflexivity].
      apply bool_decide_eq_false in Hr. congruence.
    + rewrite lookup_insert_ne by exact Hne. exact Hd.
  - unfold discover in *. rewrite cleanup_lookup.
    destruct (s !! name) as [r|]; [|reflexivity].
    destruct (inactive t r); [reflexivity | exact Hd].
Qed.

Lemma undiscoverable_run ops : forall s name,
  Forall (fun o => revives name o = false) ops -> discover name s = None ->
  discover name (ServiceRegistry.run ops s) = None.
Proof.
  induction ops as [|o ops IH]; intros s name HF Hd; [exact Hd|].
  inversion HF; subst. simpl. apply IH; [assumption|].
  apply undiscoverable_step; assumption.
Qed.

End RegistryFacts.

(** C8, in a registry that has been called under names that
    [Object.prototype] does not define since its constructor read the
    dictionary. [discover(name)] returns the stored record exactly when a
    record of that name exists and its healthy flag is true, and nothing
    otherwise. Right after [register(name, info)], for every name but
    ["__proto__"], it returns the registered info with the bookkeeping
    fields. For a name that [Object.prototype] does not define: after
    [updateHealth(name, false)] it returns nothing, through every later
    sequence of registry operations under such names that neither registers
    the name again nor updates its health to true; and
    [updateHealth(name, true)] on the record brings it back. *)
Theorem discover_roundtrip_and_health_gating :
  forall (s0 : gmap string ServiceRecord) (history : list ServiceRegistry.op),
    Forall (fun o => ordinary o = true) history ->
    let s := ServiceRegistry.run history s0 in
    (forall name r,
       discover name s = Some r <-> s !! name = Some r /\ healthy r = true) /\
    (forall name,
       discover name s = None <->
       ~ exists r, s !! name = Some r /\ healthy r = true) /\
    (forall name i t_reg t_check, name <> "__proto__" ->
       discover name (register name i t_reg t_check s).1 =
       Some {| info := i; registeredAt := t_reg;
               lastHealthCheck := t_check; healthy := true |}) /\
    (forall name t ops, Js.inherited name = false ->
       Forall (fun o => ordinary o = true) ops ->
       Forall (fun o => revives name o = false) ops ->
       discover name (ServiceRegistry.run ops (updateHealth name false t s).1) = None) /\
    (forall name r t t', Js.inherited name = false ->
       s !! name = Some r ->
       discover name (updateHealth name true t' (updateHealth name false t s).1).1 =
       Some {| info := info r; registeredAt := registeredAt r;
               lastHealthCheck := t'; healthy := true |}).
Proof.
  intros s0 history _ s. generalize s. clear s s0 history. intros s.
  split; [intros name r; apply discover_Some|]. split; [|split; [|split]].
  - intros name. rewrite discover_None. split.
    + intros [E|(r & E & H)] (r' & E' & H'); congruence.
    + intros H. destruct (s !! name) as [r|] eqn:E; [|auto].
      right. exists r. split; [reflexivity|].
      destruct (healthy r) eqn:Hh; [|reflexivity]. exfalso. apply H. eauto.
  - intros name i t1 t2 Hp. apply String.eqb_neq in Hp.
    unfold register, discover. rewrite Hp.
    destruct (s !! name); simpl; rewrite lookup_insert_eq; reflexivity.
  - intros name t ops Hn _ HF. apply undiscoverable_run; [exact HF|].
    unfold updateHealth, discover. rewrite Hn.
    destruct (s !! name) as [r|] eqn:E; simpl.
    + rewrite lookup_insert_eq. reflexivity.
    + rewrite E. reflexivity.
  - intros name r t t' _ E. unfold updateHealth, discover. rewrite E. simpl.
    rewrite lookup_insert_eq. simpl. rewrite lookup_insert_eq. reflexivity.
Qed.

(** The health gating of C8 on a registry that registered the item service
    and then marked it unhealthy: it stays undiscoverable through a sweep,
    a query and a health update of the user service. *)
Lemma discover_roundtrip_and_health_gating_witness :
  discover "item-service"
    (ServiceRegistry.run
       [Cleanup 50; Discover "item-service"; UpdateHealth "user-service" true 60]
       (updateHealth "item-service" false 40
          (ServiceRegistry.run
             [Register "item-service"
                {| url := "http://localhost:3002"; metadata := [] |} 0 0]
             ∅)).1)
  = None.
Proof.
  apply (proj1 (proj2 (proj2 (proj2
           (discover_roundtrip_and_health_gating ∅
              [Register "item-service"
                 {| url := "http://localhost:3002"; metadata := [] |} 0 0]
              ltac:(repeat constructor)))))).
  - reflexivity.
  - repeat constructor.
  - repeat constructor.
Defined.

(** C9. The sweep removes exactly the records whose last health check is
    more than two minutes old: a record survives the sweep exactly when it
    was stored and its age does not exceed 120000 ms; a record 2 min 1 s
    old is removed and one 1 min 59 s old is kept; the sweep reports a
    change exactly when some record was that old. *)
Theorem cleanup_removes_exactly_the_inactive :
  forall (now : Z) (s : gmap string ServiceRecord),
    (forall name r,
       (cleanup now s).1 !! name = Some r <->
       s !! name = Some r /\ ~ (2 * 60 * 1000 < now - lastHealthCheck r)) /\
    (forall name r,
       s !! name = Some r -> now - lastHealthCheck r = 2 * 60 * 1000 + 1000 ->
       (cleanup now s).1 !! name = None) /\
    (forall name r,
       s !! name = Some r -> now - lastHealthCheck r = 60 * 1000 + 59 * 1000 ->
       (cleanup now s).1 !! name = Some r) /\
    ((cleanup now s).2 = true <->
     exists name r, s !! name = Some r /\ 2 * 60 * 1000 < now - lastHealthCheck r).
Proof.
  intros now s.
  assert (Hk : forall name r,
            (cleanup now s).1 !! name = Some r <->
            s !! name = Some r /\ ~ (2 * 60 * 1000 < now - lastHealthCheck r)).
  { intros name r. rewrite cleanup_lookup, <- inactive_ms.
    destruct (s !! name) as [r'|] eqn:E.
    - destruct (inactive now r') eqn:Hi; split.
      + discriminate.
      + intros [[= <-] H]. congruence.
      + intros [= <-]. split; [reflexivity | congruence].
      + intros [[= <-] _]. reflexivity.
    - split; [discriminate | intros [? _]; discriminate]. }
  split; [exact Hk|]. split; [|split].
  - intros name r E Hage. rewrite cleanup_lookup, E.
    destruct (inactive now r) eqn:Hi; [reflexivity|].
    apply not_true_iff_false in Hi. rewrite inactive_ms in Hi. lia.
  - intros name r E Hage. apply Hk. split; [exact E | lia].
  - unfold cleanup. rewrite cleanup_fold_flag. simpl. split.
    + intros [?|([k r] & Hin & Hi)]; [discriminate|].
      exists k, r. apply elem_of_map_to_list in Hin.
      split; [exact Hin | apply inactive_ms; exact Hi].
    + intros (k & r & E & Hi). right. exists (k, r).
      split; [apply elem_of_map_to_list; exact E | apply inactive_ms; exact Hi].
Qed.

(** C9 at a sweep run 121 s after the last health check of a record. *)
Lemma cleanup_removes_exactly_the_inactive_witness :
  (cleanup 121000
     (<["item-service" := Bench.service_at "http://localhost:3002" 0 true]> ∅)).1
    !! "item-service" = None.
Proof.
  apply (proj1 (proj2 (cleanup_removes_exactly_the_inactive 121000 _))
           "item-service" (Bench.service_at "http://localhost:3002" 0 true)).
  - reflexivity.
  - reflexivity.
Defined.

(** ** The proxy handler *)

Section ProxyFacts.

Variable URL_host : string -> option string.

Implicit Types (g : gateway) (b : breaker) (cbs : gmap string breaker).

Lemma gate_reject name now cbs b :
  cbs !! name = Some b -> cooling now b ->
  breaker_gate name now cbs = (cbs, false).
Proof.
  intros E [Ho Ht]. unfold breaker_gate. rewrite E.
  destruct (decide (state b = OPEN)); [|contradiction].
  destruct (30000 <? now - lastFailure b)%Z eqn:L; [|reflexivity].
  apply Z.ltb_lt in L. lia.
Qed.

Lemma gate_pass name now cbs b :
  cbs !! name = Some b -> ~ cooling now b ->
  exists cbs', breaker_gate name now cbs = (cbs', true) /\
               cbs' !! name = Some (after_gate b) /\
               forall other, other <> name -> cbs' !! other = cbs !! other.
Proof.
  intros E Hn. unfold breaker_gate, after_gate. rewrite E.
  destruct (decide (state b = OPEN)) as [Ho|Ho].
  - destruct (30000 <? now - lastFailure b)%Z eqn:L.
    + eexists. split; [reflexivity|]. split.
      * rewrite lookup_alter_eq, E. reflexivity.
      * intros other Hne. apply lookup_alter_ne. congruence.
    + apply Z.ltb_ge in L. exfalso. apply Hn. split; assumption.
  - eexists. split; [reflexivity|]. split; [exact E | reflexivity].
Qed.

Lemma cooling_dec now b : {cooling now b} + {~ cooling now b}.
Proof.
  unfold cooling. destruct (decide (state b = OPEN)); [|right; tauto].
  destruct (Z_le_dec (now - lastFailure b) 30000); [left | right]; tauto.
Qed.

(** A call the breaker rejects: the 503 that carries the breaker state, no
    dispatch, nothing changed. *)
Lemma proxy_fast_fail name req t_gate net t_catch g b :
  breaker_of name g = Some b -> cooling t_gate b ->
  proxyToService URL_host name req t_gate net t_catch g =
  (g, unavailable ("Serviço " +:+ name +:+ " temporariamente indisponível")
                  None (Some "OPEN"), []).
Proof.
  intros E Hc. unfold proxyToService.
  rewrite (gate_reject _ _ _ _ E Hc). reflexivity.
Qed.

(** A call that misses in the registry: 503 and no dispatch, whatever the
    breaker says. *)
Lemma proxy_discovery_miss name req t_gate net t_catch g :
  discover name (registry g) = None ->
  let r := proxyToService URL_host name req t_gate net t_catch g in
  status r.1.2 = 503 /\ r.2 = [].
Proof.
  intros Hd. unfold proxyToService.
  destruct (breaker_gate name t_gate (circuitBreakers g)) as [cbs pass].
  destruct pass; simpl; [rewrite Hd|]; simpl; auto.
Qed.

(** A call that is dispatched: the forwarded request, and the breaker and
    the response by the outcome. *)
Lemma proxy_dispatched name req t_gate net t_catch g service host :
  (breaker_gate name t_gate (circuitBreakers g)).2 = true ->
  discover name (registry g) = Some service ->
  URL_host (url (info service)) = Some host ->
  let cbs := (breaker_gate name t_gate (circuitBreakers g)).1 in
  proxyToService URL_host name req t_gate net t_catch g =
  match axios net with
  | inr (st, data) =>
      (with_breakers (breaker_success name cbs) g,
       {| status := st; json := Relayed data |},
       [forwarded name service req host])
  | inl error =>
      (with_breakers (breaker_failure name t_catch cbs) g,
       match response error with
       | Some (st, data) => {| status := st; json := Relayed data |}
       | None => unavailable ("Serviço " +:+ name +:+ " indisponível")
                             (Some (message error)) None
       end,
       [forwarded name service req host])
  end.
Proof.
  intros Hp Hd Hh. unfold proxyToService.
  destruct (breaker_gate name t_gate (circuitBreakers g)) as [cbs pass].
  simpl in *. subst pass. simpl. rewrite Hd, Hh.
  destruct (axios net) as [error|[st data]]; [|reflexivity].
  destruct (response error) as [[st data]|]; reflexivity.
Qed.

(** The breaker of the called service after a dispatched call. *)
Lemma proxy_dispatched_breaker name req t_gate net t_catch g b service host :
  breaker_of name g = Some b -> ~ cooling t_gate b ->
  discover name (registry g) = Some service ->
  URL_host (url (info service)) = Some host ->
  let r := proxyToService URL_host name req t_gate net t_catch g in
  r.2 = [forwarded name service req host] /\
  breaker_of name r.1.1 =
  Some (match axios net with
        | inr _ => on_success (after_gate b)
        | inl _ => on_error t_catch (after_gate b)
        end).
Proof.
  intros E Hn Hd Hh.
  destruct (gate_pass name t_gate _ _ E Hn) as (cbs' & Hg & Hl & _).
  rewrite (proxy_dispatched name req t_gate net t_catch g service host);
    [|rewrite Hg; reflexivity|exact Hd|exact Hh].
  rewrite Hg. simpl.
  destruct (axios net) as [error|[st data]]; simpl; unfold breaker_of; simpl.
  - split; [reflexivity|]. unfold breaker_failure.
    rewrite lookup_alter_eq, Hl. reflexivity.
  - split; [reflexivity|]. unfold breaker_success.
    rewrite lookup_alter_eq, Hl. reflexivity.
Qed.

(** Whatever a proxied call does, the breaker of a service ends in one of
    four values. *)
Lemma proxy_breaker_cases name req t_gate net t_catch g other b :
  breaker_of other g = Some b ->
  exists b', breaker_of other (proxyToService URL_host name req t_gate net t_catch g).1.1
             = Some b' /\
             (b' = b \/ b' = after_gate b \/ b' = on_success (after_gate b) \/
              b' = on_error t_catch (after_gate b)).
Proof.
  intros E. unfold breaker_of in *.
  destruct (decide (other = name)) as [->|Hne].
  - destruct (cooling_dec t_gate b) as [Hc|Hn].
    + rewrite (proxy_fast_fail _ _ _ _ _ _ _ E Hc). simpl. eauto.
    + destruct (gate_pass name t_gate _ _ E Hn) as (cbs' & Hg & Hl & _).
      unfold proxyToService. rewrite Hg. simpl.
      destruct (discover name (registry g)) as [service|]; [|simpl; eauto].
      destruct (URL_host (url (info service))) as [host|].
      * destruct (axios net) as [error|[st data]].
        -- destruct (response error) as [[st data]|]; simpl;
             unfold breaker_failure; rewrite lookup_alter_eq, Hl; simpl; eauto 6.
        -- simpl. unfold breaker_success. rewrite lookup_alter_eq, Hl.
           simpl; eauto 6.
      * simpl. unfold breaker_failure. rewrite lookup_alter_eq, Hl. simpl; eauto 6.
  - exists b. split; [|auto]. rewrite <- E. unfold proxyToService, breaker_gate.
    destruct (circuitBreakers g !! name) as [bn|] eqn:En.
    + assert (Ha : alter (set_state HALF_OPEN) name (circuitBreakers g) !! other
                   = circuitBreakers g !! other)
        by (apply lookup_alter_ne; congruence).
      destruct (decide (state bn = OPEN));
        [destruct (30000 <? t_gate - lastFailure bn)%Z|]; simpl; try reflexivity;
      (destruct (discover name (registry g)) as [service|]; [|simpl; auto]);
      (destruct (URL_host (url (info service))) as [host|];
       [destruct (axios net) as [error|[st data]];
        [destruct (response error) as [[st data]|]|]|]); simpl;
      unfold breaker_failure, breaker_success;
      rewrite lookup_alter_ne by congruence; auto.
    + simpl. destruct (discover name (registry g)) as [service|]; [|reflexivity].
      destruct (URL_host (url (info service))) as [host|];
       [destruct (axios net) as [error|[st data]];
        [destruct (response error) as [[st data]|]|]|]; simpl;
      unfold breaker_failure, breaker_success;
      rewrite lookup_alter_ne by congruence; auto.
Qed.

(** A proxied call never touches the registry. *)
Lemma proxy_registry name req t_gate net t_catch g :
  registry (proxyToService URL_host name req t_gate net t_catch g).1.1 = registry g.
Proof.
  unfold proxyToService.
  destruct (breaker_gate name t_gate (circuitBreakers g)) as [cbs pass].
  destruct pass; simpl; [|reflexivity].
  destruct (discover name (registry g)) as [service|]; [|reflexivity].
  destruct (URL_host (url (info service))) as [host|];
    [destruct (axios net) as [error|[st data]];
     [destruct (response error) as [[st data]|]|]|]; reflexivity.
Qed.

End ProxyFacts.

(** ** The breaker as a state machine *)

Section BreakerFacts.

Variable URL_host : string -> option string.

Implicit Types (g : gateway) (b : breaker).

Lemma on_error_fields now b :
  failures (on_error now b) = S (failures b) /\
  lastFailure (on_error now b) = now /\
  state (on_error now b) =
    (if (3 <=? S (failures b))%nat then OPEN
     else if decide (state b = HALF_OPEN) then OPEN else state b).
Proof.
  destruct b as [f st lf]. unfold on_error. simpl.
  destruct f as [|[|f]]; simpl;
    try destruct (decide (st = HALF_OPEN)); repeat split.
Qed.

Lemma on_error_half_open now b :
  state b = OPEN ->
  on_error now (after_gate b) =
  {| failures := S (failures b); state := OPEN; lastFailure := now |}.
Proof.
  destruct b as [f st lf]. simpl. intros ->.
  unfold after_gate, on_error. simpl. destruct f as [|[|f]]; reflexivity.
Qed.

Lemma on_success_half_open b :
  state b = OPEN ->
  on_success (after_gate b) =
  {| failures := 0; state := CLOSED; lastFailure := lastFailure b |}.
Proof.
  destruct b as [f st lf]. simpl. intros ->. reflexivity.
Qed.

Lemma proxy_failed_call name req t_gate net t_catch g b service :
  breaker_of name g = Some b ->
  discover name (registry g) = Some service ->
  rejected net ->
  breaker_of name (proxyToService URL_host name req t_gate net t_catch g).1.1 =
  Some (failed_call t_gate t_catch b).
Proof.
  intros E Hd [error Hr]. unfold failed_call.
  destruct (decide (state b = OPEN /\ t_gate - lastFailure b <= 30000)) as [Hc|Hn].
  - rewrite (proxy_fast_fail URL_host _ _ _ _ _ _ _ E Hc). exact E.
  - destruct (URL_host (url (info service))) as [host|] eqn:Hh.
    + destruct (proxy_dispatched_breaker URL_host name req t_gate net t_catch
                  g b service host E Hn Hd Hh) as [_ ->].
      rewrite Hr. reflexivity.
    + destruct (gate_pass name t_gate _ _ E Hn) as (cbs' & Hg & Hl & _).
      unfold proxyToService. rewrite Hg. simpl. rewrite Hd, Hh. simpl.
      unfold breaker_of, breaker_failure. simpl.
      rewrite lookup_alter_eq, Hl. reflexivity.
Qed.

Lemma failed_call_open t_gate t_catch b :
  state b = OPEN -> state (failed_call t_gate t_catch b) = OPEN.
Proof.
  intros Ho. unfold failed_call.
  destruct (decide (state b = OPEN /\ t_gate - lastFailure b <= 30000)); [exact Ho|].
  rewrite on_error_half_open by exact Ho. reflexivity.
Qed.

Lemma failed_call_closed t_gate t_catch b :
  state b = CLOSED ->
  failed_call t_gate t_catch b =
  {| failures := S (failures b);
     state := if (3 <=? S (failures b))%nat then OPEN else CLOSED;
     lastFailure := t_catch |}.
Proof.
  destruct b as [f st lf]. simpl. intros ->. unfold failed_call. simpl.
  destruct (decide (CLOSED = OPEN /\ t_gate - lf <= 30000)) as [[Ho _]|_];
    [discriminate|].
  unfold after_gate, on_error. simpl. destruct f as [|[|f]]; reflexivity.
Qed.

End BreakerFacts.

(** C2. The breaker of a service follows the state machine of the
    specification. (a) Three calls in a row to a discoverable service whose
    downstream attempts fail leave a breaker that was CLOSED in OPEN; from
    the counter at zero the three failures are counted one by one.
    (b) A call that finds the breaker OPEN with at most 30 s since the last
    failure gets the 503 that names the breaker state, dispatches nothing
    and changes nothing. (c) A call that finds it OPEN after more than 30 s
    is let through with the breaker in HALF_OPEN; (d) such a call to a
    discoverable service is dispatched, and when it succeeds the breaker is
    CLOSED with the counter at zero, and when it fails the breaker is OPEN
    again with the counter one higher and the time of the failure
    recorded. *)
Theorem breaker_follows_state_machine :
  forall (URL_host : string -> option string) (name : string),
    (forall g b service req1 req2 req3 t1 t1' t2 t2' t3 t3' net1 net2 net3,
       breaker_of name g = Some b -> state b = CLOSED ->
       discover name (registry g) = Some service ->
       rejected net1 -> rejected net2 -> rejected net3 ->
       exists b3,
         breaker_of name
           (ApiGateway.run URL_host
              [Proxy name req1 t1 net1 t1'; Proxy name req2 t2 net2 t2';
               Proxy name req3 t3 net3 t3'] g) = Some b3 /\
         state b3 = OPEN /\
         (failures b = 0%nat ->
          b3 = {| failures := 3; state := OPEN; lastFailure := t3' |})) /\
    (forall g b req t_gate net t_catch,
       breaker_of name g = Some b ->
       state b = OPEN -> t_gate - lastFailure b <= 30000 ->
       proxyToService URL_host name req t_gate net t_catch g =
       (g, {| status := 503;
              json := Failure ("Serviço " +:+ name +:+ " temporariamente indisponível")
                              None (Some "OPEN") |}, [])) /\
    (forall g b t_gate,
       breaker_of name g = Some b ->
       state b = OPEN -> 30000 < t_gate - lastFailure b ->
       (breaker_gate name t_gate (circuitBreakers g)).2 = true /\
       (breaker_gate name t_gate (circuitBreakers g)).1 !! name =
         Some (set_state HALF_OPEN b)) /\
    (forall g b service host req t_gate net t_catch,
       breaker_of name g = Some b ->
       state b = OPEN -> 30000 < t_gate - lastFailure b ->
       discover name (registry g) = Some service ->
       URL_host (url (info service)) = Some host ->
       let r := proxyToService URL_host name req t_gate net t_catch g in
       r.2 = [forwarded name service req host] /\
       (resolved net ->
        breaker_of name r.1.1 =
        Some {| failures := 0; state := CLOSED; lastFailure := lastFailure b |}) /\
       (rejected net ->
        breaker_of name r.1.1 =
        Some {| failures := S (failures b); state := OPEN;
                lastFailure := t_catch |})).
Proof.
  intros URL_host name. split; [|split; [|split]].
  - intros g b service req1 req2 req3 t1 t1' t2 t2' t3 t3' net1 net2 net3
           E Hc Hd R1 R2 R3.
    simpl.
    set (g1 := (proxyToService URL_host name req1 t1 net1 t1' g).1.1).
    set (g2 := (proxyToService URL_host name req2 t2 net2 t2' g1).1.1).
    assert (E1 : breaker_of name g1 = Some (failed_call t1 t1' b))
      by (apply proxy_failed_call with (service := service); assumption).
    assert (D1 : discover name (registry g1) = Some service)
      by (unfold g1; rewrite proxy_registry; exact Hd).
    assert (E2 : breaker_of name g2 =
                 Some (failed_call t2 t2' (failed_call t1 t1' b)))
      by (apply proxy_failed_call with (service := service); assumption).
    assert (D2 : discover name (registry g2) = Some service)
      by (unfold g2; rewrite proxy_registry; exact D1).
    exists (failed_call t3 t3' (failed_call t2 t2' (failed_call t1 t1' b))).
    split; [apply proxy_failed_call with (service := service); assumption|].
    rewrite (failed_call_closed t1 t1' b Hc).
    destruct (failures b) as [|[|[|n]]] eqn:F; simpl.
    + rewrite (failed_call_closed t2 t2') by reflexivity. simpl.
      rewrite (failed_call_closed t3 t3') by reflexivity. simpl. auto.
    + rewrite (failed_call_closed t2 t2') by reflexivity. simpl.
      split; [apply failed_call_open; reflexivity | discriminate].
    + split; [do 2 (apply failed_call_open); reflexivity | discriminate].
    + split; [do 2 (apply failed_call_open); reflexivity | discriminate].
  - intros g b req t_gate net t_catch E Ho Ht.
    apply (proxy_fast_fail URL_host _ _ _ _ _ _ b); [exact E | split; assumption].
  - intros g b t_gate E Ho Ht.
    assert (Hn : ~ cooling t_gate b) by (intros [_ ?]; lia).
    destruct (gate_pass name t_gate _ _ E Hn) as (cbs' & Hg & Hl & _).
    rewrite Hg. simpl. split; [reflexivity|]. rewrite Hl. unfold after_gate.
    destruct (decide (state b = OPEN)); [reflexivity | contradiction].
  - intros g b service host req t_gate net t_catch E Ho Ht Hd Hh r.
    assert (Hn : ~ cooling t_gate b) by (intros [_ ?]; lia).
    destruct (proxy_dispatched_breaker URL_host name req t_gate net t_catch
                g b service host E Hn Hd Hh) as [Hcalls Hb].
    fold r in Hcalls, Hb. split; [exact Hcalls|split].
    + intros [x Hx]. rewrite Hb, Hx, on_success_half_open by exact Ho. reflexivity.
    + intros [x Hx]. rewrite Hb, Hx, on_error_half_open by exact Ho. reflexivity.
Qed.

(** C2 on the item service: three refused calls from the initial state, a
    fourth call 10 s later, and a trial call after the 30 s. *)
Lemma breaker_follows_state_machine_witness :
  let g0 := new_gateway Bench.three_services in
  let g3 := ApiGateway.run Bench.host_of
              [Proxy "item-service" Bench.get_item_5 10 Bench.down 11;
               Proxy "item-service" Bench.get_item_5 20 Bench.down 21;
               Proxy "item-service" Bench.get_item_5 30 Bench.down 31] g0 in
  (exists b3, breaker_of "item-service" g3 = Some b3 /\ state b3 = OPEN /\
              (0%nat = 0%nat ->
               b3 = {| failures := 3; state := OPEN; lastFailure := 31 |})) /\
  (proxyToService Bench.host_of "item-service" Bench.get_item_5 10031
                  (Reply 200 "[]") 10032 g3).2 = [] /\
  (breaker_gate "item-service" 30032 (circuitBreakers g3)).2 = true /\
  breaker_of "item-service"
    (proxyToService Bench.host_of "item-service" Bench.get_item_5 30032
                    (Reply 200 "[]") 30033 g3).1.1 =
  Some {| failures := 0; state := CLOSED; lastFailure := 31 |}.
Proof.
  intros g0 g3.
  destruct (breaker_follows_state_machine Bench.host_of "item-service")
    as (Ha & Hb & Hc & Hd).
  split; [|split; [|split]].
  - apply (Ha g0 {| failures := 0; state := CLOSED; lastFailure := 0 |}
              (Bench.service_at "http://localhost:3002" 0 true));
      try reflexivity; eexists; reflexivity.
  - rewrite (Hb g3 {| failures := 3; state := OPEN; lastFailure := 31 |});
      [reflexivity | reflexivity | reflexivity | simpl; lia].
  - apply (Hc g3 {| failures := 3; state := OPEN; lastFailure := 31 |});
      reflexivity.
  - apply (Hd g3 {| failures := 3; state := OPEN; lastFailure := 31 |}
              (Bench.service_at "http://localhost:3002" 0 true) "localhost:3002");
      try reflexivity; eexists; reflexivity.
Defined.

(** ** The health endpoint *)

Section HealthFacts.

Implicit Types (g : gateway) (b : breaker).

(** What one probe does to the breaker of the probed service. *)
Lemma healthCheck_fold_lookup probe clock l :
  forall (acc : gmap string breaker * gmap string health_result) name,
    NoDup l.*1 ->
    (foldl (healthCheck_step probe clock) acc l).1 !! name =
    if decide (name ∈ l.*1)
    then probed probe clock name <$> acc.1 !! name
    else acc.1 !! name.
Proof.
  induction l as [|e l IH]; intros acc name Hnd.
  - cbn. rewrite decide_False; [reflexivity | apply not_elem_of_nil].
  - rewrite fmap_cons in *. apply NoDup_cons in Hnd as [Hnotin Hnd].
    cbn [foldl]. rewrite IH by exact Hnd.
    assert (Hstep : (healthCheck_step probe clock acc e).1 =
                    alter (probed probe clock e.1) e.1 acc.1).
    { unfold healthCheck_step, probed, probe_success, probe_failure.
      destruct (axios (probe e.1)) as [error|[st data]]; reflexivity. }
    rewrite Hstep.
    destruct (decide (name = e.1)) as [->|Hne].
    + rewrite decide_False by exact Hnotin.
      rewrite decide_True by (left; reflexivity).
      apply lookup_alter_eq.
    + rewrite lookup_alter_ne by congruence.
      destruct (decide (name ∈ l.*1)) as [Hin|Hout].
      * rewrite decide_True by (right; exact Hin). reflexivity.
      * rewrite decide_False; [reflexivity|].
        intros [?|?]%elem_of_cons; contradiction.
Qed.

Lemma healthCheck_breaker probe clock t_res g name :
  breaker_of name (healthCheck probe clock t_res g).1 =
  match registry g !! name with
  | Some _ => probed probe clock name <$> breaker_of name g
  | None => breaker_of name g
  end.
Proof.
  unfold healthCheck, getAllServices, breaker_of.
  destruct (foldl (healthCheck_step probe clock) (circuitBreakers g, ∅)
                  (map_to_list (registry g))) as [cbs results] eqn:F.
  simpl. change cbs with (cbs, results).1. rewrite <- F.
  rewrite healthCheck_fold_lookup by apply NoDup_fst_map_to_list. simpl.
  destruct (registry g !! name) as [r|] eqn:E.
  - destruct (decide (name ∈ (map_to_list (registry g)).*1)) as [_|Hout];
      [reflexivity|].
    exfalso. apply Hout. apply list_elem_of_fmap. exists (name, r).
    split; [reflexivity | apply elem_of_map_to_list; exact E].
  - destruct (decide (name ∈ (map_to_list (registry g)).*1)) as [Hin|_];
      [|reflexivity].
    apply list_elem_of_fmap in Hin as ([k r] & -> & Hin).
    apply elem_of_map_to_list in Hin. simpl in E. congruence.
Qed.


End HealthFacts.

(** C10. One request to the health endpoint updates the breaker of every
    registered service that has one: when the probe of the service
    succeeds, the breaker is CLOSED with the counter at zero, whatever it
    was before, an OPEN breaker included; when the probe fails, the counter
    goes up by one, the time of the failure is recorded, and the state is
    OPEN as soon as the counter is three or more. *)
Theorem health_endpoint_updates_breaker :
  forall (probe : string -> outcome string) (clock : string -> Z) (t_res : Z)
         (g : gateway) (name : string) (r : ServiceRecord) (b : breaker),
    registry g !! name = Some r ->
    breaker_of name g = Some b ->
    let g' := (healthCheck probe clock t_res g).1 in
    (resolved (probe name) ->
     breaker_of name g' =
     Some {| failures := 0; state := CLOSED; lastFailure := lastFailure b |}) /\
    (rejected (probe name) ->
     breaker_of name g' =
     Some {| failures := S (failures b);
             state := if (3 <=? S (failures b))%nat then OPEN else state b;
             lastFailure := clock name |}).
Proof.
  intros probe clock t_res g name r b Er Eb g'. unfold g'.
  rewrite healthCheck_breaker, Er, Eb. simpl. unfold probed.
  split; intros [x Hx]; rewrite Hx.
  - destruct x. reflexivity.
  - unfold on_probe_error. destruct b as [f st lf]. simpl.
    destruct f as [|[|f]]; reflexivity.
Qed.

(** C10 on a breaker that is open: a probe that succeeds closes it, with
    no trial call on the proxy path. *)
Lemma health_endpoint_updates_breaker_witness :
  breaker_of "item-service" (healthCheck Bench.all_up (fun _ => 40) 41 Bench.tripped).1 =
  Some {| failures := 0; state := CLOSED; lastFailure := 31 |}.
Proof.
  apply (health_endpoint_updates_breaker Bench.all_up (fun _ => 40) 41 Bench.tripped
           "item-service" (Bench.service_at "http://localhost:3002" 0 true)
           {| failures := 3; state := OPEN; lastFailure := 31 |});
    [reflexivity | reflexivity | eexists; reflexivity].
Defined.

(** ** The counter and the CLOSED state *)

Section CounterFacts.

Variable URL_host : string -> option string.

Lemma closing_and_reset_unchanged (b : breaker) :
  (enters_closed b b -> failures b = 0%nat) /\
  (counter_reset b b -> state b = CLOSED) /\
  (counter_reset b b -> False).
Proof. repeat split; intros [H1 H2]; contradiction. Qed.

Lemma closing_and_reset_proxy t (b b' : breaker) :
  b' = b \/ b' = after_gate b \/ b' = on_success (after_gate b) \/
  b' = on_error t (after_gate b) ->
  (enters_closed b b' -> failures b' = 0%nat) /\
  (counter_reset b b' -> state b' = CLOSED) /\
  (counter_reset b b' -> state b = CLOSED -> False).
Proof.
  unfold enters_closed, counter_reset, after_gate, on_success, on_error.
  destruct b as [f st lf].
  intros [-> | [-> | [-> | ->]]]; destruct st; destruct f as [|[|f]]; simpl;
    repeat split; try intros [H1 H2]; try intros H3; congruence.
Qed.

Lemma closing_and_reset_probe probe clock name (b : breaker) :
  let b' := probed probe clock name b in
  (enters_closed b b' -> failures b' = 0%nat) /\
  (counter_reset b b' -> state b' = CLOSED) /\
  (counter_reset b b' -> resolved (probe name)).
Proof.
  unfold probed, enters_closed, counter_reset, resolved,
         on_probe_success, on_probe_error.
  destruct b as [f st lf].
  destruct (axios (probe name)) as [error|r]; destruct st;
    destruct f as [|[|f]]; simpl;
    repeat split; intros [H1 H2]; try congruence; eauto.
Qed.

End CounterFacts.

(** C3, as the code has it. Over every operation of the gateway, from every
    state: an operation that moves a breaker to CLOSED from another state
    leaves its counter at zero; an operation that resets the counter of a
    breaker to zero leaves that breaker CLOSED; and the counter of a breaker
    that is CLOSED already is reset by one operation only, a request to the
    health endpoint whose probe of that service succeeds. *)
Theorem counter_reset_leaves_closed :
  forall (URL_host : string -> option string) (o : ApiGateway.op) (g : gateway)
         (name : string) (b b' : breaker),
    breaker_of name g = Some b ->
    breaker_of name (ApiGateway.run_op URL_host o g) = Some b' ->
    (enters_closed b b' -> failures b' = 0%nat) /\
    (counter_reset b b' -> state b' = CLOSED) /\
    (counter_reset b b' -> state b = CLOSED ->
     exists probe clock t_res,
       o = HealthCheck probe clock t_res /\ resolved (probe name) /\
       is_Some (registry g !! name)).
Proof.
  intros URL_host o g name b b' E E'.
  assert (Hsame : b' = b ->
            (enters_closed b b' -> failures b' = 0%nat) /\
            (counter_reset b b' -> state b' = CLOSED) /\
            (counter_reset b b' -> state b = CLOSED ->
             exists probe clock t_res,
               o = HealthCheck probe clock t_res /\ resolved (probe name) /\
               is_Some (registry g !! name))).
  { intros ->. destruct (closing_and_reset_unchanged b) as (H1 & H2 & H3).
    split; [exact H1 | split; [exact H2 | intros H; destruct (H3 H)]]. }
  destruct o as [n req t1 net t2|probe clock t|probe clock|now| |]; simpl in E'.
  - destruct (proxy_breaker_cases URL_host n req t1 net t2 g name b E)
      as (b'' & Hb & Hcases).
    rewrite Hb in E'. injection E' as <-.
    destruct (closing_and_reset_proxy t2 b b'' Hcases) as (H1 & H2 & H3).
    split; [exact H1 | split; [exact H2 | intros H Hc; destruct (H3 H Hc)]].
  - rewrite healthCheck_breaker, E in E'.
    destruct (registry g !! name) as [r|] eqn:Er; simpl in E'; injection E' as <-.
    + destruct (closing_and_reset_probe probe clock name b) as (H1 & H2 & H3).
      split; [exact H1 | split; [exact H2|]].
      intros H _. exists probe, clock, t.
      split; [reflexivity | split; [exact (H3 H) | eauto]].
    + apply Hsame. reflexivity.
  - apply Hsame. unfold breaker_of in *. simpl in E'. congruence.
  - apply Hsame. unfold breaker_of in *. simpl in E'. congruence.
  - apply Hsame. congruence.
  - apply Hsame. congruence.
Qed.

(** C3 at the trial call that closes the open breaker of the item
    service. *)
Lemma counter_reset_leaves_closed_witness :
  let b := {| failures := 3; state := OPEN; lastFailure := 31 |} in
  let b' := {| failures := 0; state := CLOSED; lastFailure := 31 |} in
  let o := Proxy "item-service" Bench.get_item_5 30032 (Reply 200 "[]") 30033 in
  (enters_closed b b' -> failures b' = 0%nat) /\
  (counter_reset b b' -> state b' = CLOSED) /\
  (counter_reset b b' -> state b = CLOSED ->
   exists probe clock t_res,
     o = HealthCheck probe clock t_res /\ resolved (probe "item-service") /\
     is_Some (registry Bench.tripped !! "item-service")).
Proof.
  apply (counter_reset_leaves_closed Bench.host_of
           (Proxy "item-service" Bench.get_item_5 30032 (Reply 200 "[]") 30033)
           Bench.tripped "item-service").
  - reflexivity.
  - vm_compute. reflexivity.
Defined.

(** C3 as the specification words it fails: after one refused call to the
    user service its breaker is CLOSED with the counter at one, and a
    request to the health endpoint whose probes succeed resets the counter
    while the state was CLOSED before and after. *)
Lemma reset_without_transition :
  ~ reset_exactly_on_closing Bench.host_of.
Proof.
  intros H.
  specialize (H Bench.three_services
                [Proxy "user-service" Bench.post_login 0 Bench.down 1]
                (HealthCheck Bench.all_up (fun _ => 2) 3)
                "user-service"
                {| failures := 1; state := CLOSED; lastFailure := 1 |}
                {| failures := 0; state := CLOSED; lastFailure := 1 |}).
  simpl in H.
  assert (H1 : counter_reset {| failures := 1; state := CLOSED; lastFailure := 1 |}
                             {| failures := 0; state := CLOSED; lastFailure := 1 |})
    by (split; [discriminate | reflexivity]).
  apply H in H1; [| vm_compute; reflexivity | vm_compute; reflexivity].
  destruct H1 as [Hne _]. apply Hne. reflexivity.
Qed.

(** The counter counts the failures since the breaker was last set to
    CLOSED, not the failures in a row: a call that succeeds on a CLOSED
    breaker leaves the counter as it is. *)
Example failures_need_not_be_consecutive :
  breaker_of "item-service"
    (ApiGateway.run Bench.host_of
       [Proxy "item-service" Bench.get_item_5 10 Bench.down 11;
        Proxy "item-service" Bench.get_item_5 20 Bench.down 21;
        Proxy "item-service" Bench.get_item_5 30 (Reply 200 "[]") 31;
        Proxy "item-service" Bench.get_item_5 40 Bench.down 41]
       (new_gateway Bench.three_services)) =
  Some {| failures := 3; state := OPEN; lastFailure := 41 |}.
Proof. vm_compute. reflexivity. Qed.

(** ** The handlers between their awaits *)

Section SegmentFacts.

Variable URL_host : string -> option string.

(** A run of the proxy handler does to the breakers what its segments do
    one after the other. *)
Lemma proxy_as_segments name req t_gate net t_catch (g : gateway) :
  circuitBreakers (proxyToService URL_host name req t_gate net t_catch g).1.1 =
  foldl segment_step (circuitBreakers g)
        (proxy_segments URL_host name t_gate net t_catch g).
Proof.
  unfold proxyToService, proxy_segments. simpl.
  destruct (breaker_gate name t_gate (circuitBreakers g)) as [cbs pass] eqn:Hg.
  simpl. destruct pass; simpl.
  - destruct (discover name (registry g)) as [service|]; [|reflexivity].
    destruct (URL_host (url (info service))) as [host|]; [|reflexivity].
    destruct (axios net) as [error|[st data]]; [|reflexivity].
    destruct (response error) as [[st data]|]; reflexivity.
  - unfold breaker_gate in Hg.
    destruct (circuitBreakers g !! name) as [b|]; [|congruence].
    destruct (decide (state b = OPEN)); [|congruence].
    destruct (30000 <? t_gate - lastFailure b)%Z; congruence.
Qed.

(** In whatever order the segments of the requests in flight run, a
    segment that moves a breaker to CLOSED leaves its counter at zero, and
    a segment that resets a counter leaves the breaker CLOSED. *)
Lemma segment_reset_leaves_closed (s : segment) (cbs : gmap string breaker)
      name (b b' : breaker) :
  cbs !! name = Some b -> segment_step cbs s !! name = Some b' ->
  (enters_closed b b' -> failures b' = 0%nat) /\
  (counter_reset b b' -> state b' = CLOSED).
Proof.
  intros E E'.
  assert (Hcases : b' = b \/ b' = set_state HALF_OPEN b /\ state b = OPEN \/
                   b' = on_success b \/ (exists t, b' = on_error t b) \/
                   b' = on_probe_success b \/ (exists t, b' = on_probe_error t b)).
  { destruct s as [n t|n|n t|n|n t]; simpl in E';
      unfold breaker_gate, breaker_success, breaker_failure,
             probe_success, probe_failure in E';
      destruct (decide (n = name)) as [->|Hne].
    - rewrite E in E'. destruct (decide (state b = OPEN));
        [destruct (30000 <? t - lastFailure b)%Z|]; simpl in E'.
      + rewrite lookup_alter_eq, E in E'. injection E' as <-. auto.
      + left. congruence.
      + left. congruence.
    - destruct (cbs !! n) as [bn|]; [|left; simpl in E'; congruence].
      destruct (decide (state bn = OPEN));
        [destruct (30000 <? t - lastFailure bn)%Z|]; simpl in E';
        try rewrite lookup_alter_ne in E' by exact Hne; left; congruence.
    - rewrite lookup_alter_eq, E in E'. injection E' as <-. auto.
    - rewrite lookup_alter_ne in E' by exact Hne. left. congruence.
    - rewrite lookup_alter_eq, E in E'. injection E' as <-. eauto 6.
    - rewrite lookup_alter_ne in E' by exact Hne. left. congruence.
    - rewrite lookup_alter_eq, E in E'. injection E' as <-. auto 6.
    - rewrite lookup_alter_ne in E' by exact Hne. left. congruence.
    - rewrite lookup_alter_eq, E in E'. injection E' as <-. eauto 7.
    - rewrite lookup_alter_ne in E' by exact Hne. left. congruence. }
  unfold enters_closed, counter_reset.
  destruct b as [f st lf].
  destruct Hcases as [-> | [[-> Ho] | [-> | [[t ->] | [-> | [t ->]]]]]];
    unfold on_success, on_error, on_probe_success, on_probe_error;
    destruct st; destruct f as [|[|f]]; simpl in *;
    split; intros [H1 H2]; congruence.
Qed.

End SegmentFacts.

(** ** What the proxy relays and what it counts *)

Section RelayFacts.

Variable URL_host : string -> option string.

Lemma axios_http_error {A : Type} (st : Z) (data : A) :
  ~ (200 <= st < 300) ->
  axios (Reply st data) =
  inl {| message := "Request failed with status code " +:+ pretty st;
         response := Some (st, data) |}.
Proof.
  intros H. unfold axios.
  destruct (200 <=? st)%Z eqn:L1; destruct (st <? 300)%Z eqn:L2; simpl;
    try reflexivity.
  apply Z.leb_le in L1. apply Z.ltb_lt in L2. lia.
Qed.

(** The failure the [catch] block records, on a breaker that let the call
    through. *)
Lemma on_error_recorded now (b : breaker) :
  failures (on_error now (after_gate b)) = S (failures b) /\
  lastFailure (on_error now (after_gate b)) = now.
Proof.
  destruct (on_error_fields now (after_gate b)) as (Hf & Hl & _).
  rewrite Hf, Hl. unfold after_gate.
  destruct (decide (state b = OPEN)); split; reflexivity.
Qed.

End RelayFacts.

(** C4, as the code has it. A proxied call that reaches the downstream and
    gets an HTTP error response relays the status code and the body of
    that response as they are; and the [catch] block records a breaker
    failure for it, the counter one higher and the time of the failure
    stored, exactly as it does for a call without a reply, which is
    answered with a synthesized 503 that carries the error message. *)
Theorem http_error_relayed_and_counted :
  forall (URL_host : string -> option string) (name : string) (req : request)
         (t_gate t_catch : Z) (g : gateway) (b : breaker)
         (service : ServiceRecord) (host : string),
    breaker_of name g = Some b -> ~ cooling t_gate b ->
    discover name (registry g) = Some service ->
    URL_host (url (info service)) = Some host ->
    (forall st data, ~ (200 <= st < 300) ->
       let r := proxyToService URL_host name req t_gate (Reply st data) t_catch g in
       r.1.2 = {| status := st; json := Relayed data |} /\
       r.2 = [forwarded name service req host] /\
       exists b', breaker_of name r.1.1 = Some b' /\
                  failures b' = S (failures b) /\ lastFailure b' = t_catch) /\
    (forall m,
       let r := proxyToService URL_host name req t_gate (NoReply m) t_catch g in
       r.1.2 = {| status := 503;
                  json := Failure ("Serviço " +:+ name +:+ " indisponível")
                                  (Some m) None |} /\
       r.2 = [forwarded name service req host] /\
       exists b', breaker_of name r.1.1 = Some b' /\
                  failures b' = S (failures b) /\ lastFailure b' = t_catch).
Proof.
  intros URL_host name req t_gate t_catch g b service host E Hn Hd Hh.
  destruct (gate_pass name t_gate _ _ E Hn) as (cbs' & Hg & Hl & _).
  assert (Hp : (breaker_gate name t_gate (circuitBreakers g)).2 = true)
    by (rewrite Hg; reflexivity).
  split.
  - intros st data Hst r.
    pose proof (proxy_dispatched URL_host name req t_gate (Reply st data) t_catch
                  g service host Hp Hd Hh) as Hr.
    pose proof (proxy_dispatched_breaker URL_host name req t_gate (Reply st data)
                  t_catch g b service host E Hn Hd Hh) as [_ Hb].
    rewrite (axios_http_error st data Hst) in Hr, Hb. simpl in Hr.
    fold r in Hr, Hb. rewrite Hr at 1 2. simpl.
    split; [reflexivity | split; [reflexivity|]].
    eexists. split; [exact Hb | apply on_error_recorded].
  - intros m r.
    pose proof (proxy_dispatched URL_host name req t_gate (NoReply m) t_catch
                  g service host Hp Hd Hh) as Hr.
    pose proof (proxy_dispatched_breaker URL_host name req t_gate (NoReply m)
                  t_catch g b service host E Hn Hd Hh) as [_ Hb].
    simpl in Hr, Hb. fold r in Hr, Hb. rewrite Hr at 1 2. simpl.
    split; [reflexivity | split; [reflexivity|]].
    eexists. split; [exact Hb | apply on_error_recorded].
Qed.

(** C4 at a login request the user service answers with 404. *)
Lemma http_error_relayed_and_counted_witness :
  let r := proxyToService Bench.host_of "user-service" Bench.post_login 0
                          (Reply 404 "{}") 7 (new_gateway Bench.three_services) in
  r.1.2 = {| status := 404; json := Relayed "{}" |} /\
  r.2 = [forwarded "user-service" (Bench.service_at "http://localhost:3001" 0 true)
                   Bench.post_login "localhost:3001"] /\
  exists b', breaker_of "user-service" r.1.1 = Some b' /\
             failures b' = 1%nat /\ lastFailure b' = 7.
Proof.
  apply (proj1 (http_error_relayed_and_counted Bench.host_of "user-service"
                  Bench.post_login 0 7 (new_gateway Bench.three_services)
                  {| failures := 0; state := CLOSED; lastFailure := 0 |}
                  (Bench.service_at "http://localhost:3001" 0 true)
                  "localhost:3001"
                  ltac:(reflexivity)
                  ltac:(intros [Ho _]; discriminate Ho)
                  ltac:(reflexivity) ltac:(reflexivity))).
  lia.
Defined.

(** C4 as the specification words it fails: the 404 of the user service is
    relayed and counted as a failure of its breaker. *)
Lemma relayed_error_is_counted :
  ~ http_error_relayed_uncounted Bench.host_of.
Proof.
  intros H.
  destruct (H "user-service" Bench.post_login 0 7 (new_gateway Bench.three_services)
              {| failures := 0; state := CLOSED; lastFailure := 0 |}
              (Bench.service_at "http://localhost:3001" 0 true) "localhost:3001"
              404 "{}")
    as (_ & b' & Hb & Hf & _);
    [reflexivity | intros [Ho _]; discriminate Ho | reflexivity | reflexivity
    | lia |].
  vm_compute in Hb. injection Hb as <-. discriminate Hf.
Qed.

(** ** The forwarded request *)

Lemma forwarded_keeps_request name service req host :
  let c := forwarded name service req host in
  c_method c = method req /\
  c_data c = Body (body req) /\
  c_headers c !! "host" = Some host /\
  (forall k, k <> "host" -> c_headers c !! k = headers req !! k) /\
  c_timeout c = 10000.
Proof.
  simpl. repeat split.
  - apply lookup_insert_eq.
  - intros k Hk. apply lookup_insert_ne. congruence.
Qed.

(** Under the three plural prefixes the handler takes [/api/] and the
    singular off the URL, one letter short of the prefix. *)
Lemma targetUrl_plural service req rest :
  (originalUrl req = "/api/users" +:+ rest ->
   targetUrl "user-service" service req = url (info service) +:+ "s" +:+ rest) /\
  (originalUrl req = "/api/items" +:+ rest ->
   targetUrl "item-service" service req = url (info service) +:+ "s" +:+ rest) /\
  (originalUrl req = "/api/lists" +:+ rest ->
   targetUrl "list-service" service req = url (info service) +:+ "s" +:+ rest).
Proof.
  unfold targetUrl. repeat split; intros ->; reflexivity.
Qed.

(** C1, where the code departs from it. The request [GET /api/items/5] is
    routed under the prefix [/api/items] to the item service; with the
    prefix stripped its path is [/5], and the handler forwards it to the
    address of the service followed by [s/5]. The request
    [POST /api/auth/login] is routed under [/api/auth] to the user service;
    with the prefix stripped its path is [/login], and the handler forwards
    the whole path [/api/auth/login]. Method, body and headers are
    forwarded with the host header set to the host of the target. *)
Theorem proxy_forwards_unstripped_path :
  let g := new_gateway Bench.three_services in
  let items := proxyToService Bench.host_of "item-service" Bench.get_item_5 0
                              (Reply 200 "[]") 0 g in
  let login := proxyToService Bench.host_of "user-service" Bench.post_login 0
                              (Reply 200 "{}") 0 g in
  route Bench.get_item_5 = Some ("/api/items", "item-service") /\
  strip_prefix "/api/items" (originalUrl Bench.get_item_5) = "/5" /\
  List.map c_url items.2 = ["http://localhost:3002s/5"] /\
  route Bench.post_login = Some ("/api/auth", "user-service") /\
  strip_prefix "/api/auth" (originalUrl Bench.post_login) = "/login" /\
  List.map c_url login.2 = ["http://localhost:3001/api/auth/login"] /\
  List.map c_method items.2 = ["GET"] /\
  List.map c_data items.2 = [Body "{}"] /\
  List.map (fun c => c_headers c !! "host") items.2 = [Some "localhost:3002"].
Proof. vm_compute. repeat split. Qed.

(** ** The aggregator *)

Section AggregatorFacts.

Implicit Types (g : gateway) (req : request).

(** What the lists section and the items count of a dashboard are made
    from. *)
Lemma getDashboard_after_check req net_validate net_lists net_items g
      authHeader service st v :
  bearer req = Some authHeader ->
  discover "user-service" (registry g) = Some service ->
  axios net_validate = inr (st, v) -> validate_success v = true ->
  (getDashboard req net_validate net_lists net_items g).1 =
  match fetch_error "list-service" net_lists g with
  | Some detail => dashboard_error detail
  | None =>
      match fetch_error "item-service" net_items g with
      | Some detail => dashboard_error detail
      | None =>
          {| status := 200;
             json := DashboardOk
               (dashboard_data (validate_user v)
                  match axios net_lists with
                  | inr (_, ls) => if lists_success ls then lists_data ls else []
                  | inl _ => []
                  end
                  match axios net_items with
                  | inr (_, it) =>
                      if items_success it then pagination_total it else 0
                  | inl _ => 0
                  end) |}
      end
  end.
Proof.
  intros Hb Hu Hv Hs.
  unfold getDashboard, fetch_error, bind, await, url_of, ret, throw.
  rewrite Hb, Hu. cbn beta iota. rewrite Hv. cbn beta iota.
  cbn [snd]. rewrite Hs. cbn [negb].
  destruct (discover "list-service" (registry g)) as [listService|];
    [|reflexivity].
  destruct (axios net_lists) as [e1|[st1 ls]]; [reflexivity|].
  destruct (discover "item-service" (registry g)) as [itemService|];
    [|reflexivity].
  destruct (axios net_items) as [e2|[st2 it]]; reflexivity.
Qed.

Lemma fetch_failed_error {A : Type} name (o : outcome A) g :
  fetch_failed name o g -> exists detail, fetch_error name o g = Some detail.
Proof.
  unfold fetch_failed, fetch_error. intros [->|[error ->]]; [eauto|].
  destruct (discover name (registry g)); eauto.
Qed.

(** The calls of a dashboard request never go to a service that was not
    discovered. *)
Lemma getDashboard_calls req net_validate net_lists net_items g name :
  discover name (registry g) = None ->
  Forall (fun c => target c <> name)
         (getDashboard req net_validate net_lists net_items g).2.
Proof.
  intros Hd.
  unfold getDashboard, bind, await, url_of, ret, throw.
  destruct (bearer req) as [authHeader|]; [|constructor].
  destruct (discover "user-service" (registry g)) as [userService|] eqn:Du;
    [|constructor].
  cbn beta iota.
  destruct (axios net_validate) as [e0|[st0 v]]; cbn beta iota;
    [repeat constructor; simpl; congruence|].
  cbn [snd]. destruct (validate_success v); cbn [negb];
    [|repeat constructor; simpl; congruence].
  destruct (discover "list-service" (registry g)) as [listService|] eqn:Dl;
    [|repeat constructor; simpl; congruence].
  cbn beta iota.
  destruct (axios net_lists) as [e1|[st1 ls]]; cbn beta iota;
    [repeat constructor; simpl; congruence|].
  destruct (discover "item-service" (registry g)) as [itemService|] eqn:Di;
    [|repeat constructor; simpl; congruence].
  cbn beta iota.
  destruct (axios net_items) as [e2|[st2 it]]; cbn beta iota;
    repeat constructor; simpl; congruence.
Qed.

(** A dashboard request never answers 503. *)
Lemma getDashboard_status req net_validate net_lists net_items g :
  let st := status (getDashboard req net_validate net_lists net_items g).1 in
  st = 401 \/ st = 500 \/ st = 200.
Proof.
  unfold getDashboard, bind, await, url_of, ret, throw.
  destruct (bearer req) as [authHeader|]; [|simpl; auto].
  destruct (discover "user-service" (registry g)) as [userService|];
    [|simpl; auto].
  cbn beta iota.
  destruct (axios net_validate) as [e0|[st0 v]]; cbn beta iota; [simpl; auto|].
  cbn [snd]. destruct (validate_success v); cbn [negb]; [|simpl; auto].
  destruct (discover "list-service" (registry g)) as [listService|];
    [|simpl; auto].
  cbn beta iota.
  destruct (axios net_lists) as [e1|[st1 ls]]; cbn beta iota; [simpl; auto|].
  destruct (discover "item-service" (registry g)) as [itemService|];
    [|simpl; auto].
  cbn beta iota.
  destruct (axios net_items) as [e2|[st2 it]]; simpl; auto.
Qed.

End AggregatorFacts.

Section SearchFacts.

Variable toLowerCase : string -> string.

Implicit Types (g : gateway) (req : request).

Lemma globalSearch_response req net_search net_lists t_res g q :
  query_q req = Some q -> q <> "" ->
  (globalSearch toLowerCase req net_search net_lists t_res g).1 =
  {| status := 200;
     json := SearchOk (list_results toLowerCase req q net_lists g
                                    (item_results net_search g))
                      q t_res |}.
Proof.
  intros Hq Hne. unfold globalSearch. rewrite Hq.
  destruct q as [|c q']; [contradiction|].
  unfold item_results, list_results, fetch_error,
         bind, try_catch, await, url_of, ret, throw.
  destruct (discover "item-service" (registry g)) as [itemService|];
    cbn beta iota;
    [destruct (axios net_search) as [e1|[st1 v]]; cbn beta iota|];
    (destruct (bearer req) as [authHeader|]; [|reflexivity]);
    (destruct (discover "list-service" (registry g)) as [listService|];
     cbn beta iota; [|reflexivity]);
    destruct (axios net_lists) as [e2|[st2 ls]]; reflexivity.
Qed.

(** The calls of a search never go to a service that was not discovered. *)
Lemma globalSearch_calls req net_search net_lists t_res g serviceName :
  discover serviceName (registry g) = None ->
  Forall (fun c => target c <> serviceName)
         (globalSearch toLowerCase req net_search net_lists t_res g).2.
Proof.
  intros Hd. unfold globalSearch.
  destruct (query_q req) as [[|c q']|]; [constructor| |constructor].
  unfold bind, try_catch, await, url_of, ret, throw.
  destruct (discover "item-service" (registry g)) as [itemService|] eqn:Di;
    cbn beta iota;
    [destruct (axios net_search) as [e1|[st1 v]]; cbn beta iota|];
    (destruct (bearer req) as [authHeader|];
     [|repeat constructor; simpl; congruence]);
    (destruct (discover "list-service" (registry g)) as [listService|] eqn:Dl;
     cbn beta iota; [|repeat constructor; simpl; congruence]);
    destruct (axios net_lists) as [e2|[st2 ls]]; cbn beta iota;
    repeat constructor; simpl; congruence.
Qed.

End SearchFacts.

(** The substring test of the list search. *)

Lemma prefix_app (t s : string) :
  String.prefix t s = true <-> exists after, s = t +:+ after.
Proof.
  revert s. induction t as [|a t IH]; intros s.
  - split; [intros _; exists s; reflexivity | intros _; destruct s; reflexivity].
  - destruct s as [|b s].
    + split; [discriminate | intros [after H]; discriminate H].
    + cbn [String.prefix]. destruct (ascii_dec a b) as [->|Hab].
      * rewrite IH. split; intros [after H]; exists after.
        -- change (String b s = String b (t +:+ after)). now f_equal.
        -- change (String b s = String b (t +:+ after)) in H. now injection H.
      * split; [discriminate|]. intros [after H].
        change (String b s = String a (t +:+ after)) in H. congruence.
Qed.

Lemma includes_occurs (s t : string) :
  Js.includes s t = true <-> Notions.occurs t s.
Proof.
  unfold Notions.occurs. induction s as [|c s IH]; cbn [Js.includes].
  - rewrite orb_false_r, prefix_app. split.
    + intros [after H]. exists "", after. exact H.
    + intros (before & after & H). destruct before as [|b before]; [|discriminate H].
      exists after. exact H.
  - rewrite orb_true_iff, prefix_app, IH. split.
    + intros [[after H]|(before & after & H)].
      * exists "", after. exact H.
      * exists (String c before), after. rewrite H. reflexivity.
    + intros (before & after & H). destruct before as [|b before].
      * left. exists after. exact H.
      * right. exists before, after.
        change (String c s = String b (before +:+ t +:+ after)) in H.
        now injection H.
Qed.

(** The first five of the lists that pass a test: each of them passes it,
    and a list that passes it is among them unless five were found. *)
Lemma first_five_matches {A : Type} (P : A -> Prop) `{!forall x, Decision (P x)}
    (data : list A) :
  let found := take 5 (filter P data) in
  (length found <= 5)%nat /\
  found `sublist_of` data /\
  (forall x, x ∈ found -> x ∈ data /\ P x) /\
  (forall x, x ∈ data -> P x ->
     found <> [] /\ ((length found < 5)%nat -> x ∈ found)).
Proof.
  intros found. split; [unfold found; rewrite length_take; lia|].
  split; [etransitivity; [apply sublist_take | apply sublist_filter]|].
  split.
  - intros x Hin. apply (subseteq_take 5) in Hin.
    apply list_elem_of_filter in Hin as [HP Hin]. split; assumption.
  - intros x Hin HP.
    assert (Hf : x ∈ filter P data) by (apply list_elem_of_filter; split; assumption).
    split.
    + unfold found. destruct (filter P data) as [|y l]; [inversion Hf | discriminate].
    + intros Hlen. unfold found in *. rewrite length_take in Hlen.
      rewrite take_ge by lia. exact Hf.
Qed.

(** C5, as the code has it. On the proxy path a request whose service is
    not discovered is answered 503 and nothing is dispatched. On the
    aggregator paths nothing is dispatched to a service that is not
    discovered either, but the answer is not a 503: the dashboard, for a
    request with a bearer credential, answers 500 when the user service is
    missing, dispatching nothing, and 401 or 500 when the list or the item
    service is missing; the search answers 200 with the error of the missing
    service under [itemsError] or [listsError]. *)
Theorem discovery_miss_on_each_path :
  forall (URL_host : string -> option string),
    (forall serviceName req t_gate net t_catch g,
       discover serviceName (registry g) = None ->
       let r := proxyToService URL_host serviceName req t_gate net t_catch g in
       status r.1.2 = 503 /\ r.2 = []) /\
    (forall req net_validate net_lists net_items g serviceName,
       discover serviceName (registry g) = None ->
       let r := getDashboard req net_validate net_lists net_items g in
       Forall (fun c => target c <> serviceName) r.2 /\
       status r.1 <> 503 /\
       (forall authHeader, bearer req = Some authHeader ->
          (serviceName = "user-service" ->
           r = (dashboard_error "Cannot read properties of null (reading 'url')",
                [])) /\
          (serviceName = "list-service" \/ serviceName = "item-service" ->
           status r.1 = 401 \/ status r.1 = 500))) /\
    (forall toLowerCase req net_search net_lists t_res g serviceName q,
       query_q req = Some q -> q <> "" ->
       discover serviceName (registry g) = None ->
       let r := globalSearch toLowerCase req net_search net_lists t_res g in
       Forall (fun c => target c <> serviceName) r.2 /\
       status r.1 = 200 /\
       exists results,
         json r.1 = SearchOk results q t_res /\
         (serviceName = "item-service" ->
          items results = None /\
          itemsError results =
            Some "Cannot read properties of null (reading 'url')") /\
         (serviceName = "list-service" -> bearer req <> None ->
          lists results = None /\
          listsError results =
            Some "Cannot read properties of null (reading 'url')")).
Proof.
  intros URL_host. split; [|split].
  - intros serviceName req t_gate net t_catch g Hd.
    apply proxy_discovery_miss. exact Hd.
  - intros req nv nl ni g serviceName Hd r.
    split; [apply getDashboard_calls; exact Hd|].
    split.
    { destruct (getDashboard_status req nv nl ni g) as [H|[H|H]];
        fold r in H; rewrite H; discriminate. }
    intros authHeader Hb. split.
    + intros ->. unfold r, getDashboard, bind, await, url_of, ret, throw.
      rewrite Hb, Hd. reflexivity.
    + intros Hname.
      destruct (getDashboard_status req nv nl ni g) as [H|[H|H]];
        fold r in H; [auto | auto | exfalso].
      revert H. unfold r, getDashboard, bind, await, url_of, ret, throw.
      rewrite Hb.
      destruct (discover "user-service" (registry g)) as [userService|];
        [|discriminate].
      cbn beta iota.
      destruct (axios nv) as [e0|[st0 v]]; cbn beta iota; [discriminate|].
      cbn [snd]. destruct (validate_success v); cbn [negb]; [|discriminate].
      destruct (discover "list-service" (registry g)) as [listService|] eqn:Dl;
        [|discriminate].
      cbn beta iota.
      destruct (axios nl) as [e1|[st1 ls]]; cbn beta iota; [discriminate|].
      destruct (discover "item-service" (registry g)) as [itemService|] eqn:Di;
        [|discriminate].
      destruct Hname as [-> | ->]; congruence.
  - intros toLowerCase req ns nl t_res g serviceName q Hq Hne Hd r.
    split; [apply globalSearch_calls; exact Hd|].
    pose proof (globalSearch_response toLowerCase req ns nl t_res g q Hq Hne) as Hr.
    fold r in Hr. rewrite Hr. simpl. split; [reflexivity|].
    eexists. split; [reflexivity|]. split.
    + intros ->. unfold item_results, list_results, fetch_error.
      rewrite Hd. destruct (bearer req); [|split; reflexivity].
      destruct (discover "list-service" (registry g)); [|split; reflexivity].
      destruct (axios nl) as [e|[st ls]]; [split; reflexivity|].
      destruct (lists_success ls); split; reflexivity.
    + intros -> Hb. unfold list_results, fetch_error. rewrite Hd.
      destruct (bearer req); [|contradiction].
      unfold item_results, fetch_error.
      destruct (discover "item-service" (registry g)); [|split; reflexivity].
      destruct (axios ns) as [e|[st v]]; [split; reflexivity|].
      destruct (search_success v); split; reflexivity.
Qed.

(** C5 on a gateway whose registry is empty: a dashboard request with a
    credential and a search for a term. *)
Lemma discovery_miss_on_each_path_witness :
  getDashboard Bench.dashboard_req Bench.valid_alice (Bench.lists_of true [])
               Bench.seven_items (new_gateway ∅) =
    (dashboard_error "Cannot read properties of null (reading 'url')", []) /\
  status (globalSearch Js.toLowerCase (Bench.search_req ∅) (Bench.found "[]")
                       (Bench.lists_of true []) 9 (new_gateway ∅)).1 = 200.
Proof.
  destruct (discovery_miss_on_each_path Bench.host_of) as (_ & Hd & Hs). split.
  - destruct (Hd Bench.dashboard_req Bench.valid_alice (Bench.lists_of true [])
                 Bench.seven_items (new_gateway ∅) "user-service")
      as (_ & _ & Hu); [vm_compute; reflexivity|].
    apply (Hu "Bearer abc"); reflexivity.
  - destruct (Hs Js.toLowerCase (Bench.search_req ∅) (Bench.found "[]")
                 (Bench.lists_of true []) 9 (new_gateway ∅) "item-service" "gro")
      as (_ & Hst & _);
      [reflexivity | discriminate | vm_compute; reflexivity | exact Hst].
Defined.

(** C5 as the specification words it fails on the dashboard: with no user
    service in the registry the answer is 500. *)
Lemma dashboard_miss_is_500 :
  ~ discovery_miss_is_503 Bench.host_of.
Proof.
  intros (_ & Hd & _).
  destruct (Hd Bench.dashboard_req Bench.valid_alice (Bench.lists_of true [])
               Bench.seven_items (new_gateway ∅) "Bearer abc")
    as [Hst _]; [reflexivity | reflexivity |].
  vm_compute in Hst. discriminate Hst.
Qed.

(** C6, as the code has it. For a dashboard request that passed the
    credential check: when the fetch of the lists fails, or that of the
    items does, by an undiscovered service or a rejected call, the answer
    is the 500 that carries the message of the first failure; when both
    calls resolve, the answer is a dashboard, and a section whose reply does
    not carry the success flag is defaulted, the lists to none and the item
    count to zero. *)
Theorem dashboard_fails_on_failed_fetch :
  forall (req : request) (net_validate : outcome validate_reply)
         (net_lists : outcome lists_reply) (net_items : outcome items_reply)
         (g : gateway) authHeader service st v,
    bearer req = Some authHeader ->
    discover "user-service" (registry g) = Some service ->
    axios net_validate = inr (st, v) -> validate_success v = true ->
    let r := getDashboard req net_validate net_lists net_items g in
    (fetch_failed "list-service" net_lists g \/
     fetch_failed "item-service" net_items g ->
     exists detail,
       r.1 = dashboard_error detail /\
       (fetch_error "list-service" net_lists g = Some detail \/
        fetch_error "list-service" net_lists g = None /\
        fetch_error "item-service" net_items g = Some detail)) /\
    (forall listService itemService st1 ls st2 it,
       discover "list-service" (registry g) = Some listService ->
       discover "item-service" (registry g) = Some itemService ->
       axios net_lists = inr (st1, ls) -> axios net_items = inr (st2, it) ->
       r.1 = {| status := 200;
                json := DashboardOk
                  (dashboard_data (validate_user v)
                     (if lists_success ls then lists_data ls else [])
                     (if items_success it then pagination_total it else 0)) |}).
Proof.
  intros req nv nl ni g authHeader service st v Hb Hu Hv Hs r.
  pose proof (getDashboard_after_check req nv nl ni g authHeader service st v
                Hb Hu Hv Hs) as Hr.
  fold r in Hr. split.
  - intros Hfail. rewrite Hr.
    destruct (fetch_error "list-service" nl g) as [d1|] eqn:E1; [eauto|].
    destruct (fetch_error "item-service" ni g) as [d2|] eqn:E2; [eauto|].
    exfalso.
    destruct Hfail as [Hf|Hf]; apply fetch_failed_error in Hf as [d Hf]; congruence.
  - intros listService itemService st1 ls st2 it Dl Di Hl Hi.
    rewrite Hr. unfold fetch_error. rewrite Dl, Di, Hl, Hi. reflexivity.
Qed.

(** C6 at a request whose item service refuses the connection. *)
Lemma dashboard_fails_on_failed_fetch_witness :
  exists detail,
    (getDashboard Bench.dashboard_req Bench.valid_alice
                  (Bench.lists_of true [Bench.groceries]) Bench.down
                  (new_gateway Bench.three_services)).1 = dashboard_error detail /\
    (fetch_error "list-service" (Bench.lists_of true [Bench.groceries])
                 (new_gateway Bench.three_services) = Some detail \/
     fetch_error "list-service" (Bench.lists_of true [Bench.groceries])
                 (new_gateway Bench.three_services) = None /\
     fetch_error "item-service" (@Bench.down items_reply)
                 (new_gateway Bench.three_services) = Some detail).
Proof.
  apply (proj1 (dashboard_fails_on_failed_fetch Bench.dashboard_req
                  Bench.valid_alice (Bench.lists_of true [Bench.groceries])
                  Bench.down (new_gateway Bench.three_services)
                  "Bearer abc" (Bench.service_at "http://localhost:3001" 0 true)
                  200 {| validate_success := true; validate_user := Bench.alice |}
                  ltac:(reflexivity) ltac:(reflexivity) ltac:(reflexivity)
                  ltac:(reflexivity))).
  right. right. eexists. reflexivity.
Defined.

(** C6 as the specification words it fails: the list service answers 200
    with its success flag false, and the dashboard is returned with no
    lists and the item count of the item service. *)
Lemma dashboard_with_defaulted_lists :
  ~ dashboard_all_or_nothing.
Proof.
  intros H.
  destruct (H Bench.dashboard_req Bench.valid_alice
              (Bench.lists_of false [Bench.groceries]) Bench.seven_items
              (new_gateway Bench.three_services)) as [_ Hd].
  { exists "Bearer abc", (Bench.service_at "http://localhost:3001" 0 true), 200,
           {| validate_success := true; validate_user := Bench.alice |}.
    repeat split; reflexivity. }
  destruct (Hd (dashboard_data Bench.alice [] 7)) as [(st & ls & Ha & Hs) _].
  - vm_compute. reflexivity.
  - vm_compute in Ha. injection Ha as <- <-. discriminate Hs.
Qed.

(** C7. For a search with a non-empty query: without a credential the
    response has no lists section and no lists error, and holds the item
    results when the item search succeeds; with a credential and the item
    search failing, by an undiscovered service or a rejected call, the
    response is still a 200 with the success flag, holds the message of the
    failure under [itemsError], and holds a lists section when the lists
    call succeeds. That section is filled with the lists of the reply whose
    lowered name holds the lowered query, in the order of the reply, the
    first five of them: it is not empty as soon as one list of the reply
    matches, and it holds every match unless there are five. *)
Theorem search_tolerates_partial_failure :
  forall (toLowerCase : string -> string) (req : request)
         (net_search : outcome search_reply)
         (net_lists : outcome lists_reply) (t_res : Z) (g : gateway) (q : string),
    query_q req = Some q -> q <> "" ->
    let r := (globalSearch toLowerCase req net_search net_lists t_res g).1 in
    (bearer req = None ->
     (exists results,
        r = {| status := 200; json := SearchOk results q t_res |} /\
        lists results = None /\ listsError results = None) /\
     (forall itemService st v,
        discover "item-service" (registry g) = Some itemService ->
        axios net_search = inr (st, v) -> search_success v = true ->
        r = {| status := 200;
               json := SearchOk {| items := Some (search_data v);
                                   itemsError := None;
                                   lists := None; listsError := None |}
                                q t_res |})) /\
    (forall authHeader detail listService st ls,
       bearer req = Some authHeader ->
       fetch_error "item-service" net_search g = Some detail ->
       discover "list-service" (registry g) = Some listService ->
       axios net_lists = inr (st, ls) -> lists_success ls = true ->
       exists found,
         status r = 200 /\ success_flag (json r) = Some true /\
         r = {| status := 200;
                json := SearchOk
                  {| items := None;
                     itemsError := Some detail;
                     lists := Some found;
                     listsError := None |} q t_res |} /\
         (length found <= 5)%nat /\
         found `sublist_of` lists_data ls /\
         (forall l, l ∈ found ->
            l ∈ lists_data ls /\ Notions.name_matches toLowerCase q l) /\
         (forall l, l ∈ lists_data ls -> Notions.name_matches toLowerCase q l ->
            found <> [] /\ ((length found < 5)%nat -> l ∈ found))).
Proof.
  intros toLowerCase req ns nl t_res g q Hq Hne r.
  pose proof (globalSearch_response toLowerCase req ns nl t_res g q Hq Hne) as Hr.
  fold r in Hr. split.
  - intros Hb. split.
    + eexists. split; [exact Hr|]. unfold list_results. rewrite Hb.
      unfold item_results.
      destruct (fetch_error "item-service" ns g); [split; reflexivity|].
      destruct (axios ns) as [e|[st v]]; [split; reflexivity|].
      destruct (search_success v); split; reflexivity.
    + intros itemService st v Di Ha Hs. rewrite Hr.
      unfold list_results, item_results, fetch_error.
      rewrite Hb, Di, Ha, Hs. reflexivity.
  - intros authHeader detail listService st ls Hb He Dl Ha Hs.
    pose proof (first_five_matches
                  (fun l => Js.includes (toLowerCase (name l)) (toLowerCase q) = true)
                  (lists_data ls)) as (Hlen & Hsub & Hin & Hall).
    eexists. split; [rewrite Hr; reflexivity|].
    split; [rewrite Hr; reflexivity|].
    split.
    { rewrite Hr. unfold list_results, item_results. rewrite Hb, He.
      unfold fetch_error. rewrite Dl, Ha, Hs. reflexivity. }
    split; [exact Hlen|]. split; [exact Hsub|]. split.
    + intros l Hl. destruct (Hin l Hl) as [Hd Hm].
      split; [exact Hd | apply includes_occurs; exact Hm].
    + intros l Hl Hm. apply Hall; [exact Hl | apply includes_occurs; exact Hm].
Qed.

(** C7 at a search for [gro], with a credential, the item service refusing
    the connection and the list service returning a list named Hardware and
    one named Groceries: the lists section holds the second. *)
Lemma search_tolerates_partial_failure_witness :
  (globalSearch Js.toLowerCase (Bench.search_req Bench.with_token) Bench.down
                (Bench.lists_of true [Bench.hardware; Bench.groceries]) 9
                (new_gateway Bench.three_services)).1 =
  {| status := 200;
     json := SearchOk
       {| items := None;
          itemsError := Some "connect ECONNREFUSED";
          lists := Some [Bench.groceries];
          listsError := None |} "gro" 9 |}.
Proof.
  destruct (proj2 (search_tolerates_partial_failure Js.toLowerCase
                     (Bench.search_req Bench.with_token) Bench.down
                     (Bench.lists_of true [Bench.hardware; Bench.groceries]) 9
                     (new_gateway Bench.three_services) "gro"
                     eq_refl ltac:(discriminate))
              "Bearer abc" "connect ECONNREFUSED"
              (Bench.service_at "http://localhost:3003" 0 true) 200
              {| lists_success := true;
                 lists_data := [Bench.hardware; Bench.groceries] |}
              eq_refl eq_refl eq_refl eq_refl eq_refl)
    as (found & _ & _ & Hr & _).
  rewrite Hr. vm_compute in Hr. injection Hr as Hfound.
  rewrite <- Hfound. reflexivity.
Defined.

(** * Further properties of the code *)

(** ** The registry: the other operations *)

Section MoreRegistryFacts.

Implicit Types (s : gmap string ServiceRecord) (r : ServiceRecord).

Lemma cleanup_flag_false now s :
  (ServiceRegistry.cleanup now s).2 = false <->
  (forall k r, s !! k = Some r -> inactive now r = false).
Proof.
  rewrite <- not_true_iff_false. unfold ServiceRegistry.cleanup.
  rewrite cleanup_fold_flag. simpl. split.
  - intros H k r E. apply not_true_iff_false. intros Hi. apply H. right.
    exists (k, r). split; [apply elem_of_map_to_list; exact E | exact Hi].
  - intros H [?|([k r] & Hin & Hi)]; [discriminate|].
    apply elem_of_map_to_list in Hin. simpl in Hi.
    rewrite (H k r Hin) in Hi. discriminate.
Qed.

Lemma cleanup_unchanged now s :
  (ServiceRegistry.cleanup now s).2 = false -> (ServiceRegistry.cleanup now s).1 = s.
Proof.
  rewrite cleanup_flag_false. intros H. apply map_eq. intros k.
  rewrite cleanup_lookup. destruct (s !! k) as [r|] eqn:E; [|reflexivity].
  rewrite (H k r E). reflexivity.
Qed.

Lemma inactive_later now now' r :
  now <= now' -> inactive now r = true -> inactive now' r = true.
Proof. rewrite !inactive_ms. lia. Qed.

End MoreRegistryFacts.

(** In a registry that has been called under names that [Object.prototype]
    does not define: [unregister(name)] reports a removal exactly when the
    name was registered or is one that [Object.prototype] defines;
    afterwards the name is neither stored nor discoverable, every other
    record is as it was, and a registry that did not hold the name is
    unchanged. *)
Theorem unregister_removes_only_the_name :
  forall (s0 : gmap string ServiceRecord) (history : list ServiceRegistry.op)
         (name : string),
    Forall (fun o => ordinary o = true) history ->
    let s := ServiceRegistry.run history s0 in
    let r := ServiceRegistry.unregister name s in
    (r.2 = true <-> is_Some (s !! name) \/ Js.inherited name = true) /\
    r.1 !! name = None /\
    discover name r.1 = None /\
    (forall other, other <> name -> r.1 !! other = s !! other) /\
    (s !! name = None -> r.1 = s).
Proof.
  intros s0 history name _ s. generalize s. clear s s0 history. intros s.
  unfold ServiceRegistry.unregister.
  destruct (s !! name) as [rec|] eqn:E; simpl.
  - split; [split; [eauto | reflexivity]|].
    split; [apply lookup_delete_eq|].
    split; [unfold discover; rewrite lookup_delete_eq; reflexivity|].
    split; [intros other Hne; apply lookup_delete_ne; congruence | discriminate].
  - destruct (Js.inherited name) eqn:Hn; simpl.
    + split; [split; [auto | reflexivity]|].
      split; [exact E|].
      split; [unfold discover; rewrite E; reflexivity|].
      split; reflexivity.
    + split; [split; [discriminate | intros [[? ?]|?]; discriminate]|].
      split; [exact E|].
      split; [unfold discover; rewrite E; reflexivity|].
      split; reflexivity.
Qed.

(** The three services registered at start-up. The item service is
    unregistered: it is gone, and the user service is as it was. A removal
    of [constructor], which was never registered, reports success and
    changes nothing. *)
Lemma unregister_removes_only_the_name_witness :
  let s := ServiceRegistry.run
             [Register "user-service"
                {| url := "http://localhost:3001"; metadata := [] |} 0 0;
              Register "item-service"
                {| url := "http://localhost:3002"; metadata := [] |} 1 1;
              Register "list-service"
                {| url := "http://localhost:3003"; metadata := [] |} 2 2] ∅ in
  let r := ServiceRegistry.unregister "item-service" s in
  (r.2 = true /\ discover "item-service" r.1 = None /\
   r.1 !! "user-service" = s !! "user-service") /\
  ServiceRegistry.unregister "constructor" s = (s, true).
Proof.
  intros s r. split.
  - destruct (unregister_removes_only_the_name ∅
                [Register "user-service"
                   {| url := "http://localhost:3001"; metadata := [] |} 0 0;
                 Register "item-service"
                   {| url := "http://localhost:3002"; metadata := [] |} 1 1;
                 Register "list-service"
                   {| url := "http://localhost:3003"; metadata := [] |} 2 2]
                "item-service" ltac:(repeat constructor))
      as (Hflag & _ & Hd & Hother & _).
    split; [apply Hflag; left; vm_compute; eauto|].
    split; [exact Hd|].
    apply Hother. discriminate.
  - destruct (unregister_removes_only_the_name ∅
                [Register "user-service"
                   {| url := "http://localhost:3001"; metadata := [] |} 0 0;
                 Register "item-service"
                   {| url := "http://localhost:3002"; metadata := [] |} 1 1;
                 Register "list-service"
                   {| url := "http://localhost:3003"; metadata := [] |} 2 2]
                "constructor" ltac:(repeat constructor))
      as (Hflag & _ & _ & _ & Hsame).
    apply injective_projections.
    + apply Hsame. vm_compute. reflexivity.
    + apply Hflag. right. reflexivity.
Defined.

(** In a registry that has been called under names that [Object.prototype]
    does not define, and for every name but ["__proto__"]: registering a
    name that was not registered and unregistering it gives the registry
    back as it was; registering a name twice leaves what the second
    registration alone would leave. *)
Theorem register_unregister_round_trip :
  forall (s0 : gmap string ServiceRecord) (history : list ServiceRegistry.op)
         (name : string) (i1 i2 : ServiceInfo) (t1 t2 t3 t4 : Z),
    Forall (fun o => ordinary o = true) history ->
    name <> "__proto__" ->
    let s := ServiceRegistry.run history s0 in
    (s !! name = None ->
     ServiceRegistry.unregister name
       (ServiceRegistry.register name i1 t1 t2 s).1 = (s, true)) /\
    ServiceRegistry.register name i2 t3 t4
      (ServiceRegistry.register name i1 t1 t2 s).1 =
    ServiceRegistry.register name i2 t3 t4 s.
Proof.
  intros s0 history name i1 i2 t1 t2 t3 t4 _ Hp s.
  generalize s. clear s s0 history. intros s.
  apply String.eqb_neq in Hp. split.
  - intros E. unfold ServiceRegistry.unregister, ServiceRegistry.register.
    rewrite E, Hp. simpl.
    rewrite lookup_insert_eq. f_equal. apply delete_insert_id. exact E.
  - unfold ServiceRegistry.register. rewrite Hp.
    destruct (s !! name); simpl; rewrite lookup_insert_eq;
      f_equal; apply insert_insert_eq.
Qed.

(** A registry of the user service registers a cart service and removes it
    again. *)
Lemma register_unregister_round_trip_witness :
  let s := ServiceRegistry.run
             [Register "user-service"
                {| url := "http://localhost:3001"; metadata := [] |} 0 0] ∅ in
  ServiceRegistry.unregister "cart-service"
    (ServiceRegistry.register "cart-service"
       {| url := "http://localhost:3004"; metadata := [] |} 5 5 s).1 = (s, true).
Proof.
  intros s.
  apply (proj1 (register_unregister_round_trip ∅
                  [Register "user-service"
                     {| url := "http://localhost:3001"; metadata := [] |} 0 0]
                  "cart-service"
                  {| url := "http://localhost:3004"; metadata := [] |}
                  {| url := "http://localhost:3004"; metadata := [] |} 5 5 5 5
                  ltac:(repeat constructor) ltac:(discriminate))).
  vm_compute. reflexivity.
Defined.

(** In a registry that has been called under names that [Object.prototype]
    does not define: [updateHealth(name, h)] reports success exactly when
    the name is registered or is one that [Object.prototype] defines, and
    changes nothing in the dictionary for a name that is not registered;
    for a registered name it sets the flag and the time of the last health
    check of that record and nothing else: the registered info and the
    registration time stay, the other records stay, and no name is added
    or removed. *)
Theorem updateHealth_touches_one_record :
  forall (s0 : gmap string ServiceRecord) (history : list ServiceRegistry.op)
         (name : string) (h : bool) (now : Z),
    Forall (fun o => ordinary o = true) history ->
    let s := ServiceRegistry.run history s0 in
    let r := ServiceRegistry.updateHealth name h now s in
    (r.2 = true <-> is_Some (s !! name) \/ Js.inherited name = true) /\
    (s !! name = None -> r.1 = s) /\
    (forall rec, s !! name = Some rec ->
       r.1 !! name = Some {| info := info rec; registeredAt := registeredAt rec;
                             lastHealthCheck := now; healthy := h |}) /\
    (forall other, other <> name -> r.1 !! other = s !! other) /\
    dom r.1 = dom s.
Proof.
  intros s0 history name h now _ s. generalize s. clear s s0 history. intros s.
  unfold ServiceRegistry.updateHealth.
  destruct (s !! name) as [rec|] eqn:E; simpl.
  - split; [split; [eauto | reflexivity]|].
    split; [discriminate|].
    split; [intros rec' [= <-]; apply lookup_insert_eq|].
    split; [intros other Hne; apply lookup_insert_ne; congruence|].
    apply dom_insert_lookup_L. eauto.
  - destruct (Js.inherited name) eqn:Hn; simpl.
    + split; [split; [auto | reflexivity]|].
      split; [reflexivity|].
      split; [discriminate|].
      split; reflexivity.
    + split; [split; [discriminate | intros [[? ?]|?]; discriminate]|].
      split; [reflexivity|].
      split; [discriminate|].
      split; reflexivity.
Qed.

(** A registry of the item service: a health update of the item service
    changes its flag and time, one of a cart service that is not registered
    reports failure. *)
Lemma updateHealth_touches_one_record_witness :
  let s := ServiceRegistry.run
             [Register "item-service"
                {| url := "http://localhost:3002"; metadata := [] |} 0 0] ∅ in
  (ServiceRegistry.updateHealth "item-service" false 40 s).1 !! "item-service" =
    Some {| info := {| url := "http://localhost:3002"; metadata := [] |};
            registeredAt := 0; lastHealthCheck := 40; healthy := false |} /\
  (ServiceRegistry.updateHealth "cart-service" true 40 s).2 <> true.
Proof.
  intros s. split.
  - destruct (updateHealth_touches_one_record ∅
                [Register "item-service"
                   {| url := "http://localhost:3002"; metadata := [] |} 0 0]
                "item-service" false 40 ltac:(repeat constructor))
      as (_ & _ & Hrec & _).
    apply (Hrec {| info := {| url := "http://localhost:3002"; metadata := [] |};
                   registeredAt := 0; lastHealthCheck := 0; healthy := true |}).
    vm_compute. reflexivity.
  - intros H.
    apply (proj1 (updateHealth_touches_one_record ∅
                    [Register "item-service"
                       {| url := "http://localhost:3002"; metadata := [] |} 0 0]
                    "cart-service" true 40 ltac:(repeat constructor))) in H.
    vm_compute in H. destruct H as [[x H]|H]; discriminate H.
Defined.

(** Sweeps compose: a sweep after a sweep leaves what the later sweep alone
    would leave; a second sweep at the same time removes nothing and reports
    no change; and a sweep reports no change exactly when it left the
    registry as it was. *)
Theorem cleanup_composes :
  forall (s : gmap string ServiceRecord) (now now' : Z),
    (now <= now' ->
     (ServiceRegistry.cleanup now' (ServiceRegistry.cleanup now s).1).1 =
     (ServiceRegistry.cleanup now' s).1) /\
    ServiceRegistry.cleanup now (ServiceRegistry.cleanup now s).1 =
      ((ServiceRegistry.cleanup now s).1, false) /\
    ((ServiceRegistry.cleanup now s).2 = false <->
     (ServiceRegistry.cleanup now s).1 = s).
Proof.
  intros s now now'.
  assert (Hidem : (ServiceRegistry.cleanup now (ServiceRegistry.cleanup now s).1).1 =
                  (ServiceRegistry.cleanup now s).1).
  { apply map_eq. intros k. rewrite !cleanup_lookup.
    destruct (s !! k) as [r|]; [|reflexivity].
    destruct (inactive now r) eqn:Hi; [reflexivity | rewrite Hi; reflexivity]. }
  split; [|split].
  - intros Hle. apply map_eq. intros k. rewrite !cleanup_lookup.
    destruct (s !! k) as [r|]; [|reflexivity].
    destruct (inactive now r) eqn:Hi; [|reflexivity].
    rewrite (inactive_later now now' r Hle Hi). reflexivity.
  - apply injective_projections; [exact Hidem|]. simpl.
    apply cleanup_flag_false. intros k r E. rewrite cleanup_lookup in E.
    destruct (s !! k) as [r'|]; [|discriminate].
    destruct (inactive now r') eqn:Hi; [discriminate|]. congruence.
  - rewrite cleanup_flag_false. split.
    + intros H. apply map_eq. intros k. rewrite cleanup_lookup.
      destruct (s !! k) as [r|] eqn:E; [|reflexivity].
      rewrite (H k r E). reflexivity.
    + intros Heq k r E. rewrite <- Heq in E. rewrite cleanup_lookup in E.
      destruct (s !! k) as [r'|]; [|discriminate].
      destruct (inactive now r') eqn:Hi; [discriminate|]. congruence.
Qed.

(** Two sweeps, 60 s apart, of a registry whose record was last checked at
    time 0. *)
Lemma cleanup_composes_witness :
  let s := <["item-service" := Bench.service_at "http://localhost:3002" 0 true]> ∅ in
  (ServiceRegistry.cleanup 130000 (ServiceRegistry.cleanup 70000 s).1).1 =
  (ServiceRegistry.cleanup 130000 s).1.
Proof.
  intros s. apply (proj1 (cleanup_composes s 70000 130000)). lia.
Defined.

(** ** The registry and its file *)

Section RegistryFileFacts.

Import RegistryFile.

Lemma initialize_in_step f : in_step (initializeRegistry f WriteOk).
Proof. destruct f; reflexivity. Qed.

Lemma run_op_in_step o i : writes_ok o -> in_step i -> in_step (run_op o i).
Proof.
  intros Hw Hi.
  destruct o as [n info t1 t2 w|n w|n h t w|t w]; simpl in Hw; subst w; simpl.
  - reflexivity.
  - unfold RegistryFile.unregister.
    destruct (ServiceRegistry.unregister n (services_of i)).2; [reflexivity | exact Hi].
  - unfold RegistryFile.updateHealth.
    destruct (ServiceRegistry.updateHealth n h t (services_of i)).2;
      [reflexivity | exact Hi].
  - unfold RegistryFile.cleanup.
    destruct (ServiceRegistry.cleanup t (services_of i)).2; [reflexivity | exact Hi].
Qed.

Lemma run_in_step ops : forall i,
  Forall writes_ok ops -> in_step i -> in_step (RegistryFile.run ops i).
Proof.
  induction ops as [|o ops IH]; intros i HF Hi; [exact Hi|].
  inversion HF; subst. simpl. apply IH; [assumption|].
  apply run_op_in_step; assumption.
Qed.

Lemma restart_in_step i w :
  in_step i -> services_of (initializeRegistry (registryFile i) w) = services_of i.
Proof.
  unfold in_step. destruct (registryFile i); simpl.
  - intros ->. destruct w; reflexivity.
  - intros ->. reflexivity.
  - intros ->. reflexivity.
Qed.

End RegistryFileFacts.

(** A registry that is started on any file, runs any sequence of
    registrations, removals, health updates and sweeps whose writes succeed
    and whose names are none that [Object.prototype] defines, and is
    started again on the file it left, holds the dictionary it held before
    the restart. *)
Theorem restart_recovers_registry :
  forall (f : RegistryFile.file) (ops : list RegistryFile.op)
         (w : RegistryFile.write_outcome),
    Forall RegistryFile.writes_ok ops ->
    Forall (fun o => RegistryFile.ordinary o = true) ops ->
    let i := RegistryFile.run ops
               (RegistryFile.initializeRegistry f RegistryFile.WriteOk) in
    RegistryFile.services_of
      (RegistryFile.initializeRegistry (RegistryFile.registryFile i) w) =
    RegistryFile.services_of i.
Proof.
  intros f ops w HF _ i. apply restart_in_step. apply run_in_step; [exact HF|].
  apply initialize_in_step.
Qed.

(** A registry started without a file registers a service, marks it
    unhealthy and sweeps; the restart finds the service, unhealthy. *)
Lemma restart_recovers_registry_witness :
  let i := RegistryFile.run
             [RegistryFile.Register "item-service"
                {| url := "http://localhost:3002"; metadata := [] |} 10 10
                RegistryFile.WriteOk;
              RegistryFile.UpdateHealth "item-service" false 20 RegistryFile.WriteOk;
              RegistryFile.Cleanup 30 RegistryFile.WriteOk]
             (RegistryFile.initializeRegistry RegistryFile.Missing
                                              RegistryFile.WriteOk) in
  RegistryFile.services_of
    (RegistryFile.initializeRegistry (RegistryFile.registryFile i)
                                     (RegistryFile.WriteFailed RegistryFile.Missing)) =
  RegistryFile.services_of i.
Proof.
  apply (restart_recovers_registry RegistryFile.Missing); repeat constructor.
Defined.

(** The file never decides what the registry answers: whatever the writes
    do, the dictionary in memory and the result of a call are those of the
    call on the dictionary alone. A call whose write succeeds leaves the
    file holding the dictionary; a removal, a health update or a sweep that
    reports no change writes nothing. *)
Theorem persistence_is_best_effort :
  forall (o : RegistryFile.op) (i : RegistryFile.instance),
    RegistryFile.services_of (RegistryFile.run_op o i) =
      ServiceRegistry.run_op (RegistryFile.forget o) (RegistryFile.services_of i) /\
    (RegistryFile.writes_ok o ->
     RegistryFile.registryFile (RegistryFile.run_op o i) =
       RegistryFile.Holds (RegistryFile.services_of (RegistryFile.run_op o i)) \/
     RegistryFile.run_op o i = i) /\
    (forall n w, (RegistryFile.unregister n w i).2 =
                 (ServiceRegistry.unregister n (RegistryFile.services_of i)).2 /\
                 ((RegistryFile.unregister n w i).2 = false ->
                  (RegistryFile.unregister n w i).1 = i)) /\
    (forall n h t w, (RegistryFile.updateHealth n h t w i).2 =
                     (ServiceRegistry.updateHealth n h t (RegistryFile.services_of i)).2 /\
                     ((RegistryFile.updateHealth n h t w i).2 = false ->
                      (RegistryFile.updateHealth n h t w i).1 = i)) /\
    (forall t w, (RegistryFile.cleanup t w i).2 =
                 (ServiceRegistry.cleanup t (RegistryFile.services_of i)).2 /\
                 ((RegistryFile.cleanup t w i).2 = false ->
                  (RegistryFile.cleanup t w i).1 = i)).
Proof.
  intros o i. split; [|split; [|split; [|split]]].
  - destruct o as [n info t1 t2 w|n w|n h t w|t w]; simpl.
    + destruct w; reflexivity.
    + unfold RegistryFile.unregister, ServiceRegistry.unregister.
      destruct (RegistryFile.services_of i !! n); [|destruct (Js.inherited n)];
        simpl; try destruct w; reflexivity.
    + unfold RegistryFile.updateHealth, ServiceRegistry.updateHealth.
      destruct (RegistryFile.services_of i !! n); [|destruct (Js.inherited n)];
        simpl; try destruct w; reflexivity.
    + unfold RegistryFile.cleanup.
      destruct (ServiceRegistry.cleanup t (RegistryFile.services_of i)) as [s' c] eqn:E.
      simpl. destruct c; simpl; [destruct w; reflexivity|].
      pose proof (cleanup_unchanged t (RegistryFile.services_of i)) as Hu.
      rewrite E in Hu. simpl in Hu. symmetry. apply Hu. reflexivity.
  - intros Hw.
    destruct o as [n info t1 t2 w|n w|n h t w|t w]; simpl in Hw; subst w; simpl.
    + left. reflexivity.
    + unfold RegistryFile.unregister.
      destruct (ServiceRegistry.unregister n (RegistryFile.services_of i)).2;
        [left | right]; reflexivity.
    + unfold RegistryFile.updateHealth.
      destruct (ServiceRegistry.updateHealth n h t (RegistryFile.services_of i)).2;
        [left | right]; reflexivity.
    + unfold RegistryFile.cleanup.
      destruct (ServiceRegistry.cleanup t (RegistryFile.services_of i)).2;
        [left | right]; reflexivity.
  - intros n w. unfold RegistryFile.unregister.
    destruct (ServiceRegistry.unregister n (RegistryFile.services_of i)).2;
      simpl; split; (reflexivity || discriminate).
  - intros n h t w. unfold RegistryFile.updateHealth.
    destruct (ServiceRegistry.updateHealth n h t (RegistryFile.services_of i)).2;
      simpl; split; (reflexivity || discriminate).
  - intros t w. unfold RegistryFile.cleanup.
    destruct (ServiceRegistry.cleanup t (RegistryFile.services_of i)).2;
      simpl; split; (reflexivity || discriminate).
Qed.

(** ** The breakers over the life of a gateway *)

Section BreakerInvariants.

Import Notions.

Variable URL_host : string -> option string.

Implicit Types (cbs : gmap string breaker) (b : breaker).

Lemma segment_step_lookup s cbs name :
  segment_step cbs s !! name = segment_on s name <$> cbs !! name.
Proof.
  assert (Halter : forall (f : breaker -> breaker) n,
            alter f n cbs !! name =
            (fun b => if decide (n = name) then f b else b) <$> cbs !! name).
  { intros f n. destruct (decide (n = name)) as [->|Hne].
    - rewrite lookup_alter_eq. destruct (cbs !! name); reflexivity.
    - rewrite lookup_alter_ne by exact Hne. destruct (cbs !! name); reflexivity. }
  destruct s as [n t|n|n t|n|n t]; simpl;
    unfold breaker_success, breaker_failure, probe_success, probe_failure;
    try (rewrite Halter; reflexivity).
  unfold breaker_gate. destruct (decide (n = name)) as [->|Hne].
  - destruct (cbs !! name) as [b|] eqn:E; simpl; [|rewrite E; reflexivity].
    destruct (decide (name = name)) as [_|?]; [|contradiction].
    destruct (decide (state b = OPEN)) as [Ho|Ho].
    + destruct (30000 <? t - lastFailure b)%Z eqn:L; simpl.
      * rewrite lookup_alter_eq, E. simpl. apply Z.ltb_lt in L.
        destruct (decide (state b = OPEN /\ 30000 < t - lastFailure b)) as [_|Hn];
          [reflexivity | exfalso; apply Hn; split; assumption].
      * rewrite E. apply Z.ltb_ge in L.
        destruct (decide (state b = OPEN /\ 30000 < t - lastFailure b)) as [[_ ?]|_];
          [lia | reflexivity].
    + simpl. rewrite E.
      destruct (decide (state b = OPEN /\ 30000 < t - lastFailure b)) as [[? _]|_];
        [contradiction | reflexivity].
  - assert (Hl : (if cbs !! n is Some bn
                  then if decide (state bn = OPEN)
                       then if (30000 <? t - lastFailure bn)%Z
                            then (alter (set_state HALF_OPEN) n cbs, true)
                            else (cbs, false)
                       else (cbs, true)
                  else (cbs, true)).1 !! name = cbs !! name).
    { destruct (cbs !! n) as [bn|]; [|reflexivity].
      destruct (decide (state bn = OPEN)); [|reflexivity].
      destruct (30000 <? t - lastFailure bn)%Z; [|reflexivity].
      simpl. apply lookup_alter_ne. exact Hne. }
    rewrite Hl. destruct (cbs !! name) as [b|]; simpl; [|reflexivity].
    destruct (decide (n = name)); [contradiction | reflexivity].
Qed.

Lemma segments_lookup segs : forall cbs name,
  foldl segment_step cbs segs !! name =
  (fun b => foldl (fun acc s => segment_on s name acc) b segs) <$> cbs !! name.
Proof.
  induction segs as [|s segs IH]; intros cbs name; simpl.
  - destruct (cbs !! name); reflexivity.
  - rewrite IH, segment_step_lookup. destruct (cbs !! name); reflexivity.
Qed.

Lemma segment_on_consistent s name b :
  closed_below_three b -> closed_below_three (segment_on s name b).
Proof.
  unfold closed_below_three. destruct b as [f st lf]. simpl.
  destruct s as [n t|n|n t|n|n t]; simpl;
    destruct (decide (n = name)); try (intros H; exact H);
    unfold on_success, on_error, on_probe_success, on_probe_error; simpl.
  - destruct (decide (st = OPEN /\ 30000 < t - lf)) as [[-> _]|_];
      [|intros H; exact H].
    simpl. intros [H1 H2]. split; [discriminate|].
    intros Hf. specialize (H2 Hf). discriminate.
  - destruct st; simpl; intros [H1 H2]; split; intros H;
      try discriminate; try reflexivity; try lia; auto.
  - destruct f as [|[|f]]; destruct st; simpl; intros [H1 H2]; split; intros H;
      try discriminate; try reflexivity; try lia;
      try (specialize (H2 ltac:(lia)); discriminate).
  - intros _. split; [lia | reflexivity].
  - destruct f as [|[|f]]; destruct st; simpl; intros [H1 H2]; split; intros H;
      try discriminate; try reflexivity; try lia;
      try (specialize (H2 ltac:(lia)); discriminate).
Qed.

Lemma segment_step_consistent s cbs :
  breakers_consistent cbs -> breakers_consistent (segment_step cbs s).
Proof.
  intros H name b'. rewrite segment_step_lookup.
  destruct (cbs !! name) as [b|] eqn:E; simpl; [|discriminate].
  intros [= <-]. apply segment_on_consistent. exact (H name b E).
Qed.

Lemma segments_consistent segs : forall cbs,
  breakers_consistent cbs -> breakers_consistent (foldl segment_step cbs segs).
Proof.
  induction segs as [|s segs IH]; intros cbs H; [exact H|].
  simpl. apply IH. apply segment_step_consistent. exact H.
Qed.

Lemma segment_step_dom s cbs : dom (segment_step cbs s) = dom cbs.
Proof.
  apply set_eq. intros name. rewrite !elem_of_dom, segment_step_lookup.
  destruct (cbs !! name); simpl; split; intros [x Hx]; eauto; discriminate.
Qed.

Lemma segments_dom segs : forall cbs, dom (foldl segment_step cbs segs) = dom cbs.
Proof.
  induction segs as [|s segs IH]; intros cbs; [reflexivity|].
  simpl. rewrite IH. apply segment_step_dom.
Qed.

Lemma healthCheck_as_segments probe clock l :
  forall (acc : gmap string breaker * gmap string health_result),
    (foldl (healthCheck_step probe clock) acc l).1 =
    foldl segment_step acc.1 (List.map (probe_segment probe clock) l).
Proof.
  induction l as [|e l IH]; intros acc; [reflexivity|].
  simpl. rewrite IH. f_equal.
  unfold healthCheck_step, probe_segment, axios_ok.
  destruct (axios (probe e.1)) as [error|[st data]]; reflexivity.
Qed.

(** The breakers after an operation are those before it, run through some
    segments. *)
Lemma run_op_as_segments o (g : gateway) :
  exists segs,
    circuitBreakers (ApiGateway.run_op URL_host o g) =
    foldl segment_step (circuitBreakers g) segs.
Proof.
  destruct o as [n req t1 net t2|probe clock t|probe clock|now| |]; simpl.
  - eexists. apply proxy_as_segments.
  - exists (List.map (probe_segment probe clock)
                     (map_to_list (getAllServices (registry g)))).
    unfold healthCheck.
    destruct (foldl (healthCheck_step probe clock) (circuitBreakers g, ∅)
                    (map_to_list (getAllServices (registry g))))
      as [cbs results] eqn:F.
    simpl. change cbs with (cbs, results).1. rewrite <- F.
    apply healthCheck_as_segments.
  - exists []. reflexivity.
  - exists []. reflexivity.
  - exists []. reflexivity.
  - exists []. reflexivity.
Qed.

Lemma run_as_segments ops : forall (g : gateway),
  exists segs,
    circuitBreakers (ApiGateway.run URL_host ops g) =
    foldl segment_step (circuitBreakers g) segs.
Proof.
  induction ops as [|o ops IH]; intros g; [exists []; reflexivity|].
  destruct (IH (ApiGateway.run_op URL_host o g)) as [segs2 H2].
  destruct (run_op_as_segments o g) as [segs1 H1].
  exists (segs1 ++ segs2)%list.
  transitivity (circuitBreakers
                  (ApiGateway.run URL_host ops (ApiGateway.run_op URL_host o g)));
    [reflexivity|].
  rewrite H2, H1. symmetry. apply foldl_app.
Qed.

Lemma initial_breakers_consistent : breakers_consistent initial_breakers.
Proof.
  intros name b. unfold initial_breakers.
  rewrite !lookup_insert, lookup_empty.
  repeat case_decide; intros [= <-]; split; intros; (reflexivity || simpl; lia).
Qed.

End BreakerInvariants.

Section ProxyMore.

Variable URL_host : string -> option string.

Implicit Types (g : gateway) (b : breaker).

Lemma proxy_other_breaker name req t_gate net t_catch g other :
  other <> name ->
  breaker_of other (proxyToService URL_host name req t_gate net t_catch g).1.1 =
  breaker_of other g.
Proof.
  intros Hne. unfold breaker_of. rewrite proxy_as_segments, segments_lookup.
  destruct (circuitBreakers g !! other) as [b|]; [|reflexivity]. simpl. f_equal.
  unfold proxy_segments.
  assert (Hd : forall (x y : breaker), (if decide (name = other) then x else y) = y)
    by (intros x y; destruct (decide (name = other)); [congruence | reflexivity]).
  destruct (breaker_gate name t_gate (circuitBreakers g)).2; simpl;
    rewrite ?Hd; [|reflexivity].
  destruct (discover name (registry g)) as [service|]; [|reflexivity].
  destruct (URL_host (url (info service))); [destruct (axios net)|]; simpl;
    rewrite ?Hd; reflexivity.
Qed.

Lemma proxy_absent_breaker name req t_gate net t_catch g :
  breaker_of name g = None ->
  circuitBreakers (proxyToService URL_host name req t_gate net t_catch g).1.1 =
  circuitBreakers g.
Proof.
  intros E. apply map_eq. intros k.
  destruct (decide (k = name)) as [->|Hne].
  - unfold breaker_of in E. rewrite proxy_as_segments, segments_lookup, E.
    reflexivity.
  - apply (proxy_other_breaker name req t_gate net t_catch g k Hne).
Qed.

Lemma proxy_calls name req t_gate net t_catch g :
  (proxyToService URL_host name req t_gate net t_catch g).2 = [] \/
  exists service host,
    discover name (registry g) = Some service /\
    URL_host (url (info service)) = Some host /\
    (proxyToService URL_host name req t_gate net t_catch g).2 =
      [forwarded name service req host].
Proof.
  unfold proxyToService.
  destruct (breaker_gate name t_gate (circuitBreakers g)) as [cbs pass].
  destruct pass; simpl; [|auto].
  destruct (discover name (registry g)) as [service|]; [|auto].
  destruct (URL_host (url (info service))) as [host|] eqn:Hh.
  - right. exists service, host. split; [reflexivity|]. split; [exact Hh|].
    destruct (axios net) as [error|[st data]];
      [destruct (response error) as [[st data]|]|]; reflexivity.
  - left. reflexivity.
Qed.

End ProxyMore.

(** Over the life of a gateway, whatever the requests and their outcomes,
    every breaker is CLOSED exactly while its counter is below three; this
    holds as well between the awaits of requests in flight, in whatever
    order their segments run. On such a breaker the [catch] block of the
    proxy handler and the failed probe of the health endpoint make the
    same update. *)
Theorem breaker_closed_iff_counter_below_three :
  forall (URL_host : string -> option string) (reg : gmap string ServiceRecord),
    (forall ops name b,
       breaker_of name (ApiGateway.run URL_host ops (new_gateway reg)) = Some b ->
       (state b = CLOSED <-> (failures b < 3)%nat)) /\
    (forall segs name b,
       foldl segment_step initial_breakers segs !! name = Some b ->
       (state b = CLOSED <-> (failures b < 3)%nat)) /\
    (forall now b,
       (state b = CLOSED <-> (failures b < 3)%nat) ->
       on_error now b = on_probe_error now b).
Proof.
  intros URL_host reg. split; [|split].
  - intros ops name b E.
    destruct (run_as_segments URL_host ops (new_gateway reg)) as [segs Hs].
    unfold breaker_of in E. rewrite Hs in E.
    exact (segments_consistent segs _ initial_breakers_consistent name b E).
  - intros segs name b E.
    exact (segments_consistent segs _ initial_breakers_consistent name b E).
  - intros now [f st lf]. simpl. intros [H1 H2].
    unfold on_error, on_probe_error. simpl.
    destruct f as [|[|f]]; simpl; try reflexivity;
      destruct (decide (st = HALF_OPEN)) as [->|_]; try reflexivity;
      specialize (H2 ltac:(lia)); discriminate.
Qed.

(** The gateway never creates and never drops a breaker: after any
    operations the entries are those of the three services the constructor
    names; and a proxied call for a name without an entry leaves every
    breaker as it was. *)
Theorem breaker_entries_never_change :
  forall (URL_host : string -> option string),
    (forall reg ops name,
       is_Some (breaker_of name (ApiGateway.run URL_host ops (new_gateway reg))) <->
       name = "user-service" \/ name = "item-service" \/ name = "list-service") /\
    (forall o g,
       dom (circuitBreakers (ApiGateway.run_op URL_host o g)) =
       dom (circuitBreakers g)) /\
    (forall name req t_gate net t_catch g,
       breaker_of name g = None ->
       circuitBreakers (proxyToService URL_host name req t_gate net t_catch g).1.1 =
       circuitBreakers g).
Proof.
  intros URL_host. split; [|split].
  - intros reg ops name.
    destruct (run_as_segments URL_host ops (new_gateway reg)) as [segs Hs].
    unfold breaker_of. rewrite Hs, segments_lookup. simpl.
    unfold initial_breakers. rewrite !lookup_insert, lookup_empty.
    repeat case_decide; subst; simpl; split; intros Hx; eauto;
      try (destruct Hx as [? Hx]; discriminate);
      destruct Hx as [?|[?|?]]; congruence.
  - intros o g. destruct (run_op_as_segments URL_host o g) as [segs ->].
    apply segments_dom.
  - intros name req t_gate net t_catch g E. apply proxy_absent_breaker. exact E.
Qed.

(** A proxied call is the business of one service: it never changes the
    registry or the breaker of another service, and it dispatches one call
    at most, to the address discovered for its service, with the method and
    the body of the request, its headers but for the host, which is the
    host of that address, and a timeout of 10 s. *)
Theorem proxy_touches_one_service :
  forall (URL_host : string -> option string) (name : string) (req : request)
         (t_gate : Z) (net : outcome string) (t_catch : Z) (g : gateway),
    let r := proxyToService URL_host name req t_gate net t_catch g in
    registry r.1.1 = registry g /\
    (forall other, other <> name -> breaker_of other r.1.1 = breaker_of other g) /\
    (length r.2 <= 1)%nat /\
    (forall c, c ∈ r.2 ->
       target c = name /\ c_method c = method req /\ c_data c = Body (body req) /\
       c_timeout c = 10000 /\
       (forall k, k <> "host" -> c_headers c !! k = headers req !! k) /\
       exists service,
         discover name (registry g) = Some service /\
         c_headers c !! "host" = URL_host (url (info service)) /\
         c_url c = targetUrl name service req).
Proof.
  intros URL_host name req t_gate net t_catch g r.
  split; [apply proxy_registry|].
  split; [intros other Hne; apply proxy_other_breaker; exact Hne|].
  destruct (proxy_calls URL_host name req t_gate net t_catch g)
    as [Hc|(service & host & Hd & Hh & Hc)]; fold r in Hc; rewrite Hc.
  - split; [simpl; lia | intros c Hin; inversion Hin].
  - split; [simpl; lia|]. intros c Hin.
    apply list_elem_of_singleton in Hin as ->. simpl.
    repeat split.
    + intros k Hk. apply lookup_insert_ne. congruence.
    + exists service. rewrite Hh, lookup_insert_eq. auto.
Qed.

(** The proxy handler answers with the breaker's own 503, the one that
    carries the breaker state, exactly when the breaker of the service is
    OPEN with at most 30 s since its last failure. A breaker in HALF_OPEN
    rejects nothing: every call that finds it so is dispatched, whenever it
    arrives. *)
Theorem breaker_rejects_only_while_cooling :
  forall (URL_host : string -> option string) (name : string) (req : request)
         (t_gate : Z) (net : outcome string) (t_catch : Z) (g : gateway),
    let r := proxyToService URL_host name req t_gate net t_catch g in
    ((exists m e, json r.1.2 = Failure m e (Some "OPEN")) <->
     (exists b, breaker_of name g = Some b /\ state b = OPEN /\
                t_gate - lastFailure b <= 30000)) /\
    (forall b service host,
       breaker_of name g = Some b -> state b = HALF_OPEN ->
       discover name (registry g) = Some service ->
       URL_host (url (info service)) = Some host ->
       r.2 = [forwarded name service req host]).
Proof.
  intros URL_host name req t_gate net t_catch g r. split.
  - split.
    + intros (m & e & Hj). unfold r, proxyToService in Hj.
      destruct (breaker_of name g) as [b|] eqn:E.
      * destruct (cooling_dec t_gate b) as [[Ho Ht]|Hn];
          [exists b; split; [reflexivity | split; assumption]|].
        exfalso. destruct (gate_pass name t_gate _ _ E Hn) as (cbs' & Hg & _).
        rewrite Hg in Hj. simpl in Hj.
        destruct (discover name (registry g)) as [service|];
          [|discriminate Hj].
        destruct (URL_host (url (info service)));
          [destruct (axios net) as [error|[st data]];
           [destruct (response error) as [[st data]|]|]|];
          discriminate Hj.
      * exfalso. unfold breaker_of in E. unfold breaker_gate in Hj.
        rewrite E in Hj. simpl in Hj.
        destruct (discover name (registry g)) as [service|];
          [|discriminate Hj].
        destruct (URL_host (url (info service)));
          [destruct (axios net) as [error|[st data]];
           [destruct (response error) as [[st data]|]|]|];
          discriminate Hj.
    + intros (b & E & Ho & Ht). unfold r.
      rewrite (proxy_fast_fail URL_host name req t_gate net t_catch g b E);
        [simpl; eauto | split; assumption].
  - intros b service host E Hh Hd Hu.
    assert (Hn : ~ cooling t_gate b) by (intros [Ho _]; congruence).
    exact (proj1 (proxy_dispatched_breaker URL_host name req t_gate net t_catch
                    g b service host E Hn Hd Hu)).
Qed.

(** A call that succeeds on a CLOSED breaker relays the status and the body
    of the downstream response and leaves the breaker as it was: the
    counter keeps the failures counted before. *)
Theorem success_on_closed_keeps_counter :
  forall (URL_host : string -> option string) (name : string) (req : request)
         (t_gate t_catch : Z) (g : gateway) (b : breaker)
         (service : ServiceRecord) (host : string) (st : Z) (data : string),
    breaker_of name g = Some b -> state b = CLOSED ->
    discover name (registry g) = Some service ->
    URL_host (url (info service)) = Some host ->
    200 <= st < 300 ->
    proxyToService URL_host name req t_gate (Reply st data) t_catch g =
    (g, {| status := st; json := Relayed data |},
     [forwarded name service req host]).
Proof.
  intros URL_host name req t_gate t_catch g b service host st data
         E Hc Hd Hh [H1 H2].
  assert (Hg : breaker_gate name t_gate (circuitBreakers g) = (circuitBreakers g, true)).
  { unfold breaker_gate. unfold breaker_of in E. rewrite E.
    destruct (decide (state b = OPEN)); [congruence | reflexivity]. }
  rewrite (proxy_dispatched URL_host name req t_gate (Reply st data) t_catch
             g service host); [|rewrite Hg; reflexivity | exact Hd | exact Hh].
  unfold axios. apply Z.leb_le in H1. apply Z.ltb_lt in H2. rewrite H1, H2. simpl.
  rewrite Hg. simpl. f_equal. f_equal.
  destruct g as [cbs reg]. unfold with_breakers. simpl. f_equal.
  unfold breaker_success. apply map_eq. intros k.
  destruct (decide (k = name)) as [->|Hne].
  - rewrite lookup_alter_eq. unfold breaker_of in E. simpl in E. rewrite E. simpl.
    unfold on_success. destruct (decide (state b = HALF_OPEN)); [congruence|].
    reflexivity.
  - apply lookup_alter_ne. congruence.
Qed.

(** Two refused calls, then a call that succeeds: the counter stays at
    two. *)
Lemma success_on_closed_keeps_counter_witness :
  let g := ApiGateway.run Bench.host_of
             [Proxy "item-service" Bench.get_item_5 10 Bench.down 11;
              Proxy "item-service" Bench.get_item_5 20 Bench.down 21]
             (new_gateway Bench.three_services) in
  proxyToService Bench.host_of "item-service" Bench.get_item_5 30
                 (Reply 200 "[]") 31 g =
  (g, {| status := 200; json := Relayed "[]" |},
   [forwarded "item-service" (Bench.service_at "http://localhost:3002" 0 true)
              Bench.get_item_5 "localhost:3002"]).
Proof.
  intros g.
  apply (success_on_closed_keeps_counter Bench.host_of "item-service"
           Bench.get_item_5 30 31 g
           {| failures := 2; state := CLOSED; lastFailure := 21 |});
    try reflexivity; lia.
Defined.

(** A proxied call that misses in the registry is no failure and no success
    for the breaker: the counter and the time of the last failure stay. A
    breaker that was OPEN for more than 30 s is left in HALF_OPEN by such a
    call, and otherwise the state stays too. *)
Theorem discovery_miss_leaves_counter :
  forall (URL_host : string -> option string) (name : string) (req : request)
         (t_gate : Z) (net : outcome string) (t_catch : Z) (g : gateway)
         (b : breaker),
    breaker_of name g = Some b ->
    discover name (registry g) = None ->
    exists b',
      breaker_of name (proxyToService URL_host name req t_gate net t_catch g).1.1
        = Some b' /\
      failures b' = failures b /\ lastFailure b' = lastFailure b /\
      state b' = (if decide (state b = OPEN /\ 30000 < t_gate - lastFailure b)
                  then HALF_OPEN else state b).
Proof.
  intros URL_host name req t_gate net t_catch g b E Hd.
  unfold breaker_of in *. rewrite proxy_as_segments, segments_lookup, E. simpl.
  eexists. split; [reflexivity|].
  unfold proxy_segments. rewrite Hd.
  destruct (breaker_gate name t_gate (circuitBreakers g)).2; simpl;
    (destruct (decide (name = name)) as [_|?]; [|contradiction]);
    destruct (decide (state b = OPEN /\ 30000 < t_gate - lastFailure b));
    repeat split.
Qed.

(** An open breaker, its service gone from the registry, 40 s later. *)
Lemma discovery_miss_leaves_counter_witness :
  exists b',
    breaker_of "item-service"
      (proxyToService Bench.host_of "item-service" Bench.get_item_5 40031
         Bench.down 40032 (with_registry ∅ Bench.tripped)).1.1 = Some b' /\
    failures b' = 3%nat /\ lastFailure b' = 31 /\
    state b' = (if decide (OPEN = OPEN /\ 30000 < 40031 - 31)
                then HALF_OPEN else OPEN).
Proof.
  apply (discovery_miss_leaves_counter Bench.host_of "item-service" Bench.get_item_5
           40031 Bench.down 40032 (with_registry ∅ Bench.tripped)
           {| failures := 3; state := OPEN; lastFailure := 31 |});
    reflexivity.
Defined.

(** ** The health endpoint and the health timer *)

Section HealthMore.

Import Notions.

Implicit Types (g : gateway) (reg : gmap string ServiceRecord).


Lemma registered_in_entries reg name :
  name ∈ (map_to_list reg).*1 <-> is_Some (reg !! name).
Proof.
  split.
  - intros ([k r] & -> & Hin)%list_elem_of_fmap.
    apply elem_of_map_to_list in Hin. eauto.
  - intros [r E]. apply list_elem_of_fmap. exists (name, r).
    split; [reflexivity | apply elem_of_map_to_list; exact E].
Qed.

Lemma updateHealth_lookup n h t reg k :
  (ServiceRegistry.updateHealth n h t reg).1 !! k =
  if decide (n = k) then checked h t <$> reg !! k else reg !! k.
Proof.
  unfold ServiceRegistry.updateHealth.
  destruct (decide (n = k)) as [->|Hne].
  - destruct (reg !! k) as [r|] eqn:E; simpl; [apply lookup_insert_eq|].
    destruct (Js.inherited k); exact E.
  - destruct (reg !! n) as [r|]; simpl; [apply lookup_insert_ne; exact Hne|].
    destruct (Js.inherited n); reflexivity.
Qed.

Lemma healthCycle_fold_lookup probe clock l : forall reg name,
  foldl (healthCycle_step probe clock) reg l !! name =
  if decide (name ∈ l.*1)
  then checked (axios_ok (probe name)) (clock name) <$> reg !! name
  else reg !! name.
Proof.
  induction l as [|e l IH]; intros reg name.
  - cbn. rewrite decide_False; [reflexivity | apply not_elem_of_nil].
  - rewrite fmap_cons. cbn [foldl]. rewrite IH.
    assert (Hstep : healthCycle_step probe clock reg e =
                    (ServiceRegistry.updateHealth e.1 (axios_ok (probe e.1))
                                                  (clock e.1) reg).1).
    { unfold healthCycle_step, axios_ok.
      destruct (axios (probe e.1)); reflexivity. }
    rewrite Hstep, updateHealth_lookup.
    destruct (decide (e.1 = name)) as [<-|Hne].
    + rewrite (decide_True (P := e.1 ∈ e.1 :: l.*1)) by (left; reflexivity).
      destruct (decide (e.1 ∈ l.*1)); destruct (reg !! e.1); reflexivity.
    + destruct (decide (name ∈ l.*1)) as [Hin|Hout].
      * rewrite decide_True by (right; exact Hin). reflexivity.
      * rewrite decide_False; [reflexivity|].
        intros [?|?]%elem_of_cons; [congruence | contradiction].
Qed.

Lemma healthCycle_lookup probe clock g name :
  registry (healthCycle probe clock g) !! name =
  checked (axios_ok (probe name)) (clock name) <$> registry g !! name.
Proof.
  unfold healthCycle, getAllServices. simpl. rewrite healthCycle_fold_lookup.
  destruct (decide (name ∈ (map_to_list (registry g)).*1)) as [Hin|Hout];
    [reflexivity|].
  destruct (registry g !! name) as [r|] eqn:E; [|reflexivity].
  exfalso. apply Hout. apply registered_in_entries. eauto.
Qed.

End HealthMore.


(** A cycle of the health timer probes every registered service and writes
    the outcome into its record: healthy exactly when the probe resolved,
    with the time of the probe as the last health check; the registered
    info and the registration time stay, no record is added or removed, and
    the breakers are not touched. *)
Theorem health_cycle_updates_every_record :
  forall (probe : string -> outcome string) (clock : string -> Z) (g : gateway),
    let g' := healthCycle probe clock g in
    (forall name,
       registry g' !! name =
       (fun r => {| info := info r; registeredAt := registeredAt r;
                    lastHealthCheck := clock name;
                    healthy := Notions.axios_ok (probe name) |})
       <$> registry g !! name) /\
    dom (registry g') = dom (registry g) /\
    circuitBreakers g' = circuitBreakers g.
Proof.
  intros probe clock g g'. split; [|split].
  - intros name. apply healthCycle_lookup.
  - apply set_eq. intros name. rewrite !elem_of_dom. unfold g'.
    rewrite healthCycle_lookup.
    destruct (registry g !! name); simpl; split; intros [x Hx]; eauto; discriminate.
  - reflexivity.
Qed.

(** The timer and the proxy together: after a cycle in which the probe of
    a service was rejected, a proxied request for that service is answered
    503 and nothing is dispatched; after a cycle in which the probe of a
    registered service resolved, the service is discoverable, whatever its
    flag was before. *)
Theorem failed_probe_stops_proxied_traffic :
  forall (URL_host : string -> option string) (probe : string -> outcome string)
         (clock : string -> Z) (g : gateway) (name : string),
    let g' := healthCycle probe clock g in
    (rejected (probe name) ->
     discover name (registry g') = None /\
     forall req t_gate net t_catch,
       let r := proxyToService URL_host name req t_gate net t_catch g' in
       status r.1.2 = 503 /\ r.2 = []) /\
    (resolved (probe name) -> is_Some (registry g !! name) ->
     is_Some (discover name (registry g'))).
Proof.
  intros URL_host probe clock g name g'.
  assert (Hl := healthCycle_lookup probe clock g name). fold g' in Hl. split.
  - intros [error Hr].
    assert (Hd : discover name (registry g') = None).
    { unfold discover. rewrite Hl. unfold Notions.axios_ok. rewrite Hr.
      destruct (registry g !! name); reflexivity. }
    split; [exact Hd|]. intros req t_gate net t_catch.
    apply proxy_discovery_miss. exact Hd.
  - intros [x Hr] [r E]. unfold discover. rewrite Hl, E.
    unfold Notions.axios_ok. rewrite Hr. simpl. eauto.
Qed.

(** The cycle of the user service's probe failing, then a login request. *)
Lemma failed_probe_stops_proxied_traffic_witness :
  let g' := healthCycle (fun _ => Bench.down) (fun _ => 30000)
                        (new_gateway Bench.three_services) in
  discover "user-service" (registry g') = None /\
  forall req t_gate net t_catch,
    let r := proxyToService Bench.host_of "user-service" req t_gate net t_catch g' in
    status r.1.2 = 503 /\ r.2 = [].
Proof.
  apply (proj1 (failed_probe_stops_proxied_traffic Bench.host_of
                  (fun _ => Bench.down) (fun _ => 30000)
                  (new_gateway Bench.three_services) "user-service")).
  eexists. reflexivity.
Defined.

(** The timer and the sweep together: a record that a cycle of the health
    timer has probed is kept by every sweep made up to two minutes after
    the probe, whether the probe resolved or not; so a service whose probes
    keep failing is never removed while the timer runs. *)
Theorem probed_record_survives_sweep :
  forall (probe : string -> outcome string) (clock : string -> Z) (g : gateway)
         (name : string) (r : ServiceRecord) (now : Z),
    registry g !! name = Some r ->
    now - clock name <= 2 * 60 * 1000 ->
    (ServiceRegistry.cleanup now (registry (healthCycle probe clock g))).1 !! name =
    Some {| info := info r; registeredAt := registeredAt r;
            lastHealthCheck := clock name;
            healthy := Notions.axios_ok (probe name) |}.
Proof.
  intros probe clock g name r now E Hage.
  rewrite cleanup_lookup, healthCycle_lookup, E. simpl.
  destruct (inactive now (Notions.checked (Notions.axios_ok (probe name))
                                          (clock name) r)) eqn:Hi;
    [|reflexivity].
  apply inactive_ms in Hi. simpl in Hi. lia.
Qed.

(** A record registered at time 0, probed without success at 600000, swept
    at 660000. *)
Lemma probed_record_survives_sweep_witness :
  (ServiceRegistry.cleanup 660000
     (registry (healthCycle (fun _ => Bench.down) (fun _ => 600000)
                            (new_gateway Bench.three_services)))).1
    !! "item-service" =
  Some {| info := {| url := "http://localhost:3002"; metadata := [] |};
          registeredAt := 0; lastHealthCheck := 600000; healthy := false |}.
Proof.
  apply (probed_record_survives_sweep (fun _ => Bench.down) (fun _ => 600000)
           (new_gateway Bench.three_services) "item-service"
           (Bench.service_at "http://localhost:3002" 0 true) 660000).
  - reflexivity.
  - lia.
Defined.

(** ** The strings of the gateway *)

Section StringFacts.

Lemma prefix_split (p s : string) :
  String.prefix p s = true -> s = p +:+ Js.drop (String.length p) s.
Proof.
  revert s. induction p as [|a p IH]; intros s H; [reflexivity|].
  destruct s as [|b s]; [discriminate|]. simpl in H.
  destruct (ascii_dec a b) as [->|]; [|discriminate].
  change (String b s = String b (p +:+ Js.drop (String.length p) s)).
  f_equal. apply IH. exact H.
Qed.

Lemma prefix_of_both (a b s : string) :
  String.prefix a s = true -> String.prefix b s = true ->
  String.prefix a b = true \/ String.prefix b a = true.
Proof.
  revert b s. induction a as [|x a IH]; intros b s Ha Hb;
    [left; destruct b; reflexivity|].
  destruct b as [|y b]; [right; reflexivity|].
  destruct s as [|z s]; [discriminate|]. simpl in Ha, Hb.
  destruct (ascii_dec x z) as [->|]; [|discriminate].
  destruct (ascii_dec y z) as [->|]; [|discriminate].
  simpl. destruct (ascii_dec z z) as [_|?]; [|contradiction].
  exact (IH b s Ha Hb).
Qed.

(** The token is the header without its bearer prefix; put back behind the
    prefix it is the header again. *)
Lemma bearer_token_round_trip (req : request) (authHeader : string) :
  bearer req = Some authHeader ->
  header req "authorization" = Some authHeader /\
  "Bearer " +:+ Js.replace authHeader "Bearer " "" = authHeader.
Proof.
  unfold bearer. destruct (header req "authorization") as [h|]; [|discriminate].
  unfold Js.startsWith. destruct (String.prefix "Bearer " h) eqn:Hp; [|discriminate].
  intros [= <-]. split; [reflexivity|].
  destruct h as [|c h]; [discriminate|].
  unfold Js.replace. fold Js.replace. rewrite Hp.
  symmetry. apply (prefix_split "Bearer " (String c h) Hp).
Qed.

Lemma replace_when_absent (s pat rep : string) :
  Js.includes s pat = false -> Js.replace s pat rep = s.
Proof.
  induction s as [|c s IH]; simpl; intros H.
  - apply orb_false_iff in H as [-> _]. reflexivity.
  - apply orb_false_iff in H as [-> H]. f_equal. apply IH. exact H.
Qed.

Lemma hex_digit_inj (a b : nat) :
  (a < 16)%nat -> (b < 16)%nat -> hex_digit a = hex_digit b -> a = b.
Proof.
  intros Ha Hb.
  do 16 (destruct a as [|a];
         [do 16 (destruct b as [|b]; [first [reflexivity | discriminate]|]); lia|]).
  lia.
Qed.

Lemma hex_digit_unreserved (n : nat) : unreserved (hex_digit n) = true.
Proof. do 16 (destruct n as [|n]; [reflexivity|]). reflexivity. Qed.

End StringFacts.

(** ** The dashboard *)

Section DashboardMore.

Lemma filters_disjoint {A : Type} (P Q : A -> Prop)
      `{!forall x, Decision (P x)} `{!forall x, Decision (Q x)} (l : list A) :
  (forall x, P x -> Q x -> False) ->
  (length (filter P l) + length (filter Q l) <= length l)%nat.
Proof.
  intros Hd. induction l as [|x l IH]; [reflexivity|].
  rewrite !filter_cons.
  destruct (decide (P x)) as [Hp|Hp]; destruct (decide (Q x)) as [Hq|Hq];
    simpl; try lia.
  destruct (Hd x Hp Hq).
Qed.

End DashboardMore.

(** The credential gate of the dashboard. Without a bearer header the
    answer is 401 and nothing is called. With one, the only call made
    before the check is the validation call to the user service, carrying
    the token: when the user service answers that the token is not valid
    the answer is 401, and when the validation call is rejected, which is
    what a non-2xx answer is, the answer is 500 with the message of the
    error; in both cases nothing else is called. A call to another service
    is made only for a credential the user service validated. *)
Theorem dashboard_credential_gate :
  forall (req : request) (net_validate : outcome validate_reply)
         (net_lists : outcome lists_reply) (net_items : outcome items_reply)
         (g : gateway),
    let r := getDashboard req net_validate net_lists net_items g in
    (bearer req = None ->
     r = ({| status := 401; json := Failure "Token obrigatório" None None |}, [])) /\
    (forall authHeader service,
       bearer req = Some authHeader ->
       discover "user-service" (registry g) = Some service ->
       let validation :=
         {| target := "user-service"; c_method := "POST";
            c_url := url (info service) +:+ "/auth/validate";
            c_headers := ∅;
            c_data := Token (Js.replace authHeader "Bearer " "");
            c_timeout := 5000 |} in
       (forall st v, axios net_validate = inr (st, v) ->
                     validate_success v = false ->
                     r = ({| status := 401;
                             json := Failure "Token inválido" None None |},
                          [validation])) /\
       (forall error, axios net_validate = inl error ->
                      r = (dashboard_error (message error), [validation]))) /\
    (forall c, c ∈ r.2 -> target c <> "user-service" ->
               credential_ok req net_validate g).
Proof.
  intros req nv nl ni g r. split; [|split].
  - intros Hb. unfold r, getDashboard. rewrite Hb. reflexivity.
  - intros authHeader service Hb Hu validation. split.
    + intros st v Ha Hs. unfold r, getDashboard, bind, await, url_of, ret, throw.
      rewrite Hb, Hu. cbn beta iota. rewrite Ha. cbn beta iota. cbn [snd].
      rewrite Hs. reflexivity.
    + intros error Ha. unfold r, getDashboard, bind, await, url_of, ret, throw.
      rewrite Hb, Hu. cbn beta iota. rewrite Ha. reflexivity.
  - intros c Hin Hc. revert Hin.
    unfold r, credential_ok, getDashboard, bind, await, url_of, ret, throw.
    destruct (bearer req) as [authHeader|]; [|intros Hin; inversion Hin].
    destruct (discover "user-service" (registry g)) as [userService|];
      [|intros Hin; inversion Hin].
    cbn beta iota.
    destruct (axios nv) as [e0|[st0 v]]; cbn beta iota;
      [intros Hin; apply list_elem_of_singleton in Hin as ->; contradiction|].
    cbn [snd]. destruct (validate_success v) eqn:Hs; cbn [negb];
      [|intros Hin; apply list_elem_of_singleton in Hin as ->; contradiction].
    intros _. exists authHeader, userService, st0, v. auto.
Qed.

(** The statistics of a dashboard, read off the fetched lists: the total is
    their number; the active and the completed ones together are no more
    than the total; the recent lists are the first five of the fetched
    lists, in the order the list service gave them. *)
Theorem dashboard_statistics_bounds :
  forall (u : User) (fetched : list ShoppingList) (total : Z),
    let d := dashboard_data u fetched total in
    user d = u /\
    totalLists (statistics d) = length fetched /\
    stat_totalItems (statistics d) = total /\
    (activeLists (statistics d) + completedLists (statistics d)
       <= totalLists (statistics d))%nat /\
    length (recentLists d) = Nat.min 5 (length fetched) /\
    List.map recent_id (recentLists d) = List.map list_id (take 5 fetched).
Proof.
  intros u fetched total d. unfold d, dashboard_data.
  cbn [user statistics totalLists stat_totalItems activeLists completedLists
       recentLists].
  repeat split.
  - apply filters_disjoint. intros l H1 H2.
    apply String.eqb_eq in H1. rewrite H1 in H2. discriminate.
  - rewrite length_map. apply length_take.
  - rewrite map_map. reflexivity.
Qed.

(** ** The search *)

(** A search without a query, or with an empty one, is answered 400 and
    nothing is called, with or without a credential. A search with a query
    is always answered 200 with the success flag: it calls the item
    service first, if that is discovered, with the query percent-encoded in
    the address, and the list service after it only when the request has a
    bearer header. *)
Theorem search_calls :
  forall (toLowerCase : string -> string)
         (req : request) (net_search : outcome search_reply)
         (net_lists : outcome lists_reply) (t_res : Z) (g : gateway),
    let r := globalSearch toLowerCase req net_search net_lists t_res g in
    (query_q req = None \/ query_q req = Some "" ->
     r = ({| status := 400;
             json := Failure "Parâmetro de busca (q) é obrigatório" None None |},
          [])) /\
    (forall q, query_q req = Some q -> q <> "" ->
       status r.1 = 200 /\ success_flag (json r.1) = Some true /\
       List.map target r.2 =
         (match discover "item-service" (registry g) with
          | Some _ => ["item-service"]
          | None => []
          end ++
          match bearer req, discover "list-service" (registry g) with
          | Some _, Some _ => ["list-service"]
          | _, _ => []
          end)%list /\
       (forall c, c ∈ r.2 -> target c = "item-service" ->
          exists itemService,
            discover "item-service" (registry g) = Some itemService /\
            c_method c = "GET" /\
            c_url c = url (info itemService) +:+ "/search?q=" +:+
                      encodeURIComponent q +:+ "&limit=10")).
Proof.
  intros toLowerCase req ns nl t_res g r. split.
  - intros [Hq|Hq]; unfold r, globalSearch; rewrite Hq; reflexivity.
  - intros q Hq Hne.
    pose proof (globalSearch_response toLowerCase req ns nl t_res g q Hq Hne) as Hr.
    fold r in Hr. rewrite Hr. simpl.
    split; [reflexivity | split; [reflexivity|]].
    unfold r, globalSearch. rewrite Hq. destruct q as [|c0 q']; [contradiction|].
    unfold bind, try_catch, await, url_of, ret, throw.
    destruct (discover "item-service" (registry g)) as [itemService|];
      cbn beta iota;
      [destruct (axios ns) as [e1|[st1 v]]; cbn beta iota|];
      (destruct (bearer req) as [authHeader|];
       [destruct (discover "list-service" (registry g)) as [listService|];
        cbn beta iota;
        [destruct (axios nl) as [e2|[st2 ls]]; cbn beta iota|]|]);
      (split; [reflexivity|]);
      intros c Hin Hc; simpl in Hin;
      repeat (apply elem_of_cons in Hin as [->|Hin]);
      try (inversion Hin; fail); try discriminate Hc;
      exists itemService; repeat split.
Qed.

(** The lists a search returns are lists the list service returned, in its
    order, five at most, each with a lowered name that holds the lowered
    query; and a list of the reply that matches so is among them unless
    five were found. They are returned to a request with a bearer header
    only. *)
Theorem search_lists_are_matches :
  forall (toLowerCase : string -> string)
         (req : request) (net_search : outcome search_reply)
         (net_lists : outcome lists_reply) (t_res : Z) (g : gateway)
         (q : string) (results : Results) (found : list ShoppingList),
    (globalSearch toLowerCase req net_search net_lists t_res g).1 =
      {| status := 200; json := SearchOk results q t_res |} ->
    query_q req = Some q -> q <> "" ->
    lists results = Some found ->
    (length found <= 5)%nat /\
    Forall (Notions.name_matches toLowerCase q) found /\
    exists st reply,
      axios net_lists = inr (st, reply) /\ lists_success reply = true /\
      found `sublist_of` lists_data reply /\
      (forall l, l ∈ lists_data reply -> Notions.name_matches toLowerCase q l ->
         found <> [] /\ ((length found < 5)%nat -> l ∈ found)) /\
      bearer req <> None.
Proof.
  intros toLowerCase req ns nl t_res g q results found Hres Hq Hne Hl.
  rewrite (globalSearch_response toLowerCase req ns nl t_res g q Hq Hne) in Hres.
  injection Hres as <-. revert Hl.
  unfold list_results, item_results.
  set (r1 := match fetch_error "item-service" ns g with
             | Some detail => set_itemsError detail no_results
             | None => _
             end).
  assert (H1 : lists r1 = None).
  { unfold r1. destruct (fetch_error "item-service" ns g); [reflexivity|].
    destruct (axios ns) as [e|[st v]]; [reflexivity|].
    destruct (search_success v); reflexivity. }
  destruct (bearer req) as [authHeader|]; [|congruence].
  destruct (fetch_error "list-service" nl g); [simpl; congruence|].
  destruct (axios nl) as [e|[st reply]]; [congruence|].
  destruct (lists_success reply) eqn:Hs; [|congruence].
  simpl. intros [= <-].
  pose proof (first_five_matches
                (fun l => Js.includes (toLowerCase (name l)) (toLowerCase q) = true)
                (lists_data reply)) as (Hlen & Hsub & Hin & Hall).
  split; [exact Hlen|]. split.
  - apply Forall_forall. intros l Hl. apply includes_occurs.
    exact (proj2 (Hin l Hl)).
  - exists st, reply. split; [reflexivity|]. split; [exact Hs|].
    split; [exact Hsub|]. split; [|discriminate].
    intros l Hl Hm. apply Hall; [exact Hl | apply includes_occurs; exact Hm].
Qed.

(** A search for [gro] that is returned the list named Groceries, of a
    reply that also holds a list named Hardware. *)
Lemma search_lists_are_matches_witness :
  (length [Bench.groceries] <= 5)%nat /\
  Forall (Notions.name_matches Js.toLowerCase "gro") [Bench.groceries] /\
  exists st reply,
    axios (Bench.lists_of true [Bench.hardware; Bench.groceries]) = inr (st, reply) /\
    lists_success reply = true /\
    [Bench.groceries] `sublist_of` lists_data reply /\
    (forall l, l ∈ lists_data reply -> Notions.name_matches Js.toLowerCase "gro" l ->
       [Bench.groceries] <> [] /\
       ((length [Bench.groceries] < 5)%nat -> l ∈ [Bench.groceries])) /\
    bearer (Bench.search_req Bench.with_token) <> None.
Proof.
  apply (search_lists_are_matches Js.toLowerCase (Bench.search_req Bench.with_token)
           (Bench.found "[]")
           (Bench.lists_of true [Bench.hardware; Bench.groceries]) 9
           (new_gateway Bench.three_services) "gro"
           {| items := Some "[]"; itemsError := None;
              lists := Some [Bench.groceries]; listsError := None |}).
  - vm_compute. reflexivity.
  - reflexivity.
  - discriminate.
  - reflexivity.
Defined.

(** The aggregator hands the credential on as it came: the lists call of
    the dashboard and of the search carries, under [Authorization], the
    bearer header of the request, byte for byte, and the validation call of
    the dashboard carries the token, which is that header without its
    bearer prefix. *)
Theorem credential_forwarded_verbatim :
  forall (req : request) (authHeader : string),
    bearer req = Some authHeader ->
    header req "authorization" = Some authHeader /\
    (forall net_validate net_lists net_items g c,
       c ∈ (getDashboard req net_validate net_lists net_items g).2 ->
       (target c = "list-service" ->
        c_headers c !! "Authorization" = Some authHeader) /\
       (target c = "user-service" ->
        exists token, c_data c = Token token /\ "Bearer " +:+ token = authHeader)) /\
    (forall toLowerCase net_search net_lists t_res g c,
       c ∈ (globalSearch toLowerCase req net_search net_lists t_res g).2 ->
       target c = "list-service" ->
       c_headers c !! "Authorization" = Some authHeader).
Proof.
  intros req authHeader Hb.
  destruct (bearer_token_round_trip req authHeader Hb) as [Hh Ht].
  split; [exact Hh|]. split.
  - intros nv nl ni g c.
    unfold getDashboard, bind, await, url_of, ret, throw. rewrite Hb.
    destruct (discover "user-service" (registry g)) as [userService|];
      [|intros Hin; inversion Hin].
    cbn beta iota.
    destruct (axios nv) as [e0|[st0 v]]; cbn beta iota.
    { intros Hin. apply list_elem_of_singleton in Hin as ->. simpl.
      split; [discriminate | eauto]. }
    cbn [snd]. destruct (validate_success v); cbn [negb].
    2:{ intros Hin. apply list_elem_of_singleton in Hin as ->. simpl.
        split; [discriminate | eauto]. }
    destruct (discover "list-service" (registry g)) as [listService|].
    2:{ intros Hin. apply list_elem_of_singleton in Hin as ->. simpl.
        split; [discriminate | eauto]. }
    cbn beta iota.
    assert (Hcases : forall calls : list call,
              (forall c', c' ∈ calls ->
                 c' = {| target := "user-service"; c_method := "POST";
                         c_url := url (info userService) +:+ "/auth/validate";
                         c_headers := ∅;
                         c_data := Token (Js.replace authHeader "Bearer " "");
                         c_timeout := 5000 |} \/
                 c' = get "list-service" (url (info listService) +:+ "/lists")
                          {[ "Authorization" :=
                               "Bearer " +:+ Js.replace authHeader "Bearer " "" ]} \/
                 target c' = "item-service") ->
              c ∈ calls ->
              (target c = "list-service" ->
               c_headers c !! "Authorization" = Some authHeader) /\
              (target c = "user-service" ->
               exists token, c_data c = Token token /\
                             "Bearer " +:+ token = authHeader)).
    { intros calls Hall Hin. destruct (Hall c Hin) as [->|[->|Hti]]; simpl.
      - split; [discriminate | eauto].
      - split; [intros _; rewrite lookup_singleton_eq, Ht; reflexivity|discriminate].
      - rewrite Hti. split; discriminate. }
    destruct (axios nl) as [e1|[st1 ls]]; cbn beta iota.
    { apply Hcases. intros c' Hin. simpl in Hin.
      repeat (apply elem_of_cons in Hin as [->|Hin]); auto. inversion Hin. }
    destruct (discover "item-service" (registry g)) as [itemService|].
    2:{ apply Hcases. intros c' Hin. simpl in Hin.
        repeat (apply elem_of_cons in Hin as [->|Hin]); auto. inversion Hin. }
    cbn beta iota.
    destruct (axios ni) as [e2|[st2 it]]; cbn beta iota;
      apply Hcases; intros c' Hin; simpl in Hin;
      repeat (apply elem_of_cons in Hin as [->|Hin]); auto; inversion Hin.
  - intros toLowerCase ns nl t_res g c. unfold globalSearch.
    destruct (query_q req) as [[|c0 q']|];
      [intros Hin; inversion Hin | | intros Hin; inversion Hin].
    unfold bind, try_catch, await, url_of, ret, throw. rewrite Hb.
    destruct (discover "item-service" (registry g)) as [itemService|];
      cbn beta iota;
      [destruct (axios ns) as [e1|[st1 v]]; cbn beta iota|];
      (destruct (discover "list-service" (registry g)) as [listService|];
       cbn beta iota;
       [destruct (axios nl) as [e2|[st2 ls]]; cbn beta iota|]);
      intros Hin Hc; simpl in Hin;
      repeat (apply elem_of_cons in Hin as [->|Hin]);
      try (inversion Hin; fail); try discriminate Hc;
      simpl; rewrite lookup_singleton_eq, Ht; reflexivity.
Qed.

(** The dashboard request of the bench: its header goes to the list
    service as it is. *)
Lemma credential_forwarded_verbatim_witness :
  header Bench.dashboard_req "authorization" = Some "Bearer abc".
Proof.
  apply (proj1 (credential_forwarded_verbatim Bench.dashboard_req "Bearer abc"
                  ltac:(reflexivity))).
Defined.

(** The encoding of the query in the address of the item search puts out
    unreserved bytes and percent signs only, so no byte of a query can end
    the parameter or start another one; a query of unreserved bytes is put
    out as it is; and two queries never have the same encoding. *)
Theorem encodeURIComponent_is_safe_and_injective :
  (forall q c, c ∈ list_ascii_of_string (encodeURIComponent q) ->
     Notions.url_safe c /\
     c ∉ ["&"; "="; "?"; "#"; "/"; " "; "+"]%char) /\
  (forall q, (forall c, c ∈ list_ascii_of_string q -> unreserved c = true) ->
     encodeURIComponent q = q) /\
  (forall q1 q2, encodeURIComponent q1 = encodeURIComponent q2 -> q1 = q2).
Proof.
  assert (Hsafe : forall q c, c ∈ list_ascii_of_string (encodeURIComponent q) ->
                              Notions.url_safe c).
  { induction q as [|a q IH]; intros c Hin; [inversion Hin|].
    simpl in Hin. destruct (unreserved a) eqn:Hu; simpl in Hin.
    - apply elem_of_cons in Hin as [->|Hin]; [left; exact Hu | auto].
    - repeat (apply elem_of_cons in Hin as [->|Hin]);
        [right; reflexivity | left; apply hex_digit_unreserved
        | left; apply hex_digit_unreserved | auto]. }
  split; [|split].
  - intros q c Hin. split; [exact (Hsafe q c Hin)|].
    intros Hbad. destruct (Hsafe q c Hin) as [Hu| ->].
    + repeat (apply elem_of_cons in Hbad as [->|Hbad]);
        try discriminate Hu. inversion Hbad.
    + repeat (apply elem_of_cons in Hbad as [Hbad|Hbad]);
        try discriminate Hbad. inversion Hbad.
  - induction q as [|a q IH]; intros H; [reflexivity|].
    simpl. rewrite (H a) by (left). f_equal. apply IH.
    intros c Hin. apply H. right. exact Hin.
  - induction q1 as [|a q1 IH]; intros q2 H.
    + destruct q2 as [|b q2]; [reflexivity|]. cbn [encodeURIComponent] in H.
      destruct (unreserved b); discriminate.
    + destruct q2 as [|b q2]; cbn [encodeURIComponent] in H.
      { destruct (unreserved a); discriminate. }
      destruct (unreserved a) eqn:Ha; destruct (unreserved b) eqn:Hb.
      * injection H as -> H. f_equal. apply IH. exact H.
      * injection H as -> _. discriminate Ha.
      * injection H as <- _. discriminate Hb.
      * injection H as H1 H2 H3.
        change (hex_digit (nat_of_ascii a / 16) = hex_digit (nat_of_ascii b / 16))
          in H1.
        change (hex_digit (nat_of_ascii a mod 16) =
                hex_digit (nat_of_ascii b mod 16)) in H2.
        assert (Hn : nat_of_ascii a = nat_of_ascii b).
        { pose proof (nat_ascii_bounded a) as Ba.
          pose proof (nat_ascii_bounded b) as Bb.
          apply hex_digit_inj in H1;
            [|apply Nat.Div0.div_lt_upper_bound; lia
             |apply Nat.Div0.div_lt_upper_bound; lia].
          apply hex_digit_inj in H2;
            [|apply Nat.mod_upper_bound; lia|apply Nat.mod_upper_bound; lia].
          rewrite (Nat.div_mod_eq (nat_of_ascii a) 16),
                  (Nat.div_mod_eq (nat_of_ascii b) 16).
          lia. }
        f_equal; [|apply IH; exact H3].
        rewrite <- (ascii_nat_embedding a), <- (ascii_nat_embedding b), Hn.
        reflexivity.
Qed.

(** ** Routing and the target address *)

Section RoutingFacts.

Lemma mounted_prefix prefix path :
  mounted_at prefix path = true ->
  String.prefix prefix (Js.toLowerCase path) = true.
Proof. unfold mounted_at. intros H. apply andb_true_iff in H as [H _]. exact H. Qed.

End RoutingFacts.

(** The four proxied prefixes never compete: a path is mounted under one of
    them at most, so the order of the routes decides nothing. A request
    that is routed goes to a prefix of the table that its path is mounted
    under, and to a service that has a breaker; a request none of whose
    prefixes match is not proxied, which is the case of the dashboard, the
    search, the health, the registry and the root paths, in any case of
    letters. *)
Theorem proxy_routes_unambiguous :
  (forall path e1 e2,
     e1 ∈ proxy_routes -> e2 ∈ proxy_routes ->
     mounted_at e1.1 path = true -> mounted_at e2.1 path = true -> e1 = e2) /\
  (forall req prefix name,
     route req = Some (prefix, name) ->
     (prefix, name) ∈ proxy_routes /\
     mounted_at prefix (path_of (originalUrl req)) = true /\
     is_Some (initial_breakers !! name)) /\
  (forall req,
     route req = None <->
     forall e, e ∈ proxy_routes ->
               mounted_at e.1 (path_of (originalUrl req)) = false) /\
  (forall req,
     Js.toLowerCase (path_of (originalUrl req)) ∈
       ["/api/dashboard"; "/api/search"; "/health"; "/registry"; "/"] ->
     route req = None).
Proof.
  split; [|split; [|split]].
  - intros path e1 e2 H1 H2 M1 M2.
    apply mounted_prefix in M1. apply mounted_prefix in M2.
    destruct (prefix_of_both _ _ _ M1 M2) as [H|H]; revert H;
      unfold proxy_routes in H1, H2;
      repeat (apply elem_of_cons in H1 as [->|H1]); try (inversion H1; fail);
      repeat (apply elem_of_cons in H2 as [->|H2]); try (inversion H2; fail);
      simpl; intros H; first [reflexivity | discriminate H].
  - intros req prefix name H. unfold route in H.
    apply find_some in H as [Hin Hm]. simpl in Hm.
    split; [apply list_elem_of_In; exact Hin|]. split; [exact Hm|].
    unfold proxy_routes in Hin. simpl in Hin.
    destruct Hin as [[= <- <-]|[[= <- <-]|[[= <- <-]|[[= <- <-]|[]]]]];
      vm_compute; eauto.
  - intros req. unfold route. split.
    + intros H e Hin. apply list_elem_of_In in Hin.
      exact (find_none _ _ H e Hin).
    + intros H. destruct (List.find _ proxy_routes) as [e|] eqn:F; [|reflexivity].
      apply find_some in F as [Hin Hm]. apply list_elem_of_In in Hin.
      rewrite (H e Hin) in Hm. discriminate.
  - intros req Hin. unfold route, proxy_routes, mounted_at. simpl.
    repeat (apply elem_of_cons in Hin as [->|Hin]); try (inversion Hin; fail);
      reflexivity.
Qed.

(** The request for item 5 is routed under the items prefix, to a service
    that has a breaker. *)
Lemma proxy_routes_unambiguous_witness :
  ("/api/items", "item-service") ∈ proxy_routes /\
  mounted_at "/api/items" (path_of (originalUrl Bench.get_item_5)) = true /\
  is_Some (initial_breakers !! "item-service").
Proof.
  apply (proj1 (proj2 proxy_routes_unambiguous) Bench.get_item_5). reflexivity.
Defined.

(** The address a proxied request is forwarded to: the address of the
    service, followed by the URL of the request with the first [/api/] and
    singular of the service name taken out. Under the users, items and
    lists prefixes that leaves the plural [s] and what follows the prefix;
    under the auth prefix, for a URL that has no [/api/user] further on, it
    leaves the whole URL. *)
Theorem targetUrl_by_prefix :
  forall (service : ServiceRecord) (req : request) (rest : string),
    (originalUrl req = "/api/users" +:+ rest ->
     targetUrl "user-service" service req = url (info service) +:+ "s" +:+ rest) /\
    (originalUrl req = "/api/items" +:+ rest ->
     targetUrl "item-service" service req = url (info service) +:+ "s" +:+ rest) /\
    (originalUrl req = "/api/lists" +:+ rest ->
     targetUrl "list-service" service req = url (info service) +:+ "s" +:+ rest) /\
    (originalUrl req = "/api/auth" +:+ rest ->
     Js.includes rest "/api/user" = false ->
     targetUrl "user-service" service req =
     url (info service) +:+ "/api/auth" +:+ rest).
Proof.
  intros service req rest. unfold targetUrl.
  split; [intros ->; reflexivity|].
  split; [intros ->; reflexivity|].
  split; [intros ->; reflexivity|].
  intros -> Hi. f_equal.
  apply replace_when_absent.
  change (Js.split_head "user-service" "-") with "user".
  change ("/api/" +:+ "user") with "/api/user".
  change ("/api/auth" +:+ rest) with
    (String "/" (String "a" (String "p" (String "i" (String "/"
      (String "a" (String "u" (String "t" (String "h" rest))))))))).
  cbn [Js.includes String.prefix]. simpl. exact Hi.
Qed.

(** ** The record store *)

Section StoreFacts.

Import JsonDatabase.

Context {num : Type} (js : platform num).

Local Abbreviation value := (@JsonDatabase.value num).
Local Abbreviation item := (@JsonDatabase.item num).
Local Abbreviation query := (@JsonDatabase.query num).

Lemma filter_by_total (f : item -> thrown + bool) (data : list item) :
  Forall (fun x => exists b, f x = inr b) data ->
  filter_by f data = inr (List.filter (fun x => is_true (f x)) data).
Proof.
  induction 1 as [|x data [b Hb] _ IH]; [reflexivity|].
  cbn [filter_by List.filter]. rewrite Hb, IH. destruct b; reflexivity.
Qed.

Lemma filter_all {A : Type} (l : list A) : List.filter (fun _ => true) l = l.
Proof. induction l as [|x l IH]; [reflexivity|]. cbn. now rewrite IH. Qed.

Lemma matchValue_primitive (v id : value) :
  is_object id = false -> matchValue js v id = inr (strict_eq js v id).
Proof. intros H. unfold matchValue. now rewrite H. Qed.

Lemma matches_id (x : item) (id : value) :
  is_object id = false ->
  matches js x [("id", id)] = inr (strict_eq js (get "id" x) id).
Proof.
  intros H. cbn [matches].
  change (Js.startsWith "id" "$") with false. cbv iota.
  rewrite (matchValue_primitive _ _ H).
  destruct (strict_eq js (get "id" x) id); reflexivity.
Qed.

Lemma findIndex_None (id : value) (data : list item) :
  findIndex js id data = None <->
  Forall (fun x => strict_eq js (get "id" x) id = false) data.
Proof.
  induction data as [|x data IH]; cbn [findIndex].
  - split; [constructor | reflexivity].
  - destruct (strict_eq js (get "id" x) id) eqn:E.
    + split; [discriminate | intros H; inversion H; congruence].
    + destruct (findIndex js id data) as [i|]; cbn [option_map].
      * split; [discriminate|]. intros H. inversion H; subst.
        destruct IH as [_ IH]. specialize (IH ltac:(assumption)). discriminate.
      * split; [|reflexivity]. intros _. constructor; [exact E | now apply IH].
Qed.

Lemma findIndex_Some (id : value) (data : list item) (i : nat) :
  findIndex js id data = Some i ->
  exists old, data !! i = Some old /\
    strict_eq js (get "id" old) id = true /\
    (forall j x, (j < i)%nat -> data !! j = Some x ->
                 strict_eq js (get "id" x) id = false).
Proof.
  revert i. induction data as [|x data IH]; intros i; cbn [findIndex]; [discriminate|].
  destruct (strict_eq js (get "id" x) id) eqn:E.
  - intros [= <-]. exists x. split; [reflexivity|]. split; [exact E|]. intros j y Hj. lia.
  - destruct (findIndex js id data) as [i'|]; cbn [option_map]; [|discriminate].
    intros [= <-]. destruct (IH i' eq_refl) as (old & H1 & H2 & H3).
    exists old. split; [exact H1|]. split; [exact H2|].
    intros [|j] y Hj Hy.
    + cbn in Hy. congruence.
    + cbn in Hy. apply (H3 j); [lia | exact Hy].
Qed.

Lemma findIndex_first (id : value) (data : list item) (i : nat) (x : item) :
  data !! i = Some x ->
  strict_eq js (get "id" x) id = true ->
  (forall j y, (j < i)%nat -> data !! j = Some y ->
               strict_eq js (get "id" y) id = false) ->
  findIndex js id data = Some i.
Proof.
  revert i. induction data as [|y data IH]; intros i Hx Hid Hbefore; [discriminate|].
  cbn [findIndex]. destruct i as [|i].
  - cbn in Hx. injection Hx as ->. now rewrite Hid.
  - rewrite (Hbefore 0%nat y ltac:(lia) eq_refl).
    rewrite (IH i); [reflexivity | exact Hx | exact Hid |].
    intros j z Hj Hz. apply (Hbefore (S j)); [lia | exact Hz].
Qed.

Lemma head_filter_findIndex (id : value) (data : list item) :
  head (List.filter (fun x => strict_eq js (get "id" x) id) data) =
  match findIndex js id data with
  | Some i => data !! i
  | None => None
  end.
Proof.
  induction data as [|x data IH]; [reflexivity|].
  cbn [List.filter findIndex].
  destruct (strict_eq js (get "id" x) id); [reflexivity|].
  rewrite IH. destruct (findIndex js id data); reflexivity.
Qed.

Lemma head_take_1 {A : Type} (l : list A) : head (take 1 l) = head l.
Proof. destruct l; reflexivity. Qed.

Lemma filter_ext_is_true (id : value) (data : list item) :
  is_object id = false ->
  List.filter (fun x => is_true (matches js x [("id", id)])) data =
  List.filter (fun x => strict_eq js (get "id" x) id) data.
Proof.
  intros H. apply List.filter_ext. intros x. rewrite (matches_id _ _ H).
  destruct (strict_eq js (get "id" x) id); reflexivity.
Qed.

Lemma findById_lookup (id : value) (data : list item) :
  is_object id = false ->
  findById js id (Some data) =
  inr (match findIndex js id data with
       | Some i => data !! i
       | None => None
       end).
Proof.
  intros H. unfold findById, findOne, find.
  change (0 <? length [("id", id)])%nat with true. cbv iota.
  rewrite filter_by_total.
  2:{ apply Forall_forall. intros x _. rewrite (matches_id _ _ H). eauto. }
  cbn [sort skip limit]. change (0 <? 0)%nat with false. change (0 <? 1)%nat with true.
  cbv iota. rewrite head_take_1, (filter_ext_is_true _ _ H).
  now rewrite head_filter_findIndex.
Qed.

Lemma get_app (k : string) (a b : item) :
  get k (a ++ b)%list =
  match get k a with
  | Some v => Some v
  | None => get k b
  end.
Proof.
  induction a as [|[k' v] a IH]; [reflexivity|].
  cbn [app get]. destruct (String.eqb k' k); [reflexivity | exact IH].
Qed.

Lemma get_map (k : string) (f : string -> json num -> json num) (a : item) :
  get k (List.map (fun e => (e.1, f e.1 e.2)) a) =
  match get k a with
  | Some v => Some (f k v)
  | None => None
  end.
Proof.
  induction a as [|[k' v] a IH]; [reflexivity|].
  cbn [List.map get fst snd]. destruct (String.eqb k' k) eqn:E; [|exact IH].
  apply String.eqb_eq in E. now subst.
Qed.

Lemma get_filter (k : string) (p : string -> bool) (b : item) :
  get k (List.filter (fun e => p e.1) b) = if p k then get k b else None.
Proof.
  induction b as [|[k' v] b IH]; [now destruct (p k)|].
  cbn [List.filter get fst]. destruct (String.eqb k' k) eqn:E.
  - apply String.eqb_eq in E. subst k'. destruct (p k) eqn:Hp.
    + cbn [get]. now rewrite String.eqb_refl.
    + rewrite IH; try rewrite Hp; reflexivity.
  - destruct (p k') eqn:Hp'.
    + cbn [get]. rewrite E. exact IH.
    + exact IH.
Qed.

Lemma get_spread (k : string) (a b : item) :
  get k (spread a b) =
  match get k b with
  | Some v => Some v
  | None => get k a
  end.
Proof.
  unfold spread. rewrite get_app.
  rewrite (get_map k (fun k' v => match get k' b with Some v' => v' | None => v end)).
  rewrite (get_filter k (fun k' => negb (has k' a))). unfold has.
  destruct (get k a) as [v|]; destruct (get k b) as [v'|]; reflexivity.
Qed.

Lemma filter_length_le {A : Type} (p : A -> bool) (l : list A) :
  (length (List.filter p l) <= length l)%nat.
Proof.
  induction l as [|x l IH]; [reflexivity|].
  cbn [List.filter]. destruct (p x); cbn [length]; lia.
Qed.

Lemma filter_length_eq {A : Type} (p : A -> bool) (l : list A) :
  length (List.filter p l) = length l <-> Forall (fun x => p x = true) l.
Proof.
  induction l as [|x l IH]; [split; [constructor | reflexivity]|].
  cbn [List.filter]. destruct (p x) eqn:E; cbn [length].
  - split.
    + intros Hl. constructor; [exact E | apply IH; lia].
    + intros Hl. inversion Hl; subst. f_equal. now apply IH.
  - pose proof (filter_length_le p l). split; [lia|].
    intros Hl. inversion Hl; congruence.
Qed.

Lemma filter_sublist {A : Type} (p : A -> bool) (l : list A) :
  sublist (List.filter p l) l.
Proof.
  induction l as [|x l IH]; [constructor|].
  cbn [List.filter]. destruct (p x); now constructor.
Qed.

Lemma filter_filter_id {A : Type} (p : A -> bool) (l : list A) :
  List.filter p (List.filter p l) = List.filter p l.
Proof.
  induction l as [|x l IH]; [reflexivity|].
  cbn [List.filter]. destruct (p x) eqn:E; [|exact IH].
  cbn [List.filter]. now rewrite E, IH.
Qed.

(** Without a sort, [find] gives the records on which the query is
    true, in the order of the file, from the [skip]-th on and at most
    [limit] of them, a [limit] of zero being no limit; [count] is their
    number and [findOne] the first of them. The query has to be decided on
    every record: one record on which it throws makes the call throw. *)
Theorem find_returns_the_matches (q : query) (o : options) (data : list item) :
  sort o = None ->
  Forall (fun x => exists b, matches js x q = inr b) data ->
  let found := List.filter (fun x => is_true (matches js x q)) data in
  find js q o (Some data) =
    inr (if (limit o =? 0)%nat then drop (skip o) found
         else take (limit o) (drop (skip o) found)) /\
  count js q (Some data) = inr (length found) /\
  findOne js q (Some data) = inr (head found).
Proof.
  intros Hsort Hall found.
  assert (Hfilter : (if (0 <? length q)%nat
                     then filter_by (fun it => matches js it q) data
                     else inr data) = inr found).
  { destruct q as [|e q].
    - cbn. unfold found. cbn [matches is_true]. now rewrite filter_all.
    - cbn [length]. change (0 <? S (length q))%nat with true. cbv iota.
      now apply filter_by_total. }
  unfold count, findOne, find. rewrite Hfilter, Hsort. cbn [sort skip limit].
  change (0 <? 0)%nat with false. change (0 <? 1)%nat with true. cbv iota.
  split; [|split].
  - f_equal. destruct (skip o) as [|s], (limit o) as [|l]; reflexivity.
  - reflexivity.
  - now rewrite head_take_1.
Qed.

(** The loop over a query returns at its first key that starts with
    a dollar sign. When the fields before it match, the verdict is that of
    this key alone, whatever the query holds after it; and a dollar key
    other than [$or], [$and] and [$not] accepts the record. *)
Theorem dollar_key_ends_query (it : item) (pre post : query) (key : string) (v : value) :
  Forall (fun e => Js.startsWith e.1 "$" = false) pre ->
  Js.startsWith key "$" = true ->
  Forall (fun e => matchValue js (get e.1 it) e.2 = inr true) pre ->
  matches js it (pre ++ (key, v) :: post)%list = matches js it [(key, v)] /\
  (key <> "$or" -> key <> "$and" -> key <> "$not" ->
   matches js it (pre ++ (key, v) :: post)%list = inr true).
Proof.
  intros Hpre Hkey Hmatch.
  assert (Hcut : matches js it (pre ++ (key, v) :: post)%list = matches js it [(key, v)]).
  { induction pre as [|[k w] pre IH].
    - cbn [app matches]. rewrite Hkey. reflexivity.
    - inversion Hpre as [|? ? Hk Hpre']; subst. inversion Hmatch as [|? ? Hm Hmatch']; subst.
      cbn [fst snd] in Hk, Hm. cbn [app matches]. rewrite Hk, Hm. now apply IH. }
  split; [exact Hcut|].
  intros H1 H2 H3. rewrite Hcut. cbn [matches]. rewrite Hkey.
  apply String.eqb_neq in H1, H2, H3. now rewrite H1, H2, H3.
Qed.

(** For an identifier that is no object, [findById] and the
    [findIndex] of [update] address the same record, the first one of the
    file whose [id] is strictly equal to it; the one finds nothing exactly
    when the other does. *)
Theorem lookups_by_id_agree (id : value) (data : list item) :
  is_object id = false ->
  (forall x, findById js id (Some data) = inr (Some x) <->
             exists i, findIndex js id data = Some i /\ data !! i = Some x) /\
  (findById js id (Some data) = inr None <-> findIndex js id data = None).
Proof.
  intros H. rewrite (findById_lookup _ _ H). split.
  - intros x. split.
    + intros [= Hx]. destruct (findIndex js id data) as [i|]; [|discriminate]. eauto.
    + intros (i & -> & ->). reflexivity.
  - split.
    + intros [= Hx]. destruct (findIndex js id data) as [i|] eqn:E; [|reflexivity].
      destruct (findIndex_Some _ _ _ E) as (old & Hold & _). congruence.
    + intros ->. reflexivity.
Qed.

(** [create] appends without looking at the identifiers: the file
    has one record more, and a lookup by an identifier that is no object
    still gives the earlier record of that identifier when there is one,
    the new record only when there is none and its [id] is the one asked
    for. *)
Theorem create_appends_unchecked (it : item) (id : value) (data : list item) :
  is_object id = false ->
  let f' := (create it WriteOk (Some data)).1 in
  f' = Some (data ++ [it])%list /\
  count js [] f' = inr (S (length data)) /\
  findById js id f' =
    inr (match findIndex js id data with
         | Some i => data !! i
         | None => if strict_eq js (get "id" it) id then Some it else None
         end).
Proof.
  intros H f'. split; [reflexivity|]. split.
  - unfold f', count, find. cbn. rewrite length_app. cbn. f_equal. lia.
  - unfold f'. cbn [create write fst]. rewrite (findById_lookup _ _ H).
    f_equal. clear f'. induction data as [|x data IH].
    + cbn [app findIndex]. destruct (strict_eq js (get "id" it) id); reflexivity.
    + cbn [app findIndex]. destruct (strict_eq js (get "id" x) id); [reflexivity|].
      destruct (findIndex js id (data ++ [it])%list) as [i|],
               (findIndex js id data) as [i'|]; cbn [option_map]; cbn; exact IH.
Qed.

(** [update] throws the not-found error and leaves the file as it is
    when no record has the identifier. Otherwise it rewrites the first
    record that has it, and only that one: the new record has the fields
    of the updates and, for the others, those of the old record; when the
    updates hold no [id], a lookup by the identifier gives the new
    record. *)
Theorem update_merges_first_match
    (id : value) (updates : item) (data : list item) (w : write_outcome) :
  (findIndex js id data = None ->
   update js id updates w (Some data) = (Some data, inl ItemNotFound)) /\
  (forall i, findIndex js id data = Some i ->
   exists old,
     data !! i = Some old /\
     strict_eq js (get "id" old) id = true /\
     (forall j x, (j < i)%nat -> data !! j = Some x ->
                  strict_eq js (get "id" x) id = false) /\
     update js id updates WriteOk (Some data) =
       (Some (<[i := spread old updates]> data), inr (spread old updates)) /\
     (forall k, get k (spread old updates) =
                match get k updates with
                | Some v => Some v
                | None => get k old
                end) /\
     (has "id" updates = false -> is_object id = false ->
      findById js id (Some (<[i := spread old updates]> data)) =
      inr (Some (spread old updates)))).
Proof.
  split.
  - intros H. unfold update. now rewrite H.
  - intros i Hi. destruct (findIndex_Some _ _ _ Hi) as (old & Hold & Hid & Hbefore).
    exists old. split; [exact Hold|]. split; [exact Hid|]. split; [exact Hbefore|].
    split; [|split].
    + unfold update. rewrite Hi, Hold. reflexivity.
    + intros k. apply get_spread.
    + intros Hno Hprim. rewrite (findById_lookup _ _ Hprim).
      assert (Hlt : (i < length data)%nat) by (apply lookup_lt_is_Some; eauto).
      rewrite (findIndex_first id _ i (spread old updates)).
      * now rewrite list_lookup_insert_eq.
      * now apply list_lookup_insert_eq.
      * rewrite get_spread. unfold has in Hno.
        destruct (get "id" updates); [discriminate | exact Hid].
      * intros j y Hj Hy. rewrite list_lookup_insert_ne in Hy by lia.
        now apply (Hbefore j).
Qed.

(** [delete] throws the not-found error and leaves the file as it is
    when no record has the identifier. Otherwise it removes every record
    that has it, not the first one only, and keeps the others in their
    order; a second [delete] of the identifier then throws. *)
Theorem delete_removes_every_match (id : value) (data : list item) (w : write_outcome) :
  (findIndex js id data = None ->
   delete js id w (Some data) = (Some data, inl ItemNotFound)) /\
  (forall i, findIndex js id data = Some i ->
   exists data',
     delete js id WriteOk (Some data) = (Some data', inr true) /\
     (forall x, In x data' <-> In x data /\ strict_eq js (get "id" x) id = false) /\
     sublist data' data /\
     (length data' < length data)%nat /\
     delete js id w (Some data') = (Some data', inl ItemNotFound)).
Proof.
  set (p := fun x : item => negb (strict_eq js (get "id" x) id)).
  assert (Hp : forall l, length (List.filter p l) = length l <-> findIndex js id l = None).
  { intros l. rewrite filter_length_eq, findIndex_None. unfold p.
    split; intros HF; (eapply Forall_impl; [exact HF|]); intros x; cbv beta;
      now destruct (strict_eq js (get "id" x) id). }
  split.
  - intros H. unfold delete. fold p. apply Hp in H. rewrite H, Nat.eqb_refl. reflexivity.
  - intros i Hi. exists (List.filter p data).
    assert (Hne : length (List.filter p data) <> length data).
    { intros E. apply Hp in E. congruence. }
    pose proof (filter_length_le p data) as Hle.
    split; [|split; [|split; [|split]]].
    + unfold delete. fold p. apply Nat.eqb_neq in Hne. now rewrite Hne.
    + intros x. rewrite List.filter_In. unfold p.
      now destruct (strict_eq js (get "id" x) id).
    + apply filter_sublist.
    + lia.
    + unfold delete. fold p. now rewrite filter_filter_id, Nat.eqb_refl.
Qed.

End StoreFacts.

(** The witnesses of the record store, on the shelf of the examples. *)

Lemma find_returns_the_matches_witness :
  JsonDatabase.find JsonDatabase.integers Pantry.dearer_than_8
    {| JsonDatabase.sort := None; JsonDatabase.skip := 1; JsonDatabase.limit := 0 |}
    (Some Pantry.shelf) = inr [Pantry.brown_rice] /\
  JsonDatabase.count JsonDatabase.integers Pantry.dearer_than_8 (Some Pantry.shelf) =
    inr 2%nat /\
  JsonDatabase.findOne JsonDatabase.integers Pantry.dearer_than_8 (Some Pantry.shelf) =
    inr (Some Pantry.beans).
Proof.
  assert (Hall : Forall (fun x => exists b,
                   JsonDatabase.matches JsonDatabase.integers x Pantry.dearer_than_8 = inr b)
                 Pantry.shelf).
  { repeat (constructor; [eexists; reflexivity|]). constructor. }
  exact (find_returns_the_matches JsonDatabase.integers Pantry.dearer_than_8
           {| JsonDatabase.sort := None; JsonDatabase.skip := 1; JsonDatabase.limit := 0 |}
           Pantry.shelf eq_refl Hall).
Defined.

Lemma dollar_key_ends_query_witness :
  JsonDatabase.matches JsonDatabase.integers Pantry.rice Pantry.rice_text_1000 = inr true.
Proof.
  apply (dollar_key_ends_query JsonDatabase.integers Pantry.rice
           [("name", Some (JsonDatabase.Str "Rice"))]
           [("price", Some (JsonDatabase.Num 1000))]
           "$text" (Some (JsonDatabase.Str "x"))).
  - repeat constructor.
  - reflexivity.
  - repeat constructor.
  - discriminate.
  - discriminate.
  - discriminate.
Defined.

Lemma lookups_by_id_agree_witness :
  JsonDatabase.findById JsonDatabase.integers (Some (JsonDatabase.Str "a1"))
    (Some Pantry.shelf) = inr (Some Pantry.rice).
Proof.
  apply (lookups_by_id_agree JsonDatabase.integers (Some (JsonDatabase.Str "a1"))
           Pantry.shelf eq_refl).
  exists 0%nat. split; reflexivity.
Defined.

Lemma create_appends_unchecked_witness :
  JsonDatabase.findById JsonDatabase.integers (Some (JsonDatabase.Str "a1"))
    (JsonDatabase.create Pantry.brown_rice JsonDatabase.WriteOk
       (Some [Pantry.rice; Pantry.beans])).1 = inr (Some Pantry.rice).
Proof.
  exact (proj2 (proj2 (create_appends_unchecked JsonDatabase.integers Pantry.brown_rice
                         (Some (JsonDatabase.Str "a1")) [Pantry.rice; Pantry.beans]
                         eq_refl))).
Defined.
